(** * Goesi: response cache, expiry parsing and request orchestration

    A shallow embedding of the Go package [goesi]: [cache.go] and the
    [lib.go] that owns a cache ([Get] with format arguments, [Post],
    [ClearCache]), together with the part of Go's standard [time]
    package that [getExpiration] relies on, followed by the properties
    of the natural-language specification stated over that embedding.

    Left out: the calls of the logger, which write to the log and
    nothing else, and [defer resp.Body.Close()], which releases the
    connection.

    Conventions of the embedding
    - a Go [string] is a [string] (a sequence of bytes, [ascii]);
    - a Go [int] / [int64] that never leaves its range here is a [Z];
    - a Go [(T, error)] pair is a [result T]: [Ok v] for [(v, nil)] and
      [Err e] for [(zero, e)];
    - a nilable pointer [*gabs.Container] is an [option Container];
    - [map[string]CacheEntry] is a [gmap string CacheEntry];
    - code that mutates the receiver or talks to the network is written
      in a state-and-error monad over the explicit machine state. *)

From Stdlib Require Import ZArith Ascii String List Lia.
From stdpp Require Import gmap strings.

Local Open Scope Z_scope.

(** ** Results and errors *)

(** Why [time.Parse] rejected its input (the payload of a
    [*time.ParseError]). *)
Inductive parseFailure : Type :=
| errBad                              (* "bad value for field" *)
| outOfRange (what : string)          (* ": <what> out of range" *)
| extraText (rest : string).          (* ": extra text: <rest>" *)

(** The values of Go's [error] interface that the package produces or
    passes on. *)
Inductive error : Type :=
| ParseError (why : parseFailure)     (* *time.ParseError *)
| Errorf (msg : string)               (* fmt.Errorf(msg) *)
| LibError (msg : string).            (* net/http, io, encoding/json, gabs *)

Inductive result (A : Type) : Type :=
| Ok (v : A)
| Err (e : error).
Arguments Ok {A} v.
Arguments Err {A} e.

(** [result] is an error monad; [x ← r; k] is Go's
    [x, err := r; if err != nil { return zero, err }; k]. *)
Global Instance result_ret : MRet result := fun A v => Ok v.
Global Instance result_bind : MBind result := fun A B k r =>
  match r with
  | Ok v => k v
  | Err e => Err e
  end.

(** ** Go string primitives *)

Module gostring.

(** [len(s)] *)
Definition len (s : string) : Z := Z.of_nat (String.length s).

(** [s[n:]] *)
Fixpoint from (n : nat) (s : string) : string :=
  match n, s with
  | O, _ => s
  | S n', String _ s' => from n' s'
  | S _, EmptyString => EmptyString
  end.

(** [s[:n]] *)
Fixpoint to (n : nat) (s : string) : string :=
  match n, s with
  | O, _ => EmptyString
  | S n', String c s' => String c (to n' s')
  | S _, EmptyString => EmptyString
  end.

(** The numeric value of a byte. *)
Definition byte (c : ascii) : Z := Z.of_N (N_of_ascii c).

Definition isSpace (c : ascii) : bool := byte c =? 32.
Definition isDigitByte (c : ascii) : bool := (48 <=? byte c) && (byte c <=? 57).
Definition isUpperByte (c : ascii) : bool := (65 <=? byte c) && (byte c <=? 90).

Definition allb (p : ascii -> bool) (s : string) : bool :=
  forallb p (list_ascii_of_string s).

End gostring.
Import gostring.

(** ** The [time] package: instants, calendar, parsing with one layout

    [time] belongs to Go's standard library, not to the repository.
    What follows is [time.Parse] specialised to the one layout that
    [getExpiration] passes, function by function after [time/format.go]
    and [time/time.go] of the current Go releases (1.20 and later). *)

Module time.

(** [*time.Location], as far as parsing distinguishes locations. *)
Inductive Location : Type :=
| UTC
| Local
| FixedZone (name : string) (offset : Z).

(** A [time.Time] without monotonic clock reading: seconds since the
    Unix epoch, nanoseconds within the second, and a location. *)
Record Time : Type := mkTime {
  unixSec : Z;
  nsec : Z;
  loc : Location
}.

(** [t.Before(u)]: [ts < us || ts == us && t.nsec() < u.nsec()]. *)
Definition Before (t u : Time) : bool :=
  (unixSec t <? unixSec u) || ((unixSec t =? unixSec u) && (nsec t <? nsec u)).

(** [t.After(u)]: [ts > us || ts == us && t.nsec() > u.nsec()]. *)
Definition After (t u : Time) : bool :=
  (unixSec u <? unixSec t) || ((unixSec t =? unixSec u) && (nsec u <? nsec t)).

(** [t.Equal(u)]: same instant, whatever the locations. *)
Definition Equal (t u : Time) : bool :=
  (unixSec t =? unixSec u) && (nsec t =? nsec u).

(** [t.UTC()]: same instant, location UTC. *)
Definition toUTC (t : Time) : Time := mkTime (unixSec t) (nsec t) UTC.

(** *** Calendar *)

Definition isLeap (year : Z) : bool :=
  (year mod 4 =? 0) && (negb (year mod 100 =? 0) || (year mod 400 =? 0)).

(** [daysBefore[m]]: days in a non-leap year before month [m+1]. *)
Definition daysBefore (m : Z) : Z :=
  nth (Z.to_nat m) [0; 31; 59; 90; 120; 151; 181; 212; 243; 273; 304; 334; 365] 0.

Definition daysIn (m year : Z) : Z :=
  if (m =? 2) && isLeap year then 29
  else daysBefore m - daysBefore (m - 1).

(** Leap years among the years [1 .. y-1] of the proleptic Gregorian
    calendar. *)
Definition leapsBefore (y : Z) : Z :=
  (y - 1) / 4 - (y - 1) / 100 + (y - 1) / 400.

(** Days from 1970-01-01 to January 1 of [year]. *)
Definition daysSinceEpoch (year : Z) : Z :=
  365 * (year - 1970) + (leapsBefore year - leapsBefore 1970).

(** [time.Date(year, month, day, hour, min, sec, nsec, UTC)] on
    arguments that are already in range (the only way [Parse] calls
    it): the seconds since the Unix epoch. *)
Definition DateUTC (year month day hour min sec ns : Z) : Time :=
  let d := daysSinceEpoch year + daysBefore (month - 1)
           + (if isLeap year && (3 <=? month) then 1 else 0)
           + (day - 1) in
  mkTime (d * 86400 + hour * 3600 + min * 60 + sec) ns UTC.

(** *** Scanning helpers of [time/format.go] *)

(** A failure inside [Parse] always reaches the caller as a
    [*ParseError]. *)
Definition bad {A} : result A := Err (ParseError errBad).
Definition rangeErr {A} (what : string) : result A :=
  Err (ParseError (outOfRange what)).

(** [isDigit(s, i)]: [i] is in range and [s[i]] is a decimal digit. *)
Definition isDigit (s : string) (i : nat) : bool :=
  match String.get i s with
  | Some c => isDigitByte c
  | None => false
  end.

(** [i < len(s) && s[i] == c] *)
Definition byteIs (s : string) (i : nat) (c : ascii) : bool :=
  match String.get i s with
  | Some x => Ascii.eqb x c
  | None => false
  end.

(** [int(s[i] - '0')] *)
Definition digitAt (s : string) (i : nat) : Z :=
  match String.get i s with
  | Some c => byte c - 48
  | None => 0
  end.

(** [getnum(s, fixed)]: a one- or two-digit number; exactly two digits
    when [fixed]. *)
Definition getnum (s : string) (fixed : bool) : result (Z * string) :=
  if negb (isDigit s 0) then bad
  else if negb (isDigit s 1) then
    (if fixed then bad else Ok (digitAt s 0, from 1 s))
  else Ok (digitAt s 0 * 10 + digitAt s 1, from 2 s).

(** [cutspace(s)]: [s] without its leading spaces. *)
Fixpoint cutspace (s : string) : string :=
  match s with
  | String c s' => if isSpace c then cutspace s' else s
  | EmptyString => EmptyString
  end.

(** [skip(value, prefix)]: remove [prefix] from [value]; a run of
    spaces in [prefix] matches a run of spaces in [value] (or the end
    of [value]).  The loop runs at most [len(prefix)] times, which is
    the fuel. *)
Fixpoint skip_loop (fuel : nat) (value prefix : string) : result string :=
  match prefix with
  | EmptyString => Ok value
  | String p prefix' =>
    match fuel with
    | O => bad
    | S fuel' =>
      if isSpace p then
        match value with
        | String v _ =>
          if negb (isSpace v) then bad
          else skip_loop fuel' (cutspace value) (cutspace prefix)
        | EmptyString => skip_loop fuel' (cutspace value) (cutspace prefix)
        end
      else
        match value with
        | String v value' =>
          if Ascii.eqb v p then skip_loop fuel' value' prefix' else bad
        | EmptyString => bad
        end
    end
  end.

Definition skip (value prefix : string) : result string :=
  skip_loop (String.length prefix) value prefix.

(** [match(s1, s2)]: equal up to ASCII case; both have the same
    length. *)
Fixpoint match_ (s1 s2 : string) : bool :=
  match s1, s2 with
  | String c1 r1, String c2 r2 =>
    (if Ascii.eqb c1 c2 then true
     else
       let l1 := Z.lor (byte c1) 32 in
       let l2 := Z.lor (byte c2) 32 in
       negb (negb (l1 =? l2) || (l1 <? 97) || (122 <? l1)))
    && match_ r1 r2
  | _, _ => true
  end.

(** [lookup(tab, val)]: index of the first name of [tab] that [val]
    starts with, and the rest of [val]. *)
Fixpoint lookup_from (i : Z) (tab : list string) (val : string)
  : result (Z * string) :=
  match tab with
  | [] => bad
  | v :: tab' =>
    if (len v <=? len val) && match_ (to (String.length v) val) v
    then Ok (i, from (String.length v) val)
    else lookup_from (i + 1) tab' val
  end.

Definition lookup (tab : list string) (val : string) : result (Z * string) :=
  lookup_from 0 tab val.

Definition shortDayNames : list string :=
  ["Sun"; "Mon"; "Tue"; "Wed"; "Thu"; "Fri"; "Sat"].

Definition shortMonthNames : list string :=
  ["Jan"; "Feb"; "Mar"; "Apr"; "May"; "Jun";
   "Jul"; "Aug"; "Sep"; "Oct"; "Nov"; "Dec"].

(** [leadingInt(s)]: the leading decimal digits of [s] as a number,
    and the rest.  Go reports overflow past 2^63; every use below
    either bounds the number of digits or rejects values above 23, so
    the unbounded [Z] gives the same outcomes. *)
Fixpoint leadingInt_loop (x : Z) (s : string) : Z * string :=
  match s with
  | String c s' =>
    if isDigitByte c then leadingInt_loop (x * 10 + (byte c - 48)) s'
    else (x, s)
  | EmptyString => (x, s)
  end.

Definition leadingInt (s : string) : Z * string := leadingInt_loop 0 s.

(** [atoi(s)]: optional sign, then digits up to the end of [s]. *)
Definition atoi (s : string) : result Z :=
  let '(neg, s1) :=
    match s with
    | String c r =>
      if Ascii.eqb c "-" || Ascii.eqb c "+" then (Ascii.eqb c "-", r)
      else (false, s)
    | EmptyString => (false, s)
    end in
  let '(q, rem) := leadingInt s1 in
  if 0 <? len rem then bad
  else Ok (if neg : bool then - q else q).

Definition commaOrPeriod (c : ascii) : bool :=
  Ascii.eqb c "." || Ascii.eqb c ",".

(** [value[a:b]] *)
Definition slice (a b : nat) (s : string) : string := to (b - a) (from a s).

(** [parseNanoseconds(value, nbytes)]: [value[0]] is the separator and
    [value[1:nbytes]] the digits of the fraction; digits past the
    ninth are dropped. *)
Definition parseNanoseconds (value : string) (nbytes : nat) : result Z :=
  match String.get 0 value with
  | Some c =>
    if negb (commaOrPeriod c) then bad
    else
      let '(value, nbytes) :=
        if (10 <? nbytes)%nat then (to 10 value, 10%nat) else (value, nbytes) in
      ns ← atoi (slice 1 nbytes value);
      if ns <? 0 then rangeErr "fractional second"
      else Ok (ns * 10 ^ (Z.of_nat (10 - nbytes)))
  | None => bad
  end.

(** Number of leading decimal digits of [s]. *)
Fixpoint digitRun (s : string) : nat :=
  match s with
  | String c s' => if isDigitByte c then S (digitRun s') else O
  | EmptyString => O
  end.

(** [parseSignedOffset(value)]: length of a sign followed by a number
    of at most 23, or 0. *)
Definition parseSignedOffset (value : string) : nat :=
  match value with
  | String sign value1 =>
    if negb (Ascii.eqb sign "-") && negb (Ascii.eqb sign "+") then O
    else
      let '(x, rem) := leadingInt value1 in
      if String.eqb value1 rem then O
      else if 23 <? x then O
      else (String.length value - String.length rem)%nat
  | EmptyString => O
  end.

(** [parseGMT(value)]: [value] starts with "GMT". *)
Definition parseGMT (value : string) : nat :=
  let value := from 3 value in
  if len value =? 0 then 3%nat
  else (3 + parseSignedOffset value)%nat.

(** Number of leading upper-case letters of [s], counted up to 6. *)
Fixpoint upperRun (fuel : nat) (s : string) : nat :=
  match fuel, s with
  | S fuel', String c s' => if isUpperByte c then S (upperRun fuel' s') else O
  | _, _ => O
  end.

(** [parseTimeZone(value)]: does [value] start with something shaped
    like a zone abbreviation, and how long is it. *)
Definition parseTimeZone (value : string) : nat * bool :=
  if len value <? 3 then (O, false)
  else if (4 <=? len value)
          && (String.eqb (to 4 value) "ChST" || String.eqb (to 4 value) "MeST")
  then (4%nat, true)
  else if String.eqb (to 3 value) "GMT" then (parseGMT value, true)
  else if byteIs value 0 "+" || byteIs value 0 "-" then
    let length := parseSignedOffset value in
    (length, (0 <? length)%nat)
  else
    match upperRun 6 value with
    | 5%nat =>
      if byteIs value 4 "T" then (5%nat, true) else (O, false)
    | 4%nat =>
      if byteIs value 3 "T" || String.eqb (to 4 value) "WITA"
      then (4%nat, true) else (O, false)
    | 3%nat => (3%nat, true)
    | _ => (O, false)
    end.

(** *** [Parse] at the layout ["Mon, 02 Jan 2006 15:04:05 MST"] *)

(** The layout elements [nextStdChunk] finds in that layout. *)
Inductive std : Type :=
| stdWeekDay        (* Mon *)
| stdZeroDay        (* 02 *)
| stdMonth          (* Jan *)
| stdLongYear       (* 2006 *)
| stdHour           (* 15 *)
| stdZeroMinute     (* 04 *)
| stdZeroSecond     (* 05 *)
| stdTZ.            (* MST *)

(** The layout that [getExpiration] passes. *)
Definition parseFormat : string := "Mon, 02 Jan 2006 15:04:05 MST".

(** [parseFormat] as the sequence of [(prefix, std)] pairs that
    successive calls of [nextStdChunk] return; the last call returns
    the empty prefix and no element. *)
Definition chunks : list (string * std) :=
  [ ("", stdWeekDay); (", ", stdZeroDay); (" ", stdMonth);
    (" ", stdLongYear); (" ", stdHour); (":", stdZeroMinute);
    (":", stdZeroSecond); (" ", stdTZ) ].

(** The local variables of [parse] that this layout can set. *)
Record vars : Type := mkVars {
  v_year : Z;
  v_month : Z;
  v_day : Z;
  v_hour : Z;
  v_min : Z;
  v_sec : Z;
  v_nsec : Z;
  v_z : option Location;
  v_zoneName : string
}.

Definition vars0 : vars := mkVars 0 (-1) (-1) 0 0 0 0 None "".

Definition set_year (x : Z) (p : vars) : vars :=
  mkVars x (v_month p) (v_day p) (v_hour p) (v_min p) (v_sec p) (v_nsec p) (v_z p) (v_zoneName p).
Definition set_month (x : Z) (p : vars) : vars :=
  mkVars (v_year p) x (v_day p) (v_hour p) (v_min p) (v_sec p) (v_nsec p) (v_z p) (v_zoneName p).
Definition set_day (x : Z) (p : vars) : vars :=
  mkVars (v_year p) (v_month p) x (v_hour p) (v_min p) (v_sec p) (v_nsec p) (v_z p) (v_zoneName p).
Definition set_hour (x : Z) (p : vars) : vars :=
  mkVars (v_year p) (v_month p) (v_day p) x (v_min p) (v_sec p) (v_nsec p) (v_z p) (v_zoneName p).
Definition set_min (x : Z) (p : vars) : vars :=
  mkVars (v_year p) (v_month p) (v_day p) (v_hour p) x (v_sec p) (v_nsec p) (v_z p) (v_zoneName p).
Definition set_sec (x : Z) (p : vars) : vars :=
  mkVars (v_year p) (v_month p) (v_day p) (v_hour p) (v_min p) x (v_nsec p) (v_z p) (v_zoneName p).
Definition set_nsec (x : Z) (p : vars) : vars :=
  mkVars (v_year p) (v_month p) (v_day p) (v_hour p) (v_min p) (v_sec p) x (v_z p) (v_zoneName p).
Definition set_z (x : Location) (p : vars) : vars :=
  mkVars (v_year p) (v_month p) (v_day p) (v_hour p) (v_min p) (v_sec p) (v_nsec p) (Some x) (v_zoneName p).
Definition set_zoneName (x : string) (p : vars) : vars :=
  mkVars (v_year p) (v_month p) (v_day p) (v_hour p) (v_min p) (v_sec p) (v_nsec p) (v_z p) x.

(** One arm of the [switch std & stdMask] of [parse], with the range
    and error checks that follow the switch. *)
Definition parseChunk (s : std) (p : vars) (value : string)
  : result (vars * string) :=
  match s with
  | stdWeekDay =>
    (* Ignore weekday except for error checking. *)
    '(_, value) ← lookup shortDayNames value;
    Ok (p, value)
  | stdZeroDay =>
    (* any two-digit day here; the date is validated after the loop *)
    '(d, value) ← getnum value true;
    Ok (set_day d p, value)
  | stdMonth =>
    '(m, value) ← lookup shortMonthNames value;
    Ok (set_month (m + 1) p, value)
  | stdLongYear =>
    if (len value <? 4) || negb (isDigit value 0) then bad
    else
      y ← atoi (to 4 value);
      Ok (set_year y p, from 4 value)
  | stdHour =>
    '(h, value) ← getnum value false;
    if (h <? 0) || (24 <=? h) then rangeErr "hour"
    else Ok (set_hour h p, value)
  | stdZeroMinute =>
    '(m, value) ← getnum value true;
    if (m <? 0) || (60 <=? m) then rangeErr "minute"
    else Ok (set_min m p, value)
  | stdZeroSecond =>
    '(s, value) ← getnum value true;
    if (s <? 0) || (60 <=? s) then rangeErr "second"
    else
      (* a fractional second in the input although the layout has none *)
      if (2 <=? len value)
         && match String.get 0 value with
            | Some c => commaOrPeriod c
            | None => false
            end
         && isDigit value 1
      then
        let n := (2 + digitRun (from 2 value))%nat in
        ns ← parseNanoseconds value n;
        Ok (set_nsec ns (set_sec s p), from n value)
      else Ok (set_sec s p, value)
  | stdTZ =>
    (* Does it look like a time zone? *)
    if (3 <=? len value) && String.eqb (to 3 value) "UTC"
    then Ok (set_z UTC p, from 3 value)
    else
      match parseTimeZone value with
      | (n, true) => Ok (set_zoneName (to n value) p, from n value)
      | (_, false) => bad
      end
  end.

(** The [for] loop of [parse] over the chunks of the layout. *)
Fixpoint parseChunks (l : list (string * std)) (p : vars) (value : string)
  : result vars :=
  match l with
  | [] =>
    value ← skip value "";
    if negb (len value =? 0) then Err (ParseError (extraText value))
    else Ok p
  | (prefix, s) :: l' =>
    value ← skip value prefix;
    '(p, value) ← parseChunk s p value;
    parseChunks l' p value
  end.

Section Zone.

(** [local.lookupName(name, unix)]: the offset in seconds east of
    UTC that the process's local time zone gives to the
    abbreviation [name], if it knows it. *)
Variable lookupName : string -> Z -> option Z.

(** What [parse] does after the loop: validate the day of the
    month, then fix the instant from the zone. *)
Definition finish (p : vars) : result Time :=
  if (v_day p <? 1) || (daysIn (v_month p) (v_year p) <? v_day p)
  then rangeErr "day"
  else
    let t := DateUTC (v_year p) (v_month p) (v_day p)
                     (v_hour p) (v_min p) (v_sec p) (v_nsec p) in
    match v_z p with
    | Some l => Ok (mkTime (unixSec t) (nsec t) l)
    | None =>
      if negb (String.eqb (v_zoneName p) "") then
        (* Look for local zone with the given offset. *)
        match lookupName (v_zoneName p) (unixSec t) with
        | Some offset => Ok (mkTime (unixSec t - offset) (nsec t) Local)
        | None =>
          (* Otherwise, create fake zone with unknown offset. *)
          let offset :=
            if (3 <? len (v_zoneName p))
               && String.eqb (to 3 (v_zoneName p)) "GMT"
            then
              match atoi (from 3 (v_zoneName p)) with
              | Ok o => o * 3600
              | Err _ => 0
              end
            else 0 in
          Ok (mkTime (unixSec t) (nsec t) (FixedZone (v_zoneName p) offset))
        end
      else Ok t
    end.

(** [time.Parse(parseFormat, value)] *)
Definition Parse (value : string) : result Time :=
  p ← parseChunks chunks vars0 value;
  finish p.

End Zone.

End time.

(** ** [net/http] data the package handles *)

Module http.

(** [http.Header]: header name to its values.  Every name the package
    uses is already in canonical MIME form, so the canonicalisation
    that [Get] and [Add] apply to the key is the identity on them. *)
Abbreviation Header := (gmap string (list string)).

(** [h.Get(key)]: the first value of [key], or the empty string. *)
Definition Header_Get (h : Header) (key : string) : string :=
  match h !! key with
  | Some (v :: _) => v
  | _ => ""
  end.

(** [h.Add(key, value)]: append [value] to the values of [key]. *)
Definition Header_Add (key value : string) (h : Header) : Header :=
  <[key := default [] (h !! key) ++ [value]]> h.

(** [*http.Request], as built by [http.NewRequest]. *)
Record Request : Type := mkRequest {
  Method : string;
  URL : string;
  ReqHeader : Header;
  ReqBody : option string
}.

(** [*http.Response]; [Body] is the type of the unread body stream. *)
Record Response (Body : Type) : Type := mkResponse {
  StatusCode : Z;
  RespHeader : Header;
  RespBody : Body
}.
Arguments mkResponse {Body} _ _ _.
Arguments StatusCode {Body} _.
Arguments RespHeader {Body} _.
Arguments RespBody {Body} _.

Definition StatusOK : Z := 200.

End http.
Import http.

(** ** External collaborators

    Everything the package calls but does not define: the local time
    zone database, [fmt.Sprintf], [net/http], [io/ioutil],
    [encoding/json], [encoding/base64], [net/url] and [gabs]. *)

(** [authenticateResponse] of [lib.go]. *)
Record authenticateResponse : Type := mkAuthenticateResponse {
  ar_AccessToken : string;
  ar_TokenType : string;
  ar_ExpiresIn : Z;
  ar_RefreshToken : string
}.

Class Collaborators : Type := {
  (** [gabs.Container]: a parsed JSON document *)
  Container : Type;
  (** [io.ReadCloser]: the body stream of a response *)
  Body : Type;
  (** the state of whatever answers the requests *)
  Server : Type;
  (** the values passed for [args ...interface{}] *)
  Operand : Type;
  (** [time.Local.lookupName] *)
  localLookupName : string -> Z -> option Z;
  (** [fmt.Sprintf] *)
  Sprintf : string -> list Operand -> string;
  (** the error, if any, with which [http.NewRequest] rejects a method
      and URL *)
  newRequestError : string -> string -> option error;
  (** [Do] of [http.Client]: one round trip *)
  roundTrip : Request -> Server -> result (Response Body) * Server;
  (** [ioutil.ReadAll] *)
  ReadAll : Body -> result string;
  (** [gabs.ParseJSONBuffer] *)
  ParseJSONBuffer : Body -> result Container;
  (** [json.Unmarshal] into an [authenticateResponse] *)
  Unmarshal : string -> result authenticateResponse;
  (** [url.Values.Encode] *)
  formEncode : list (string * list string) -> string;
  (** [base64.StdEncoding.EncodeToString] *)
  base64Encode : string -> string
}.

(** ** [cache.go] *)

Section Cache.

Context `{Collaborators}.

(** A CacheEntry is a single response from ESI. *)
Record CacheEntry : Type := mkCacheEntry {
  Data : option Container;
  Expires : time.Time
}.

(** A Cache is a map that stores GET responses from ESI. *)
Abbreviation Cache := (gmap string CacheEntry).

(** [getExpiration] parses the expiration time from the ESI response
    headers. *)
Definition getExpiration (s : string) : result time.Time :=
  match time.Parse localLookupName s with
  | Err err => Err err
  | Ok t => Ok t
  end.

(** [(c *Cache) get(u)], where [now] is what [time.Now().UTC()]
    returns: an entry from the map (if it exists and is not expired).
    If the entry is present but expired, it is removed from the map. *)
Definition get (c : Cache) (u : string) (now : time.Time)
  : option Container * Cache :=
  match c !! u with
  | None => (None, c)
  | Some entry =>
    (* check expiration *)
    if time.Before (Expires entry) now
    then (None, delete u c)
    else (Data entry, c)
  end.

(** [(c *Cache) set(u, d, h)] puts the url and its data into the
    cache. *)
Definition set (c : Cache) (u : string) (d : option Container) (h : Header)
  : result unit * Cache :=
  match getExpiration (Header_Get h "Expires") with
  | Err err => (Err err, c)
  | Ok expires =>
    let entry := mkCacheEntry d expires in
    (Ok tt, <[u := entry]> c)
  end.

(** A read as the specification words it: an entry is evicted when
    its expiration is at or before the current time, that is, unless
    the expiration is after it. *)
Definition get_evicting_at_or_before
    (c : Cache) (u : string) (now : time.Time) : Prop :=
  match c !! u with
  | None => get c u now = (None, c)
  | Some entry =>
    if time.After (Expires entry) now
    then get c u now = (Data entry, c)
    else get c u now = (None, delete u c)
  end.

End Cache.

Abbreviation Cache := (gmap string CacheEntry).

(** ** [fmt.Sprintf] on string operands

    [Sprintf] for a format whose verbs are [%s] or [%v] (and the escape
    [%%]) and operands that are all strings, with exactly one operand
    per verb: each verb is replaced by its operand, unchanged.  Formats
    and operand lists outside this fragment give [None]. *)
Fixpoint sprintfStrings (format : string) (a : list string) : option string :=
  match format with
  | EmptyString =>
    match a with
    | [] => Some EmptyString
    | _ :: _ => None
    end
  | String c format1 =>
    if Ascii.eqb c "%" then
      match format1 with
      | String verb format2 =>
        if Ascii.eqb verb "%" then
          String "%"%char <$> sprintfStrings format2 a
        else if Ascii.eqb verb "s" || Ascii.eqb verb "v" then
          match a with
          | arg :: a' => String.append arg <$> sprintfStrings format2 a'
          | [] => None
          end
        else None
      | EmptyString => None
      end
    else String c <$> sprintfStrings format1 a
  end.

(** ** [lib.go] *)

Section Lib.

Context `{Collaborators}.

(** ESI is the interface for interacting with the EVE Swagger
    Interface.  The [client] field is the transport, which is the
    [roundTrip] collaborator; the [cache] field owns the cache. *)
Record ESI : Type := mkESI {
  cache : Cache;
  Version : string;
  ClientID : string;
  ClientSecret : string;
  ClientCallbackURL : string;
  UserAgent : string;
  Scope : string;
  AccessToken : string;
  RefreshToken : string
}.

Definition BaseURL : string := "https://esi.tech.ccp.is/".
Definition OauthURL : string := "https://login.eveonline.com/oauth/".
Definition TokenURL : string := "https://login.eveonline.com/oauth/token".
Definition VerifyURL : string := "https://login.eveonline.com/oauth/verify".
Definition AuthorizeURL : string := "https://login.eveonline.com/oauth/authorize".

(** [New] creates a new instance of the ESI struct and returns it. *)
Definition New (clientID clientSecret clientCallbackURL : string) : ESI :=
  mkESI ∅ "latest" clientID clientSecret clientCallbackURL
        "github.com/Celeo/Goesi" "" "" "".

(** [GetAuthorizeURL] returns the URL that a user must visit in order
    to authenticate with the SSO. *)
Definition GetAuthorizeURL (e : ESI) : result string :=
  if String.eqb (ClientID e) "" || String.eqb (ClientSecret e) ""
     || String.eqb (ClientCallbackURL e) ""
  then
    let es := "Missing client data - cannot generate callback URL" in
    Err (Errorf es)
  else
    Ok (default ""
          (sprintfStrings
             "%s?response_type=code&redirect_uri=%s&client_id=%s&scope=%s"
             [AuthorizeURL; ClientCallbackURL e; ClientID e; Scope e])).

(** [createAuthorizationHeader] returns the header string required for
    getting an access token from SSO. *)
Definition createAuthorizationHeader (e : ESI) : string :=
  "Basic " +:+ base64Encode
    (default "" (sprintfStrings "%s:%s" [ClientID e; ClientSecret e])).

(** *** The machine the methods run on

    The receiver, the state of the remote side, and the list of the
    requests handed to the transport so far. *)
Record Machine : Type := mkMachine {
  esi : ESI;
  server : Server;
  calls : list Request
}.

Definition M (A : Type) : Type := Machine -> result A * Machine.

Global Instance M_ret : MRet M := fun A v m => (Ok v, m).
Global Instance M_bind : MBind M := fun A B k c m =>
  match c m with
  | (Ok v, m') => k v m'
  | (Err err, m') => (Err err, m')
  end.

(** the receiver [*e] *)
Definition self : M ESI := fun m => (Ok (esi m), m).

(** a call that touches neither the receiver nor the network *)
Definition liftR {A} (r : result A) : M A := fun m => (r, m).

(** a call whose error result is dropped *)
Definition discard {A} (c : M A) : M unit := fun m => (Ok tt, snd (c m)).

Definition set_cache (c : Cache) (e : ESI) : ESI :=
  mkESI c (Version e) (ClientID e) (ClientSecret e) (ClientCallbackURL e)
        (UserAgent e) (Scope e) (AccessToken e) (RefreshToken e).

Definition set_tokens (access refresh : string) (e : ESI) : ESI :=
  mkESI (cache e) (Version e) (ClientID e) (ClientSecret e)
        (ClientCallbackURL e) (UserAgent e) (Scope e) access refresh.

(** [e.cache.get(url)] *)
Definition cacheGet (u : string) (now : time.Time) : M (option Container) :=
  fun m =>
    let '(d, c) := get (cache (esi m)) u now in
    (Ok d, mkMachine (set_cache c (esi m)) (server m) (calls m)).

(** [e.cache.set(url, d, h)] *)
Definition cacheSet (u : string) (d : option Container) (h : Header) : M unit :=
  fun m =>
    let '(r, c) := set (cache (esi m)) u d h in
    (r, mkMachine (set_cache c (esi m)) (server m) (calls m)).

(** [e.AccessToken = a; e.RefreshToken = r] *)
Definition storeTokens (access refresh : string) : M unit :=
  fun m => (Ok tt, mkMachine (set_tokens access refresh (esi m)) (server m) (calls m)).

(** [http.NewRequest(method, url, body)] *)
Definition NewRequest (method url : string) (body : option string)
  : result Request :=
  match newRequestError method url with
  | Some err => Err err
  | None => Ok (mkRequest method url ∅ body)
  end.

(** [e.client.Do(req)] *)
Definition Do (req : Request) : M (Response Body) :=
  fun m =>
    let '(r, s) := roundTrip req (server m) in
    (r, mkMachine (esi m) s (calls m ++ [req])).

(** [req.Header.Add(key, value)] *)
Definition addHeader (key value : string) (req : Request) : Request :=
  mkRequest (Method req) (URL req) (Header_Add key value (ReqHeader req))
            (ReqBody req).

(** [Authenticate] takes a code from the SSO and fetches the access
    token. *)
Definition Authenticate (code : string) : M unit :=
  e ← self;
  let form := [("grant_type", ["authorization_code"]); ("code", [code])] in
  req ← liftR (NewRequest "POST" TokenURL (Some (formEncode form)));
  let req := addHeader "Authorization" (createAuthorizationHeader e) req in
  let req := addHeader "User-Agent" (UserAgent e) req in
  let req := addHeader "Accept" "application/json" req in
  let req := addHeader "Content-Type" "application/x-www-form-urlencoded" req in
  resp ← Do req;
  body ← liftR (ReadAll (RespBody resp));
  if String.eqb body "" || negb (StatusCode resp =? StatusOK) then
    liftR (Err (Errorf "Response body is empty"))
  else
    respData ← liftR (Unmarshal body);
    storeTokens (ar_AccessToken respData) (ar_RefreshToken respData).

(** [setupHeaders] adds the standard headers to the request. *)
Definition setupHeaders (e : ESI) (req : Request) : Request :=
  let req := addHeader "User-Agent" (UserAgent e) req in
  let req := addHeader "Accept" "application/json" req in
  if negb (String.eqb (AccessToken e) "") then
    addHeader "Authorization" ("Bearer " +:+ AccessToken e) req
  else req.

(** [WhoAmI] returns basic information about the access token's
    character. *)
Definition WhoAmI : M Container :=
  e ← self;
  req ← liftR (NewRequest "GET" VerifyURL None);
  let req := setupHeaders e req in
  resp ← Do req;
  json ← liftR (ParseJSONBuffer (RespBody resp));
  mret json.

(** [Get] fetches data from ESI (or returns cached data); [now] is
    the reading of the clock that [e.cache.get] takes. *)
Definition Get (now : time.Time) (path : string) (args : list Operand)
  : M Container :=
  e ← self;
  let url := BaseURL +:+ Version e +:+ "/" +:+ Sprintf path args +:+ "/" in
  cached ← cacheGet url now;
  match cached with
  | Some doc => mret doc
  | None =>
    req ← liftR (NewRequest "GET" url None);
    let req := setupHeaders e req in
    resp ← Do req;
    json ← liftR (ParseJSONBuffer (RespBody resp));
    _ ← discard (cacheSet url (Some json) (RespHeader resp));
    mret json
  end.

(** [Post] sends data to ESI and returns the response. *)
Definition Post (path data : string) : M Container :=
  e ← self;
  let url := BaseURL +:+ Version e +:+ "/" +:+ path +:+ "/" in
  req ← liftR (NewRequest "POST" url (Some data));
  let req := setupHeaders e req in
  resp ← Do req;
  json ← liftR (ParseJSONBuffer (RespBody resp));
  mret json.

(** [ClearCache] creates a new cache, overriding the previous. *)
Definition ClearCache : M unit :=
  fun m => (Ok tt, mkMachine (set_cache ∅ (esi m)) (server m) (calls m)).

(** *** Names for what the methods build

    The canonical URL of a formatted path, as the specification
    writes it: base URL, API version, "/", the path, "/". *)
Definition canonicalURL (e : ESI) (formattedPath : string) : string :=
  BaseURL +:+ Version e +:+ "/" +:+ formattedPath +:+ "/".

(** The request [Get] and [WhoAmI] hand to the transport. *)
Definition getRequest (e : ESI) (url : string) : Request :=
  setupHeaders e (mkRequest "GET" url ∅ None).

(** The request [Post] hands to the transport. *)
Definition postRequest (e : ESI) (url data : string) : Request :=
  setupHeaders e (mkRequest "POST" url ∅ (Some data)).

(** The machine [m] with [c] as its cache. *)
Definition with_cache (c : Cache) (m : Machine) : Machine :=
  mkMachine (set_cache c (esi m)) (server m) (calls m).

(** A miss of [Get], as the specification words it: it performs
    exactly one transport GET. *)
Definition Get_miss_makes_one_request
    (m : Machine) (now : time.Time) (path : string) (args : list Operand)
  : Prop :=
  let url := canonicalURL (esi m) (Sprintf path args) in
  fst (get (cache (esi m)) url now) = None ->
  exists req, Method req = "GET" /\ URL req = url
              /\ calls (snd (Get now path args m)) = calls m ++ [req].

(** [Post], as the specification words it: for every path and body it
    issues an HTTP POST with the given raw body. *)
Definition Post_makes_a_request (m : Machine) (path data : string) : Prop :=
  exists req, Method req = "POST" /\ ReqBody req = Some data
              /\ calls (snd (Post path data m)) = calls m ++ [req].

(** Every entry of the cache holds a document (no nil pointer). *)
Definition docsPresent (c : Cache) : Prop :=
  forall u entry, c !! u = Some entry -> Data entry <> None.

(** The code exchange fails, in the specification's words: the
    transport errors (the round trip fails, or the body cannot be
    read from it), the response body is empty, the HTTP status is not
    200, or the body cannot be parsed into the token shape. *)
Definition transportErrors (r : result (Response Body)) : Prop :=
  match r with
  | Err _ => True
  | Ok resp => exists err, ReadAll (RespBody resp) = Err err
  end.

Definition bodyIs (r : result (Response Body)) (P : string -> Prop) : Prop :=
  match r with
  | Err _ => False
  | Ok resp => exists body, ReadAll (RespBody resp) = Ok body /\ P body
  end.

Definition statusIsNot200 (r : result (Response Body)) : Prop :=
  match r with
  | Err _ => False
  | Ok resp => StatusCode resp <> 200
  end.

Definition exchangeFails (r : result (Response Body)) : Prop :=
  transportErrors r
  \/ bodyIs r (fun body => body = "")
  \/ statusIsNot200 r
  \/ bodyIs r (fun body => exists err, Unmarshal body = Err err).

(** The request [Authenticate] hands to the transport. *)
Definition tokenRequest (e : ESI) (code : string) : Request :=
  addHeader "Content-Type" "application/x-www-form-urlencoded"
    (addHeader "Accept" "application/json"
       (addHeader "User-Agent" (UserAgent e)
          (addHeader "Authorization" (createAuthorizationHeader e)
             (mkRequest "POST" TokenURL ∅
                (Some (formEncode [("grant_type", ["authorization_code"]);
                                   ("code", [code])])))))).

(** The failing paths of [Authenticate], in the order of the code. *)
Inductive failingPath (m : Machine) (code : string) : Prop :=
| requestConstructionError (err : error) :
    newRequestError "POST" TokenURL = Some err ->
    failingPath m code
| transportError (err : error) :
    newRequestError "POST" TokenURL = None ->
    fst (roundTrip (tokenRequest (esi m) code) (server m)) = Err err ->
    failingPath m code
| bodyReadError (resp : Response Body) (err : error) :
    newRequestError "POST" TokenURL = None ->
    fst (roundTrip (tokenRequest (esi m) code) (server m)) = Ok resp ->
    ReadAll (RespBody resp) = Err err ->
    failingPath m code
| emptyBody (resp : Response Body) :
    newRequestError "POST" TokenURL = None ->
    fst (roundTrip (tokenRequest (esi m) code) (server m)) = Ok resp ->
    ReadAll (RespBody resp) = Ok "" ->
    failingPath m code
| statusNot200 (resp : Response Body) (body : string) :
    newRequestError "POST" TokenURL = None ->
    fst (roundTrip (tokenRequest (esi m) code) (server m)) = Ok resp ->
    ReadAll (RespBody resp) = Ok body ->
    StatusCode resp <> StatusOK ->
    failingPath m code
| unmarshalFailure (resp : Response Body) (body : string) (err : error) :
    newRequestError "POST" TokenURL = None ->
    fst (roundTrip (tokenRequest (esi m) code) (server m)) = Ok resp ->
    ReadAll (RespBody resp) = Ok body ->
    body <> "" -> StatusCode resp = StatusOK ->
    Unmarshal body = Err err ->
    failingPath m code.

End Lib.

(** ** The layout, as the specification reads it

    "Mon, 02 Jan 2006 15:04:05 MST": day-of-week, day, month, year,
    time, timezone name, by the shape of each field. *)

Module layout.

(** a non-empty run of spaces *)
Definition spaces (s : string) : Prop :=
  s <> "" /\ allb isSpace s = true.

(** exactly [n] decimal digits *)
Definition digits (n : nat) (s : string) : Prop :=
  String.length s = n /\ allb isDigitByte s = true.

(** one of the names of [tab], in any letter case *)
Definition nameOf (tab : list string) (w : string) : Prop :=
  exists v, In v tab /\ String.length w = String.length v
            /\ time.match_ w v = true.

(** nothing, or a period or comma followed by digits *)
Definition fraction (f : string) : Prop :=
  f = "" \/ exists c ds, f = String c ds /\ time.commaOrPeriod c = true
                         /\ ds <> "" /\ allb isDigitByte ds = true.

(** a sign followed by digits that read as a number of at most 23 *)
Definition signedHours (o : string) : Prop :=
  exists sign ds,
    o = String sign ds /\ (sign = "+"%char \/ sign = "-"%char)
    /\ ds <> "" /\ allb isDigitByte ds = true
    /\ fst (time.leadingInt ds) <= 23.

(** three upper-case letters, or four or five ending in T, or WITA *)
Definition upperName (z : string) : Prop :=
  allb isUpperByte z = true
  /\ (String.length z = 3%nat
      \/ (String.length z = 4%nat /\ (time.byteIs z 3 "T" = true \/ z = "WITA"))
      \/ (String.length z = 5%nat /\ time.byteIs z 4 "T" = true)).

(** what passes for a zone: no list of known zones is consulted *)
Definition zoneToken (z : string) : Prop :=
  z = "UTC" \/ z = "ChST" \/ z = "MeST" \/ z = "GMT"
  \/ (exists o, z = "GMT" +:+ o /\ signedHours o)
  \/ signedHours z
  \/ upperName z.

Definition matches (s : string) : Prop :=
  exists wd sp1 dd sp2 mon sp3 yyyy sp4 hh mm ss frac sp5 zone,
    s = wd +:+ "," +:+ sp1 +:+ dd +:+ sp2 +:+ mon +:+ sp3 +:+ yyyy +:+ sp4
           +:+ hh +:+ ":" +:+ mm +:+ ":" +:+ ss +:+ frac +:+ sp5 +:+ zone
    /\ nameOf time.shortDayNames wd
    /\ spaces sp1 /\ digits 2 dd
    /\ spaces sp2 /\ nameOf time.shortMonthNames mon
    /\ spaces sp3 /\ digits 4 yyyy
    /\ spaces sp4 /\ (digits 1 hh \/ digits 2 hh)
    /\ digits 2 mm /\ digits 2 ss /\ fraction frac
    /\ spaces sp5 /\ zoneToken zone.

(** the number that two, or four, decimal digits write *)
Definition num2 (a b : ascii) : Z := (byte a - 48) * 10 + (byte b - 48).
Definition num4 (a b c d : ascii) : Z := num2 a b * 100 + num2 c d.

(** An HTTP date in its fixed-length form (the IMF-fixdate of RFC
    7231), which is what a server sends in an Expires header: weekday
    name, day, month name, year, time, "GMT", single spaces between. *)
Definition httpDate (wd : string) (d1 d2 : ascii) (mon : string)
           (y1 y2 y3 y4 h1 h2 m1 m2 s1 s2 : ascii) : string :=
  wd +:+ String "," (String " " (String d1 (String d2 (String " "
    (mon +:+ String " " (String y1 (String y2 (String y3 (String y4 (String " "
      (String h1 (String h2 (String ":" (String m1 (String m2 (String ":"
        (String s1 (String s2 " GMT")))))))))))))))))).

(** a result that, when it is an error, is a parse error *)
Definition parseErrorOnly {A} (r : result A) : Prop :=
  match r with
  | Ok _ => True
  | Err (ParseError _) => True
  | Err _ => False
  end.

End layout.

(** ** Test doubles

    A scripted transport and trivial codecs, used to run the methods on
    concrete inputs. *)

Module Double.

(** The remote side is a script: the results of the round trips to
    come, in order.  [http.NewRequest] rejects a URL with a malformed
    percent escape, written "%!" here. *)
Definition scripted : Collaborators := {|
  Container := string;
  Body := string;
  Server := list (result (Response string));
  Operand := string;
  localLookupName := fun _ _ => None;
  Sprintf := fun format a => default format (sprintfStrings format a);
  newRequestError := fun _ url =>
    match String.index 0 "%!" url with
    | Some _ => Some (LibError "invalid URL escape")
    | None => None
    end;
  roundTrip := fun _ script =>
    match script with
    | r :: script' => (r, script')
    | [] => (Err (LibError "connection refused"), [])
    end;
  ReadAll := fun b =>
    if String.eqb b "<reset>" then Err (LibError "connection reset by peer")
    else Ok b;
  ParseJSONBuffer := fun b =>
    if String.prefix "{" b then Ok b
    else Err (LibError "invalid character");
  Unmarshal := fun b =>
    if String.prefix "{" b
    then Ok (mkAuthenticateResponse "access-1" "Bearer" 1200 "refresh-1")
    else Err (LibError "invalid character");
  formEncode := fun form =>
    String.concat "&"
      (map (fun kv => fst kv +:+ "=" +:+ String.concat "," (snd kv)) form);
  base64Encode := fun x => x
|}.

Definition t_expiry : time.Time := time.mkTime 1510248434 0 time.UTC.
Definition t_earlier : time.Time := time.mkTime 1510248000 0 time.UTC.
Definition t_later : time.Time := time.mkTime 1510249000 0 time.UTC.

Definition expiresHeader (v : string) : Header := {[ "Expires" := [v] ]}.

Definition goodExpires : string := "Thu, 09 Nov 2017 17:27:14 GMT".

(** What the layout makes of [goodExpires]: 17:27:14 on 9 November 2017,
    in the zone the abbreviation names. *)
Definition parsedGoodExpires : time.Time :=
  time.mkTime 1510248434 0 (time.FixedZone "GMT" 0).

Definition session : ESI (H := scripted) :=
  New (H := scripted) "id" "secret" "https://app.example/callback".

Definition entry (d : option string) (t : time.Time)
  : CacheEntry (H := scripted) :=
  @mkCacheEntry scripted d t.

Definition warsCache : Cache := {[ "wars" := entry (Some "{}") t_expiry ]}.

Definition reply (status : Z) (expires body : string)
  : result (Response string) :=
  Ok (mkResponse status (expiresHeader expires) body).

Definition warsURL : string := "https://esi.tech.ccp.is/latest/wars/10000/".

(** A session with an empty cache, facing the given script. *)
Definition facing (script : list (result (Response string)))
  : Machine (H := scripted) :=
  @mkMachine scripted session script [].

(** A session that holds a document for [warsURL] expiring at
    [t_expiry] and tokens from an earlier exchange, facing the given
    script. *)
Definition warm (script : list (result (Response string)))
  : Machine (H := scripted) :=
  @mkMachine scripted
    (set_tokens "access-0" "refresh-0"
       (set_cache {[ warsURL := entry (Some "{}") t_expiry ]} session))
    script [].

End Double.

(** * Properties *)

(** ** Strings *)

Section StringFacts.

Lemma append_nil (b : string) : "" +:+ b = b.
Proof. reflexivity. Qed.

Lemma append_cons (c : ascii) (a b : string) :
  String c a +:+ b = String c (a +:+ b).
Proof. reflexivity. Qed.

Lemma append_empty_r (s : string) : s +:+ "" = s.
Proof.
  induction s as [| c s IH]; [reflexivity |].
  rewrite append_cons, IH. reflexivity.
Qed.

Lemma append_assoc (a b c : string) : (a +:+ b) +:+ c = a +:+ b +:+ c.
Proof.
  induction a as [| x a IH]; [reflexivity |].
  rewrite !append_cons, IH. reflexivity.
Qed.

Lemma to_from (n : nat) (s : string) : to n s +:+ from n s = s.
Proof.
  revert s. induction n as [| n IH]; intros [| c s]; simpl;
    try reflexivity.
  rewrite append_cons, IH. reflexivity.
Qed.

Lemma length_append (a b : string) :
  String.length (a +:+ b) = (String.length a + String.length b)%nat.
Proof.
  induction a as [| x a IH]; [reflexivity |].
  rewrite append_cons. simpl. rewrite IH. reflexivity.
Qed.

Lemma length_to (n : nat) (s : string) :
  (n <= String.length s)%nat -> String.length (to n s) = n.
Proof.
  revert s. induction n as [| n IH]; intros [| c s]; simpl; intros Hn;
    try reflexivity; try lia.
  rewrite IH by lia. reflexivity.
Qed.

End StringFacts.

(** ** Instants *)

Section TimeFacts.

Import time.

Lemma Before_irrefl (t : Time) : Before t t = false.
Proof.
  unfold Before. rewrite !Z.ltb_irrefl, Z.eqb_refl. reflexivity.
Qed.

Lemma After_Before (t u : Time) : After t u = Before u t.
Proof.
  unfold After, Before. rewrite (Z.eqb_sym (unixSec t)). reflexivity.
Qed.

Lemma After_not_Before (t u : Time) : After t u = true -> Before t u = false.
Proof.
  unfold After, Before. intros Ha.
  apply orb_true_iff in Ha. apply orb_false_iff.
  destruct Ha as [Ha | Ha].
  - apply Z.ltb_lt in Ha. split; [apply Z.ltb_ge; lia |].
    apply andb_false_iff. left. apply Z.eqb_neq. lia.
  - apply andb_true_iff in Ha. destruct Ha as [He Hn].
    apply Z.eqb_eq in He. apply Z.ltb_lt in Hn.
    split; [apply Z.ltb_ge; lia |].
    apply andb_false_iff. right. apply Z.ltb_ge. lia.
Qed.

Lemma Equal_not_Before (t u : Time) : Equal t u = true -> Before t u = false.
Proof.
  unfold Equal, Before. intros He.
  apply andb_true_iff in He. destruct He as [Hs Hn].
  apply Z.eqb_eq in Hs. apply Z.eqb_eq in Hn.
  rewrite Hs, Hn, !Z.ltb_irrefl, Z.eqb_refl. reflexivity.
Qed.

(** Of two instants, one is before the other, or after it, or they
    are the same instant. *)
Lemma instant_trichotomy (t u : Time) :
  Before t u = true \/ Equal t u = true \/ After t u = true.
Proof.
  unfold Before, Equal, After.
  destruct (Z.ltb_spec (unixSec t) (unixSec u)); [left; reflexivity |].
  destruct (Z.ltb_spec (unixSec u) (unixSec t)).
  { right. right. reflexivity. }
  assert (Hs : unixSec t = unixSec u) by lia.
  rewrite Hs, Z.eqb_refl. simpl.
  destruct (Z.ltb_spec (nsec t) (nsec u)); [left; reflexivity |].
  destruct (Z.ltb_spec (nsec u) (nsec t)); [right; right; reflexivity |].
  right. left. apply Z.eqb_eq. lia.
Qed.

End TimeFacts.

(** ** Parsing the expiry: the scanners *)

Section ScanFacts.

Import time.

Lemma bind_Ok_inv {A B} (r : result A) (k : A -> result B) (y : B) :
  (r ≫= k) = Ok y -> exists x, r = Ok x /\ k x = Ok y.
Proof.
  destruct r as [x | err]; [| discriminate].
  intros Hk. exists x. split; [reflexivity | exact Hk].
Qed.

Lemma len_0 (s : string) : (len s =? 0) = true -> s = "".
Proof.
  unfold len. destruct s; [reflexivity |]. simpl String.length.
  intros Hl. apply Z.eqb_eq in Hl. lia.
Qed.

Lemma digit_not_sign (c : ascii) :
  isDigitByte c = true -> Ascii.eqb c "-" || Ascii.eqb c "+" = false.
Proof.
  intros Hd.
  destruct (Ascii.eqb_spec c "-") as [-> | _]; [discriminate Hd |].
  destruct (Ascii.eqb_spec c "+") as [-> | _]; [discriminate Hd |].
  reflexivity.
Qed.

(** *** [getnum] *)

Lemma getnum_fixed (v : string) (n : Z) (r : string) :
  getnum v true = Ok (n, r) ->
  exists c0 c1,
    v = String c0 (String c1 r)
    /\ isDigitByte c0 = true /\ isDigitByte c1 = true
    /\ n = (byte c0 - 48) * 10 + (byte c1 - 48).
Proof.
  unfold getnum, isDigit, digitAt, bad.
  destruct v as [| c0 [| c1 v']]; simpl String.get; cbn [negb].
  - discriminate.
  - destruct (isDigitByte c0); discriminate.
  - destruct (isDigitByte c0) eqn:H0; cbn [negb]; [| discriminate].
    destruct (isDigitByte c1) eqn:H1; cbn [negb]; [| discriminate].
    intros [= <- <-]. exists c0, c1. auto.
Qed.

Lemma getnum_free (v : string) (n : Z) (r : string) :
  getnum v false = Ok (n, r) ->
  (exists c0, v = String c0 r /\ isDigitByte c0 = true /\ n = byte c0 - 48)
  \/ (exists c0 c1,
        v = String c0 (String c1 r)
        /\ isDigitByte c0 = true /\ isDigitByte c1 = true
        /\ n = (byte c0 - 48) * 10 + (byte c1 - 48)).
Proof.
  unfold getnum, isDigit, digitAt, bad.
  destruct v as [| c0 [| c1 v']]; simpl String.get; cbn [negb].
  - discriminate.
  - destruct (isDigitByte c0) eqn:H0; cbn [negb]; [| discriminate].
    intros [= <- <-]. left. exists c0. auto.
  - destruct (isDigitByte c0) eqn:H0; cbn [negb]; [| discriminate].
    destruct (isDigitByte c1) eqn:H1; cbn [negb].
    + intros [= <- <-]. right. exists c0, c1. auto.
    + intros [= <- <-]. left. exists c0. auto.
Qed.

(** *** [cutspace] and [skip] *)

Lemma cutspace_split (v : string) :
  exists sp, v = sp +:+ cutspace v /\ allb isSpace sp = true.
Proof.
  induction v as [| c v IH]; [exists ""; split; reflexivity |].
  simpl cutspace. destruct (isSpace c) eqn:Hc.
  - destruct IH as (sp & Hv & Hsp). exists (String c sp).
    rewrite append_cons, <- Hv. split; [reflexivity |].
    unfold allb in *. simpl. rewrite Hc, Hsp. reflexivity.
  - exists "". split; reflexivity.
Qed.

Lemma skip_nothing (v : string) : skip v "" = Ok v.
Proof. reflexivity. Qed.

Lemma skip_space (v r : string) :
  skip v " " = Ok r ->
  exists sp, v = sp +:+ r /\ allb isSpace sp = true /\ (r <> "" -> sp <> "").
Proof.
  unfold skip. simpl String.length. cbn [skip_loop].
  change (isSpace " ") with true. cbv iota.
  change (cutspace " ") with "". cbn [skip_loop].
  destruct v as [| x v'].
  - intros [= <-]. exists "". repeat split. intros Hr. contradiction.
  - destruct (isSpace x) eqn:Hx; cbn [negb]; [| discriminate].
    intros [= <-]. simpl cutspace. rewrite Hx.
    destruct (cutspace_split v') as (sp & Hv & Hsp).
    exists (String x sp). rewrite append_cons, <- Hv.
    split; [reflexivity |]. split; [| discriminate].
    unfold allb in *. simpl. rewrite Hx, Hsp. reflexivity.
Qed.

Lemma skip_comma_space (v r : string) :
  skip v ", " = Ok r ->
  exists sp, v = "," +:+ sp +:+ r /\ allb isSpace sp = true
             /\ (r <> "" -> sp <> "").
Proof.
  unfold skip. simpl String.length. cbn [skip_loop].
  change (isSpace ",") with false. cbv iota.
  destruct v as [| c v']; [discriminate |].
  destruct (Ascii.eqb_spec c ",") as [-> | _]; [| discriminate].
  intros Hs. apply (skip_space v' r) in Hs.
  destruct Hs as (sp & -> & Hsp & Hne). exists sp. auto.
Qed.

Lemma skip_colon (v r : string) : skip v ":" = Ok r -> v = ":" +:+ r.
Proof.
  unfold skip. simpl String.length. cbn [skip_loop].
  change (isSpace ":") with false. cbv iota.
  destruct v as [| c v']; [discriminate |].
  destruct (Ascii.eqb_spec c ":") as [-> | _]; [| discriminate].
  intros [= <-]. reflexivity.
Qed.

(** The fuel of [skip] is never what stops it. *)
Lemma skip_loop_fuel (n : nat) (value prefix : string) :
  (String.length prefix <= n)%nat ->
  skip_loop n value prefix = skip value prefix.
Proof.
  unfold skip.
  remember (String.length prefix) as k eqn:Hk.
  revert n value prefix Hk.
  induction k as [k IH] using lt_wf_ind.
  intros n value prefix Hk Hn.
  destruct prefix as [| p prefix'].
  { destruct n, k; reflexivity. }
  simpl in Hk. destruct k as [| k']; [discriminate |].
  destruct n as [| n']; [lia |].
  cbn [skip_loop].
  assert (Hcut : forall s, (String.length (cutspace s) <= String.length s)%nat).
  { induction s as [| c s IHs]; simpl; [lia |].
    destruct (isSpace c); simpl; lia. }
  assert (Hgo : forall v q, (String.length q <= k')%nat ->
                            skip_loop n' v q = skip_loop k' v q).
  { intros v q Hq.
    rewrite (IH (String.length q) ltac:(lia) n' v q eq_refl ltac:(lia)).
    rewrite (IH (String.length q) ltac:(lia) k' v q eq_refl ltac:(lia)).
    reflexivity. }
  destruct (isSpace p) eqn:Hp.
  - simpl cutspace. rewrite Hp.
    assert (Hq : (String.length (cutspace prefix') <= k')%nat).
    { specialize (Hcut prefix'). lia. }
    destruct value as [| v value']; [apply Hgo, Hq |].
    destruct (negb (isSpace v)); [reflexivity | apply Hgo, Hq].
  - destruct value as [| v value']; [reflexivity |].
    destruct (Ascii.eqb v p); [| reflexivity].
    apply Hgo. lia.
Qed.

(** *** Prefixes and suffixes *)

Lemma to_append_length (a b : string) : to (String.length a) (a +:+ b) = a.
Proof.
  induction a as [| c a IH]; [destruct b; reflexivity |].
  rewrite append_cons. simpl. rewrite IH. reflexivity.
Qed.

Lemma to_add (n k : nat) (s : string) :
  (n <= String.length s)%nat ->
  to (n + k) s = to n s +:+ to k (from n s).
Proof.
  revert s. induction n as [| n IH]; intros s Hn; [reflexivity |].
  destruct s as [| c s]; [simpl in Hn; lia |].
  simpl in Hn. simpl. rewrite append_cons, IH by lia. reflexivity.
Qed.

Lemma get_to (i n : nat) (s : string) :
  (i < n)%nat -> String.get i (to n s) = String.get i s.
Proof.
  revert n s. induction i as [| i IH]; intros [| n] [| c s] Hi;
    try lia; try reflexivity.
  simpl. apply IH. lia.
Qed.

Lemma len_ge (n : nat) (s : string) :
  (len s <? Z.of_nat n) = false -> (n <= String.length s)%nat.
Proof. unfold len. intros Hl. apply Z.ltb_ge in Hl. lia. Qed.

Lemma len_le (n : nat) (s : string) :
  (Z.of_nat n <=? len s) = true -> (n <= String.length s)%nat.
Proof. unfold len. intros Hl. apply Z.leb_le in Hl. lia. Qed.

(** *** [lookup] *)

Lemma lookup_from_name (tab : list string) (i j : Z) (v r : string) :
  lookup_from i tab v = Ok (j, r) ->
  exists w, v = w +:+ r /\ layout.nameOf tab w.
Proof.
  revert i. induction tab as [| name tab IH]; intros i; [discriminate |].
  cbn [lookup_from].
  destruct ((len name <=? len v) && match_ (to (String.length name) v) name)
    eqn:Hhit.
  - intros [= <- <-].
    apply andb_true_iff in Hhit. destruct Hhit as [Hlen Hm].
    apply (len_le (String.length name)) in Hlen.
    exists (to (String.length name) v).
    split; [symmetry; apply to_from |].
    exists name. split; [left; reflexivity |].
    split; [apply length_to, Hlen | exact Hm].
  - intros Hrest. destruct (IH _ Hrest) as (w & Hv & name' & Hin & Hl & Hm).
    exists w. split; [exact Hv |].
    exists name'. split; [right; exact Hin | auto].
Qed.

(** *** [leadingInt] and [atoi] *)

Lemma leadingInt_loop_split (s : string) (x : Z) :
  exists ds,
    s = ds +:+ snd (leadingInt_loop x s)
    /\ allb isDigitByte ds = true
    /\ fst (leadingInt_loop x ds) = fst (leadingInt_loop x s).
Proof.
  revert x. induction s as [| c s IH]; intros x.
  - exists "". repeat split.
  - cbn [leadingInt_loop]. destruct (isDigitByte c) eqn:Hc.
    + destruct (IH (x * 10 + (byte c - 48))) as (ds & Hs & Hd & Hv).
      exists (String c ds). rewrite append_cons, <- Hs.
      split; [reflexivity |]. split.
      * unfold allb in *. simpl. rewrite Hc, Hd. reflexivity.
      * cbn [leadingInt_loop]. rewrite Hc. exact Hv.
    + exists "". repeat split.
Qed.

Lemma atoi_digits (s : string) (c : ascii) (s' : string) (y : Z) :
  s = String c s' -> isDigitByte c = true ->
  atoi s = Ok y -> allb isDigitByte s = true.
Proof.
  intros -> Hc. unfold atoi. rewrite (digit_not_sign c Hc).
  unfold leadingInt.
  destruct (leadingInt_loop_split (String c s') 0) as (ds & Hs & Hd & _).
  destruct (leadingInt_loop 0 (String c s')) as [q rem]. cbn [snd] in Hs.
  destruct rem as [| r0 rem'].
  - rewrite append_empty_r in Hs. rewrite Hs. intros _. exact Hd.
  - unfold len. simpl String.length.
    destruct (Z.ltb_spec 0 (Z.of_nat (S (String.length rem')))); [| lia].
    discriminate.
Qed.

(** *** The chunks of the layout, one by one *)

Lemma chunk_weekday (p p' : vars) (v r : string) :
  parseChunk stdWeekDay p v = Ok (p', r) ->
  p' = p /\ exists w, v = w +:+ r /\ layout.nameOf shortDayNames w.
Proof.
  cbn [parseChunk]. intros Hk.
  apply bind_Ok_inv in Hk. destruct Hk as ([i v1] & Hl & [= <- <-]).
  split; [reflexivity |]. exact (lookup_from_name _ _ _ _ _ Hl).
Qed.

Lemma chunk_day (p p' : vars) (v r : string) :
  parseChunk stdZeroDay p v = Ok (p', r) ->
  exists d dd, p' = set_day d p /\ v = dd +:+ r /\ layout.digits 2 dd.
Proof.
  cbn [parseChunk]. intros Hk.
  apply bind_Ok_inv in Hk. destruct Hk as ([d v1] & Hn & [= <- <-]).
  apply getnum_fixed in Hn. destruct Hn as (c0 & c1 & -> & H0 & H1 & ->).
  eexists _, (String c0 (String c1 "")).
  split; [reflexivity |]. split; [reflexivity |].
  split; [reflexivity |]. unfold allb. simpl. rewrite H0, H1. reflexivity.
Qed.

Lemma chunk_month (p p' : vars) (v r : string) :
  parseChunk stdMonth p v = Ok (p', r) ->
  exists m w, p' = set_month m p /\ v = w +:+ r
              /\ layout.nameOf shortMonthNames w.
Proof.
  cbn [parseChunk]. intros Hk.
  apply bind_Ok_inv in Hk. destruct Hk as ([i v1] & Hl & [= <- <-]).
  destruct (lookup_from_name _ _ _ _ _ Hl) as (w & Hv & Hw).
  exists (i + 1), w. auto.
Qed.

Lemma chunk_year (p p' : vars) (v r : string) :
  parseChunk stdLongYear p v = Ok (p', r) ->
  exists y yyyy, p' = set_year y p /\ v = yyyy +:+ r /\ layout.digits 4 yyyy.
Proof.
  cbn [parseChunk]. unfold bad, rangeErr.
  destruct ((len v <? 4) || negb (isDigit v 0)) eqn:Hg; [discriminate |].
  apply orb_false_iff in Hg. destruct Hg as [Hlen Hd].
  apply negb_false_iff in Hd.
  intros Hk. apply bind_Ok_inv in Hk. destruct Hk as (y & Hy & Hk).
  injection Hk as <- <-.
  exists y, (to 4 v). split; [reflexivity |].
  split; [symmetry; apply to_from |].
  split; [apply length_to, (len_ge 4), Hlen |].
  unfold isDigit in Hd. destruct v as [| c v']; [discriminate |].
  simpl in Hd.
  exact (atoi_digits (to 4 (String c v')) c (to 3 v') y eq_refl Hd Hy).
Qed.

Lemma chunk_hour (p p' : vars) (v r : string) :
  parseChunk stdHour p v = Ok (p', r) ->
  exists h hh, p' = set_hour h p /\ v = hh +:+ r
               /\ (layout.digits 1 hh \/ layout.digits 2 hh)
               /\ 0 <= h < 24.
Proof.
  cbn [parseChunk]. unfold rangeErr. intros Hk.
  apply bind_Ok_inv in Hk. destruct Hk as ([h v1] & Hn & Hk).
  destruct ((h <? 0) || (24 <=? h)) eqn:Hr; [discriminate |].
  injection Hk as <- <-.
  apply orb_false_iff in Hr. destruct Hr as [Hlo Hhi].
  apply Z.ltb_ge in Hlo. apply Z.leb_gt in Hhi.
  apply getnum_free in Hn.
  destruct Hn as [(c0 & -> & H0 & ->) | (c0 & c1 & -> & H0 & H1 & ->)].
  - eexists _, (String c0 ""). split; [reflexivity |].
    split; [reflexivity |]. split; [| lia].
    left. split; [reflexivity |]. unfold allb. simpl. rewrite H0. reflexivity.
  - eexists _, (String c0 (String c1 "")). split; [reflexivity |].
    split; [reflexivity |]. split; [| lia].
    right. split; [reflexivity |].
    unfold allb. simpl. rewrite H0, H1. reflexivity.
Qed.

Lemma chunk_minute (p p' : vars) (v r : string) :
  parseChunk stdZeroMinute p v = Ok (p', r) ->
  exists m mm, p' = set_min m p /\ v = mm +:+ r /\ layout.digits 2 mm
               /\ 0 <= m < 60.
Proof.
  cbn [parseChunk]. unfold rangeErr. intros Hk.
  apply bind_Ok_inv in Hk. destruct Hk as ([m v1] & Hn & Hk).
  destruct ((m <? 0) || (60 <=? m)) eqn:Hr; [discriminate |].
  injection Hk as <- <-.
  apply orb_false_iff in Hr. destruct Hr as [Hlo Hhi].
  apply Z.ltb_ge in Hlo. apply Z.leb_gt in Hhi.
  apply getnum_fixed in Hn. destruct Hn as (c0 & c1 & -> & H0 & H1 & ->).
  eexists _, (String c0 (String c1 "")). split; [reflexivity |].
  split; [reflexivity |]. split; [| lia].
  split; [reflexivity |]. unfold allb. simpl. rewrite H0, H1. reflexivity.
Qed.

Lemma digitRun_digits (s : string) :
  allb isDigitByte (to (digitRun s) s) = true.
Proof.
  induction s as [| c s IH]; [reflexivity |].
  simpl digitRun. destruct (isDigitByte c) eqn:Hc; [| reflexivity].
  unfold allb in *. simpl. rewrite Hc, IH. reflexivity.
Qed.

Lemma chunk_second (p p' : vars) (v r : string) :
  parseChunk stdZeroSecond p v = Ok (p', r) ->
  exists ss frac, v = ss +:+ frac +:+ r /\ layout.digits 2 ss
                  /\ layout.fraction frac
                  /\ 0 <= v_sec p' < 60
                  /\ v_year p' = v_year p /\ v_month p' = v_month p
                  /\ v_day p' = v_day p /\ v_hour p' = v_hour p
                  /\ v_min p' = v_min p /\ v_z p' = v_z p
                  /\ v_zoneName p' = v_zoneName p.
Proof.
  cbn [parseChunk]. unfold rangeErr. intros Hk.
  apply bind_Ok_inv in Hk. destruct Hk as ([x v1] & Hn & Hk).
  destruct ((x <? 0) || (60 <=? x)) eqn:Hr; [discriminate |].
  apply orb_false_iff in Hr. destruct Hr as [Hlo Hhi].
  apply Z.ltb_ge in Hlo. apply Z.leb_gt in Hhi.
  apply getnum_fixed in Hn. destruct Hn as (c0 & c1 & -> & H0 & H1 & ->).
  assert (Hss : layout.digits 2 (String c0 (String c1 ""))).
  { split; [reflexivity |]. unfold allb. simpl. rewrite H0, H1. reflexivity. }
  destruct ((2 <=? len v1)
            && match String.get 0 v1 with
               | Some c => commaOrPeriod c
               | None => false
               end
            && isDigit v1 1) eqn:Hf.
  - apply bind_Ok_inv in Hk. destruct Hk as (ns & Hns & [= <- <-]).
    apply andb_true_iff in Hf. destruct Hf as [Hf Hd1].
    apply andb_true_iff in Hf. destruct Hf as [_ Hsep].
    destruct v1 as [| c [| d v2]]; try discriminate.
    unfold isDigit in Hd1. simpl in Hd1, Hsep.
    exists (String c0 (String c1 "")),
           (to (2 + digitRun (from 2 (String c (String d v2))))
               (String c (String d v2))).
    split.
    { cbn [Nat.add from to].
      rewrite !append_cons, append_nil, to_from. reflexivity. }
    split; [exact Hss |]. split.
    { right. exists c, (String d (to (digitRun v2) v2)).
      split; [reflexivity |]. split; [exact Hsep |].
      split; [discriminate |].
      pose proof (digitRun_digits v2) as Hrun.
      unfold allb in *. simpl. rewrite Hd1, Hrun. reflexivity. }
    cbn. repeat split; lia.
  - injection Hk as <- <-.
    exists (String c0 (String c1 "")), "".
    split; [reflexivity |]. split; [exact Hss |].
    split; [left; reflexivity |].
    cbn. repeat split; lia.
Qed.

(** *** The zone *)

Lemma parseSignedOffset_spec (value : string) :
  parseSignedOffset value = O
  \/ layout.signedHours (to (parseSignedOffset value) value).
Proof.
  destruct value as [| sign v1]; [left; reflexivity |].
  cbn [parseSignedOffset].
  destruct (negb (Ascii.eqb sign "-") && negb (Ascii.eqb sign "+")) eqn:Hsign;
    [left; reflexivity |].
  unfold leadingInt.
  destruct (leadingInt_loop_split v1 0) as (ds & Hv1 & Hds & Hval).
  destruct (leadingInt_loop 0 v1) as [x rem]. cbn [fst snd] in Hv1, Hval.
  destruct (String.eqb_spec v1 rem) as [Hsame | Hdiff]; [left; reflexivity |].
  destruct (23 <? x) eqn:Hx; [left; reflexivity |].
  right. apply Z.ltb_ge in Hx.
  assert (Hn : (String.length (String sign v1) - String.length rem
                = S (String.length ds))%nat).
  { rewrite Hv1. simpl. rewrite length_append. lia. }
  rewrite Hn, Hv1. cbn [to]. rewrite to_append_length.
  exists sign, ds. split; [reflexivity |].
  split.
  { apply andb_false_iff in Hsign.
    destruct Hsign as [Hs | Hs]; apply negb_false_iff, Ascii.eqb_eq in Hs; auto. }
  split.
  { intros ->. apply Hdiff. exact Hv1. }
  split; [exact Hds |].
  unfold leadingInt. rewrite Hval. exact Hx.
Qed.

Lemma upperRun_upper (fuel : nat) (s : string) :
  (upperRun fuel s <= String.length s)%nat
  /\ allb isUpperByte (to (upperRun fuel s) s) = true.
Proof.
  revert s. induction fuel as [| fuel IH]; intros s.
  - simpl. split; [lia | reflexivity].
  - destruct s as [| c s]; [split; [simpl; lia | reflexivity] |].
    cbn [upperRun]. destruct (isUpperByte c) eqn:Hc.
    + destruct (IH s) as [Hle Hup]. split; [simpl; lia |].
      unfold allb in *. simpl. rewrite Hc, Hup. reflexivity.
    + split; [simpl; lia | reflexivity].
Qed.

Lemma byteIs_to (i n : nat) (s : string) (c : ascii) :
  (i < n)%nat -> byteIs s i c = true -> byteIs (to n s) i c = true.
Proof. unfold byteIs. intros Hi. rewrite (get_to i n s Hi). auto. Qed.

Lemma parseTimeZone_token (value : string) (n : nat) :
  parseTimeZone value = (n, true) -> layout.zoneToken (to n value).
Proof.
  unfold parseTimeZone.
  destruct (len value <? 3) eqn:Hlen; [discriminate |].
  apply (len_ge 3) in Hlen.
  destruct ((4 <=? len value)
            && (String.eqb (to 4 value) "ChST" || String.eqb (to 4 value) "MeST"))
    eqn:Hch.
  { intros [= <-]. apply andb_true_iff in Hch. destruct Hch as [_ Hch].
    apply orb_true_iff in Hch.
    destruct Hch as [Hc | Hc]; apply String.eqb_eq in Hc; rewrite Hc.
    - right. left. reflexivity.
    - right. right. left. reflexivity. }
  destruct (String.eqb_spec (to 3 value) "GMT") as [Hgmt | _].
  { intros [= <-]. unfold parseGMT.
    destruct (len (from 3 value) =? 0) eqn:Hrest.
    - rewrite Hgmt. right. right. right. left. reflexivity.
    - rewrite (to_add 3 _ value Hlen), Hgmt.
      destruct (parseSignedOffset_spec (from 3 value)) as [Hz | Hso].
      + rewrite Hz. right. right. right. left. reflexivity.
      + right. right. right. right. left. eexists. split; [reflexivity |].
        exact Hso. }
  destruct (byteIs value 0 "+" || byteIs value 0 "-").
  { intros [= <- Hpos].
    destruct (parseSignedOffset_spec value) as [Hz | Hso].
    - rewrite Hz in Hpos. discriminate.
    - right. right. right. right. right. left. exact Hso. }
  destruct (upperRun_upper 6 value) as [Hle Hup].
  destruct (upperRun 6 value) as [| [| [| [| [| [| k]]]]]] eqn:Hrun;
    try discriminate.
  - intros [= <-]. repeat right.
    split; [exact Hup |]. left. apply length_to, Hle.
  - destruct (byteIs value 3 "T" || String.eqb (to 4 value) "WITA") eqn:Ht;
      [| discriminate].
    intros [= <-]. repeat right.
    split; [exact Hup |]. right. left.
    split; [apply length_to, Hle |].
    apply orb_true_iff in Ht. destruct Ht as [Ht | Ht].
    + left. apply byteIs_to; [lia | exact Ht].
    + right. apply String.eqb_eq, Ht.
  - destruct (byteIs value 4 "T") eqn:Ht; [| discriminate].
    intros [= <-]. repeat right.
    split; [exact Hup |]. right. right.
    split; [apply length_to, Hle |].
    apply byteIs_to; [lia | exact Ht].
Qed.

Lemma chunk_zone (p p' : vars) (v r : string) :
  parseChunk stdTZ p v = Ok (p', r) ->
  exists zone, v = zone +:+ r /\ layout.zoneToken zone
               /\ v_year p' = v_year p /\ v_month p' = v_month p
               /\ v_day p' = v_day p /\ v_hour p' = v_hour p
               /\ v_min p' = v_min p /\ v_sec p' = v_sec p.
Proof.
  cbn [parseChunk]. unfold bad.
  destruct ((3 <=? len v) && String.eqb (to 3 v) "UTC") eqn:Hutc.
  - intros [= <- <-]. exists (to 3 v).
    split; [symmetry; apply to_from |].
    apply andb_true_iff in Hutc. destruct Hutc as [_ Hutc].
    apply String.eqb_eq in Hutc. rewrite Hutc.
    split; [left; reflexivity |]. repeat split.
  - destruct (parseTimeZone v) as [n [|]] eqn:Hz; [| discriminate].
    intros [= <- <-]. exists (to n v).
    split; [symmetry; apply to_from |].
    split; [exact (parseTimeZone_token v n Hz) |]. repeat split.
Qed.

End ScanFacts.

(** ** Parsing the expiry: the whole layout *)

Section ParseFacts.

Import time.

Lemma append_nonempty (a b : string) : a <> "" -> a +:+ b <> "".
Proof. destruct a; [congruence | discriminate]. Qed.

Lemma digits_nonempty (n : nat) (s : string) :
  layout.digits (S n) s -> s <> "".
Proof. intros [Hl _] ->. discriminate. Qed.

Lemma monthName_nonempty (w : string) :
  layout.nameOf shortMonthNames w -> w <> "".
Proof.
  intros (v & Hin & Hl & _) ->.
  repeat (destruct Hin as [<- | Hin]; [discriminate |]). exact Hin.
Qed.

Lemma signedHours_nonempty (o : string) : layout.signedHours o -> o <> "".
Proof. intros (sign & ds & -> & _). discriminate. Qed.

Lemma zoneToken_nonempty (z : string) : layout.zoneToken z -> z <> "".
Proof.
  intros [-> | [-> | [-> | [-> | [(o & -> & _) | [Hs | [_ Hu]]]]]]];
    try discriminate.
  - exact (signedHours_nonempty _ Hs).
  - intros ->. simpl in Hu. destruct Hu as [Hu | [[Hu _] | [Hu _]]]; discriminate.
Qed.

Lemma spaces_intro (sp r : string) :
  allb isSpace sp = true -> (r <> "" -> sp <> "") -> r <> "" ->
  layout.spaces sp.
Proof. intros Hall Hne Hr. split; [exact (Hne Hr) | exact Hall]. Qed.

(** What the loop over the chunks accepts has the shape of the
    layout, and the fields it has read are in range. *)
Lemma parseChunks_matches (s : string) (p : vars) :
  parseChunks chunks vars0 s = Ok p ->
  layout.matches s
  /\ 0 <= v_hour p < 24 /\ 0 <= v_min p < 60 /\ 0 <= v_sec p < 60.
Proof.
  unfold chunks. cbn [parseChunks]. intros Hk.
  (* weekday *)
  apply bind_Ok_inv in Hk. destruct Hk as (s0 & Hs0 & Hk).
  rewrite skip_nothing in Hs0. injection Hs0 as <-.
  apply bind_Ok_inv in Hk. destruct Hk as ([p1 s1] & Hc1 & Hk).
  apply chunk_weekday in Hc1. destruct Hc1 as (-> & wd & -> & Hwd).
  (* day *)
  apply bind_Ok_inv in Hk. destruct Hk as (s2 & Hs2 & Hk).
  apply skip_comma_space in Hs2. destruct Hs2 as (sp1 & -> & Hsp1 & Hne1).
  apply bind_Ok_inv in Hk. destruct Hk as ([p2 s3] & Hc2 & Hk).
  apply chunk_day in Hc2. destruct Hc2 as (d & dd & -> & -> & Hdd).
  (* month *)
  apply bind_Ok_inv in Hk. destruct Hk as (s4 & Hs4 & Hk).
  apply skip_space in Hs4. destruct Hs4 as (sp2 & -> & Hsp2 & Hne2).
  apply bind_Ok_inv in Hk. destruct Hk as ([p3 s5] & Hc3 & Hk).
  apply chunk_month in Hc3. destruct Hc3 as (m & mon & -> & -> & Hmon).
  (* year *)
  apply bind_Ok_inv in Hk. destruct Hk as (s6 & Hs6 & Hk).
  apply skip_space in Hs6. destruct Hs6 as (sp3 & -> & Hsp3 & Hne3).
  apply bind_Ok_inv in Hk. destruct Hk as ([p4 s7] & Hc4 & Hk).
  apply chunk_year in Hc4. destruct Hc4 as (y & yyyy & -> & -> & Hyyyy).
  (* hour *)
  apply bind_Ok_inv in Hk. destruct Hk as (s8 & Hs8 & Hk).
  apply skip_space in Hs8. destruct Hs8 as (sp4 & -> & Hsp4 & Hne4).
  apply bind_Ok_inv in Hk. destruct Hk as ([p5 s9] & Hc5 & Hk).
  apply chunk_hour in Hc5. destruct Hc5 as (h & hh & -> & -> & Hhh & Hh).
  (* minute *)
  apply bind_Ok_inv in Hk. destruct Hk as (s10 & Hs10 & Hk).
  apply skip_colon in Hs10. subst s9.
  apply bind_Ok_inv in Hk. destruct Hk as ([p6 s11] & Hc6 & Hk).
  apply chunk_minute in Hc6. destruct Hc6 as (mi & mm & -> & -> & Hmm & Hmi).
  (* second *)
  apply bind_Ok_inv in Hk. destruct Hk as (s12 & Hs12 & Hk).
  apply skip_colon in Hs12. subst s11.
  apply bind_Ok_inv in Hk. destruct Hk as ([p7 s13] & Hc7 & Hk).
  apply chunk_second in Hc7.
  destruct Hc7 as (ss & frac & -> & Hss & Hfrac & Hsec
                   & _ & _ & _ & Hh7 & Hm7 & _ & _).
  (* zone *)
  apply bind_Ok_inv in Hk. destruct Hk as (s14 & Hs14 & Hk).
  apply skip_space in Hs14. destruct Hs14 as (sp5 & -> & Hsp5 & Hne5).
  apply bind_Ok_inv in Hk. destruct Hk as ([p8 s15] & Hc8 & Hk).
  apply chunk_zone in Hc8.
  destruct Hc8 as (zone & -> & Hzone & _ & _ & _ & Hh8 & Hm8 & Hs8).
  (* the end of the input *)
  apply bind_Ok_inv in Hk. destruct Hk as (s16 & Hs16 & Hk).
  rewrite skip_nothing in Hs16. injection Hs16 as <-.
  destruct (len s15 =? 0) eqn:Hend; cbn [negb] in Hk; [| discriminate].
  injection Hk as <-. apply len_0 in Hend. subst s15.
  rewrite append_empty_r in *.
  split.
  - exists wd, sp1, dd, sp2, mon, sp3, yyyy, sp4, hh, mm, ss, frac, sp5, zone.
    split.
    { rewrite ?append_assoc. reflexivity. }
    assert (Hz0 : zone <> "") by exact (zoneToken_nonempty _ Hzone).
    split; [exact Hwd |].
    split.
    { apply (spaces_intro _ _ Hsp1 Hne1).
      apply append_nonempty, (digits_nonempty _ _ Hdd). }
    split; [exact Hdd |].
    split.
    { apply (spaces_intro _ _ Hsp2 Hne2).
      apply append_nonempty, (monthName_nonempty _ Hmon). }
    split; [exact Hmon |].
    split.
    { apply (spaces_intro _ _ Hsp3 Hne3).
      apply append_nonempty, (digits_nonempty _ _ Hyyyy). }
    split; [exact Hyyyy |].
    split.
    { apply (spaces_intro _ _ Hsp4 Hne4).
      apply append_nonempty.
      destruct Hhh as [Hhh | Hhh]; exact (digits_nonempty _ _ Hhh). }
    split; [exact Hhh |].
    split; [exact Hmm |].
    split; [exact Hss |].
    split; [exact Hfrac |].
    split; [| exact Hzone].
    apply (spaces_intro _ _ Hsp5 Hne5). exact Hz0.
  - rewrite Hh8, Hm8, Hs8, Hh7, Hm7. cbn. lia.
Qed.

(** *** Every failure is a parse error *)

Import layout.

Lemma bind_peo {A B} (r : result A) (k : A -> result B) :
  parseErrorOnly r -> (forall x, parseErrorOnly (k x)) ->
  parseErrorOnly (r ≫= k).
Proof. destruct r as [x | [why | msg | msg]]; simpl; auto. Qed.

Lemma skip_loop_peo (fuel : nat) (value prefix : string) :
  parseErrorOnly (skip_loop fuel value prefix).
Proof.
  revert value prefix. induction fuel as [| fuel IH]; intros value prefix.
  - destruct prefix; exact I.
  - destruct prefix as [| p prefix']; [exact I |].
    cbn [skip_loop]. destruct (isSpace p).
    + destruct value as [| v value']; [apply IH |].
      destruct (negb (isSpace v)); [exact I | apply IH].
    + destruct value as [| v value']; [exact I |].
      destruct (Ascii.eqb v p); [apply IH | exact I].
Qed.

Lemma getnum_peo (s : string) (fixed : bool) : parseErrorOnly (getnum s fixed).
Proof.
  unfold getnum. destruct (negb (isDigit s 0)); [exact I |].
  destruct (negb (isDigit s 1)); [| exact I].
  destruct fixed; exact I.
Qed.

Lemma lookup_from_peo (tab : list string) (i : Z) (val : string) :
  parseErrorOnly (lookup_from i tab val).
Proof.
  revert i. induction tab as [| v tab IH]; intros i; [exact I |].
  cbn [lookup_from]. destruct (_ && _); [exact I | apply IH].
Qed.

Lemma atoi_peo (s : string) : parseErrorOnly (atoi s).
Proof.
  unfold atoi.
  destruct (match s with
            | String c r =>
              if Ascii.eqb c "-" || Ascii.eqb c "+" then (Ascii.eqb c "-", r)
              else (false, s)
            | EmptyString => (false, s)
            end) as [neg s1].
  destruct (leadingInt s1) as [q rem].
  destruct (0 <? len rem); exact I.
Qed.

Lemma parseNanoseconds_peo (value : string) (nbytes : nat) :
  parseErrorOnly (parseNanoseconds value nbytes).
Proof.
  unfold parseNanoseconds. destruct (String.get 0 value) as [c |]; [| exact I].
  destruct (negb (commaOrPeriod c)); [exact I |].
  destruct (10 <? nbytes)%nat; (apply bind_peo; [apply atoi_peo |]);
    intros ns; destruct (ns <? 0); exact I.
Qed.

Lemma parseChunk_peo (st : std) (p : vars) (value : string) :
  parseErrorOnly (parseChunk st p value).
Proof.
  destruct st; cbn [parseChunk].
  - apply bind_peo; [apply lookup_from_peo | intros [i v]; exact I].
  - apply bind_peo; [apply getnum_peo | intros [d v]; exact I].
  - apply bind_peo; [apply lookup_from_peo | intros [i v]; exact I].
  - destruct (_ || _); [exact I |].
    apply bind_peo; [apply atoi_peo |]. intros y. exact I.
  - apply bind_peo; [apply getnum_peo |]. intros [h v].
    destruct (_ || _); exact I.
  - apply bind_peo; [apply getnum_peo |]. intros [m v].
    destruct (_ || _); exact I.
  - apply bind_peo; [apply getnum_peo |]. intros [x v].
    destruct (_ || _); [exact I |].
    destruct (_ && _); [| exact I].
    apply bind_peo; [apply parseNanoseconds_peo | intros ns; exact I].
  - destruct (_ && _); [exact I |].
    destruct (parseTimeZone value) as [n [|]]; exact I.
Qed.

Lemma parseChunks_peo (l : list (string * std)) (p : vars) (value : string) :
  parseErrorOnly (parseChunks l p value).
Proof.
  revert p value. induction l as [| [prefix st] l IH]; intros p value;
    cbn [parseChunks].
  - apply bind_peo; [apply skip_loop_peo |]. intros v.
    destruct (negb (len v =? 0)); exact I.
  - apply bind_peo; [apply skip_loop_peo |]. intros v.
    apply bind_peo; [apply parseChunk_peo |]. intros [p' v']. apply IH.
Qed.

Lemma finish_peo (lookupName : string -> Z -> option Z) (p : vars) :
  parseErrorOnly (finish lookupName p).
Proof.
  unfold finish. destruct (_ || _); [exact I |].
  destruct (v_z p); [exact I |].
  destruct (negb _); [| exact I].
  destruct (lookupName _ _); exact I.
Qed.

Lemma Parse_peo (lookupName : string -> Z -> option Z) (value : string) :
  parseErrorOnly (Parse lookupName value).
Proof.
  unfold Parse. apply bind_peo; [apply parseChunks_peo |].
  intros p. apply finish_peo.
Qed.

Lemma Parse_matches (lookupName : string -> Z -> option Z) (value : string)
      (t : Time) :
  Parse lookupName value = Ok t -> layout.matches value.
Proof.
  unfold Parse. intros Hk. apply bind_Ok_inv in Hk.
  destruct Hk as (p & Hp & _). exact (proj1 (parseChunks_matches _ _ Hp)).
Qed.

(** *** Runs of the loop on sample inputs *)

Lemma chunks_sample_GMT :
  parseChunks chunks vars0 "Thu, 09 Nov 2017 17:27:14 GMT"
  = Ok (mkVars 2017 11 9 17 27 14 0 None "GMT").
Proof. vm_compute. reflexivity. Qed.

Lemma chunks_sample_XYZ :
  parseChunks chunks vars0 "Thu, 09 Nov 2017 17:27:14 XYZ"
  = Ok (mkVars 2017 11 9 17 27 14 0 None "XYZ").
Proof. vm_compute. reflexivity. Qed.

Lemma chunks_sample_no_zone :
  parseChunks chunks vars0 "Thu, 09 Nov 2017 17:27:14"
  = Err (ParseError errBad).
Proof. vm_compute. reflexivity. Qed.

Lemma upper_not_sign (c : ascii) :
  isUpperByte c = true -> Ascii.eqb c "+" || Ascii.eqb c "-" = false.
Proof.
  intros Hu.
  destruct (Ascii.eqb_spec c "+") as [-> | _]; [discriminate Hu |].
  destruct (Ascii.eqb_spec c "-") as [-> | _]; [discriminate Hu |].
  reflexivity.
Qed.

(** Any three upper-case letters pass for a zone, whether or not they
    name one. *)
Lemma three_letters_pass (a b c : ascii) (p : vars) :
  isUpperByte a = true -> isUpperByte b = true -> isUpperByte c = true ->
  exists p', parseChunk stdTZ p (String a (String b (String c ""))) = Ok (p', "").
Proof.
  intros Ha Hb Hc. cbn [parseChunk].
  destruct ((3 <=? len (String a (String b (String c ""))))
            && String.eqb (to 3 (String a (String b (String c "")))) "UTC");
    [eexists; reflexivity |].
  unfold parseTimeZone.
  change (len (String a (String b (String c ""))) <? 3) with false.
  change (4 <=? len (String a (String b (String c "")))) with false.
  cbn [andb].
  destruct (String.eqb (to 3 (String a (String b (String c "")))) "GMT");
    [eexists; reflexivity |].
  unfold byteIs. cbn [String.get]. rewrite (upper_not_sign a Ha).
  cbn [upperRun]. rewrite Ha, Hb, Hc.
  eexists. reflexivity.
Qed.

End ParseFacts.

(** ** [getExpiration] *)

Section ExpiryFacts.

Context `{Collaborators}.

Lemma getExpiration_Parse (s : string) :
  getExpiration s = time.Parse localLookupName s.
Proof. unfold getExpiration. destruct (time.Parse _ _); reflexivity. Qed.

Lemma getExpiration_error_kind (s : string) (err : error) :
  getExpiration s = Err err -> exists why, err = ParseError why.
Proof.
  rewrite getExpiration_Parse. intros Herr.
  pose proof (Parse_peo localLookupName s) as Hpeo.
  rewrite Herr in Hpeo. destruct err as [why | msg | msg];
    [exists why; reflexivity | contradiction | contradiction].
Qed.

(** After the loop has read 2017-11-09 17:27:14 and a zone name that
    is not one of the "GMT+h" forms, the instant depends on the local
    zone database only. *)
Lemma finish_sample (lookupName : string -> Z -> option Z) (zone : string) :
  zone <> "" -> (3 <? len zone) && String.eqb (to 3 zone) "GMT" = false ->
  time.finish lookupName (time.mkVars 2017 11 9 17 27 14 0 None zone)
  = match lookupName zone 1510248434 with
    | Some offset => Ok (time.mkTime (1510248434 - offset) 0 time.Local)
    | None => Ok (time.mkTime 1510248434 0 (time.FixedZone zone 0))
    end.
Proof.
  intros Hz Hgmt. unfold time.finish.
  change ((time.v_day (time.mkVars 2017 11 9 17 27 14 0 None zone) <? 1)
          || (time.daysIn (time.v_month (time.mkVars 2017 11 9 17 27 14 0 None zone))
                          (time.v_year (time.mkVars 2017 11 9 17 27 14 0 None zone))
              <? time.v_day (time.mkVars 2017 11 9 17 27 14 0 None zone)))
    with false.
  cbv iota. cbn [time.v_z time.v_zoneName].
  apply String.eqb_neq in Hz. rewrite Hz. cbn [negb]. rewrite Hgmt.
  reflexivity.
Qed.

(** C5 (as amended). [getExpiration] reads its input with the single
    layout "Mon, 02 Jan 2006 15:04:05 MST" and tries no other:
    - "Thu, 09 Nov 2017 17:27:14 GMT" yields the instant
      2017-11-09T17:27:14 GMT exactly (wherever the local zone does
      not give GMT another offset);
    - an input it accepts has the shape of the layout: a weekday name,
      a comma, a two-digit day, a month name, a four-digit year, an
      hour of one or two digits, two-digit minutes and seconds with an
      optional fraction, and a zone token, separated by spaces;
    - whenever it fails, the error is a parse error, as for the input
      without its zone token;
    - the zone token is checked for its shape only: three upper-case
      letters always pass, so the unknown "XYZ" is accepted, and read
      with offset zero where the local zone does not know it. *)
Theorem getExpiration_single_layout :
  ((forall u, localLookupName "GMT" u = None \/ localLookupName "GMT" u = Some 0) ->
   exists t, getExpiration "Thu, 09 Nov 2017 17:27:14 GMT" = Ok t
             /\ time.Equal t (time.DateUTC 2017 11 9 17 27 14 0) = true
             /\ time.unixSec t = 1510248434 /\ time.nsec t = 0)
  /\ (forall s t, getExpiration s = Ok t -> layout.matches s)
  /\ (forall s err, getExpiration s = Err err -> exists why, err = ParseError why)
  /\ (exists why, getExpiration "Thu, 09 Nov 2017 17:27:14" = Err (ParseError why))
  /\ (exists t, getExpiration "Thu, 09 Nov 2017 17:27:14 XYZ" = Ok t
                /\ ((forall u, localLookupName "XYZ" u = None) ->
                    t = time.mkTime 1510248434 0 (time.FixedZone "XYZ" 0)))
  /\ (forall a b c p,
        isUpperByte a = true -> isUpperByte b = true -> isUpperByte c = true ->
        exists p', time.parseChunk time.stdTZ p (String a (String b (String c "")))
                   = Ok (p', "")).
Proof.
  split; [| split; [| split; [| split; [| split]]]].
  - intros Hgmt. rewrite getExpiration_Parse. unfold time.Parse.
    rewrite chunks_sample_GMT. cbn [mbind result_bind].
    rewrite finish_sample by (discriminate || reflexivity).
    destruct (Hgmt 1510248434) as [-> | ->]; eexists; repeat split.
  - intros s t. rewrite getExpiration_Parse. apply Parse_matches.
  - intros s err. apply getExpiration_error_kind.
  - exists errBad. rewrite getExpiration_Parse. unfold time.Parse.
    rewrite chunks_sample_no_zone. reflexivity.
  - rewrite getExpiration_Parse. unfold time.Parse.
    rewrite chunks_sample_XYZ. cbn [mbind result_bind].
    rewrite finish_sample by (discriminate || reflexivity).
    destruct (localLookupName "XYZ" 1510248434) as [offset |] eqn:Hxyz.
    + eexists. split; [reflexivity |]. intros Hnone.
      rewrite Hnone in Hxyz. discriminate.
    + eexists. split; [reflexivity |]. intros _. reflexivity.
  - intros a b c p. apply three_letters_pass.
Qed.

End ExpiryFacts.

Section ExpiryRuns.

Import Double.

(** "XYZ" names no zone, here or anywhere, and the input that ends
    with it is accepted all the same. *)
Lemma unknown_zone_counterexample :
  (forall u, localLookupName (Collaborators := scripted) "XYZ" u = None)
  /\ getExpiration (H := scripted) "Thu, 09 Nov 2017 17:27:14 XYZ"
     = Ok (time.mkTime 1510248434 0 (time.FixedZone "XYZ" 0))
  /\ ~ (exists why, getExpiration (H := scripted) "Thu, 09 Nov 2017 17:27:14 XYZ"
                    = Err (ParseError why)).
Proof.
  assert (Hrun : getExpiration (H := scripted) "Thu, 09 Nov 2017 17:27:14 XYZ"
                 = Ok (time.mkTime 1510248434 0 (time.FixedZone "XYZ" 0))).
  { vm_compute. reflexivity. }
  split; [intros u; reflexivity |].
  split; [exact Hrun |].
  intros [why Hwhy]. rewrite Hrun in Hwhy. discriminate.
Qed.

Lemma goodExpires_parses_plain :
  getExpiration (H := scripted) goodExpires
  = Ok (time.mkTime 1510248434 0 (time.FixedZone "GMT" 0)).
Proof. vm_compute. reflexivity. Qed.

Lemma getExpiration_single_layout_witness :
  (forall u, localLookupName (Collaborators := scripted) "GMT" u = None
             \/ localLookupName (Collaborators := scripted) "GMT" u = Some 0)
  /\ (exists t, getExpiration (H := scripted) "Thu, 09 Nov 2017 17:27:14 GMT" = Ok t
                /\ time.Equal t (time.DateUTC 2017 11 9 17 27 14 0) = true
                /\ time.unixSec t = 1510248434 /\ time.nsec t = 0)
  /\ layout.matches goodExpires.
Proof.
  assert (Hgmt : forall u, localLookupName (Collaborators := scripted) "GMT" u = None
                           \/ localLookupName (Collaborators := scripted) "GMT" u = Some 0).
  { intros u. left. reflexivity. }
  split; [exact Hgmt |].
  split.
  - exact (proj1 (getExpiration_single_layout (H := scripted)) Hgmt).
  - exact (proj1 (proj2 (getExpiration_single_layout (H := scripted)))
                 goodExpires _ goodExpires_parses_plain).
Defined.

End ExpiryRuns.

(** ** The cache: [get] and [set] *)

Section CacheFacts.

Context `{Collaborators}.

Lemma get_absent (c : Cache) (u : string) (now : time.Time) :
  c !! u = None -> get c u now = (None, c).
Proof. intros Hu. unfold get. rewrite Hu. reflexivity. Qed.

Lemma get_expired (c : Cache) (u : string) (now : time.Time) (entry : CacheEntry) :
  c !! u = Some entry ->
  time.Before (Expires entry) now = true ->
  get c u now = (None, delete u c).
Proof. intros Hu Hb. unfold get. rewrite Hu, Hb. reflexivity. Qed.

Lemma get_fresh (c : Cache) (u : string) (now : time.Time) (entry : CacheEntry) :
  c !! u = Some entry ->
  time.Before (Expires entry) now = false ->
  get c u now = (Data entry, c).
Proof. intros Hu Hb. unfold get. rewrite Hu, Hb. reflexivity. Qed.

(** Whatever a read does to the cache, it does it at the key read. *)
Lemma get_frame (c : Cache) (u u' : string) (now : time.Time) :
  u' <> u -> snd (get c u now) !! u' = c !! u'.
Proof.
  intros Hne. unfold get.
  destruct (c !! u) as [entry |]; [| reflexivity].
  destruct (time.Before (Expires entry) now); simpl; [| reflexivity].
  apply lookup_delete_ne. congruence.
Qed.

(** A read returns nothing exactly in three situations. *)
Lemma get_miss_inv (c : Cache) (u : string) (now : time.Time) :
  fst (get c u now) = None ->
  (c !! u = None /\ snd (get c u now) = c)
  \/ (exists entry, c !! u = Some entry
        /\ time.Before (Expires entry) now = true
        /\ snd (get c u now) = delete u c)
  \/ (exists entry, c !! u = Some entry
        /\ time.Before (Expires entry) now = false
        /\ Data entry = None
        /\ snd (get c u now) = c).
Proof.
  unfold get. destruct (c !! u) as [entry |] eqn:Hu.
  - destruct (time.Before (Expires entry) now) eqn:Hb; simpl; intros Hd.
    + right. left. exists entry. auto.
    + right. right. exists entry. auto.
  - intros _. left. auto.
Qed.

Lemma set_parse_failure (c : Cache) (u : string) (d : option Container)
      (h : Header) (err : error) :
  getExpiration (Header_Get h "Expires") = Err err ->
  set c u d h = (Err err, c).
Proof. intros Hp. unfold set. rewrite Hp. reflexivity. Qed.

Lemma set_parse_success (c : Cache) (u : string) (d : option Container)
      (h : Header) (t : time.Time) :
  getExpiration (Header_Get h "Expires") = Ok t ->
  set c u d h = (Ok tt, <[u := mkCacheEntry d t]> c).
Proof. intros Hp. unfold set. rewrite Hp. reflexivity. Qed.

(** C1 (as amended). A read of [u] at time [now]: with no entry for
    [u] it returns nothing and leaves the cache as it is; with an
    entry whose expiration is strictly before [now] it removes that
    entry and returns nothing; with an entry whose expiration is
    [now] itself or later it returns the stored document and leaves
    the cache as it is.  Removing the expired entry is the only
    change a read makes: every other key keeps its entry. *)
Theorem get_checks_expiry (c : Cache) (u : string) (now : time.Time) :
  (c !! u = None -> get c u now = (None, c))
  /\ (forall entry, c !! u = Some entry ->
        time.Before (Expires entry) now = true ->
        get c u now = (None, delete u c))
  /\ (forall entry, c !! u = Some entry ->
        time.Equal (Expires entry) now = true
        \/ time.After (Expires entry) now = true ->
        get c u now = (Data entry, c))
  /\ (snd (get c u now) = c \/ snd (get c u now) = delete u c)
  /\ (forall u', u' <> u -> snd (get c u now) !! u' = c !! u').
Proof.
  split; [apply get_absent |].
  split; [intros entry; apply get_expired |].
  split.
  { intros entry Hu [He | Ha]; apply (get_fresh _ _ _ _ Hu).
    - apply Equal_not_Before, He.
    - apply After_not_Before, Ha. }
  split; [| intros u'; apply get_frame].
  unfold get. destruct (c !! u) as [entry |]; [| left; reflexivity].
  destruct (time.Before (Expires entry) now); simpl; auto.
Qed.

(** C4. [set] parses the value of the Expires header with
    [getExpiration]; when that fails, [set] returns the parser's error,
    a parse error, and the cache is exactly as before; when it
    succeeds, the entry of [u] becomes the given document with the
    parsed expiry, whatever was there, and no other key is touched; so
    after two successful calls on the same [u] the cache holds the
    second document only. *)
Theorem set_last_write_wins (c : Cache) (u : string) (h : Header) :
  (forall d err,
      getExpiration (Header_Get h "Expires") = Err err ->
      set c u d h = (Err err, c) /\ exists why, err = ParseError why)
  /\ (forall d t,
      getExpiration (Header_Get h "Expires") = Ok t ->
      set c u d h = (Ok tt, <[u := mkCacheEntry d t]> c)
      /\ snd (set c u d h) !! u = Some (mkCacheEntry d t)
      /\ (forall u', u' <> u -> snd (set c u d h) !! u' = c !! u'))
  /\ (forall d1 d2 h2 t1 t2,
      getExpiration (Header_Get h "Expires") = Ok t1 ->
      getExpiration (Header_Get h2 "Expires") = Ok t2 ->
      snd (set (snd (set c u d1 h)) u d2 h2) = <[u := mkCacheEntry d2 t2]> c).
Proof.
  split.
  { intros d err Hp.
    split; [apply set_parse_failure, Hp | exact (getExpiration_error_kind _ _ Hp)]. }
  split.
  - intros d t Hp. rewrite (set_parse_success _ _ _ _ _ Hp). simpl.
    split; [reflexivity |].
    split; [apply lookup_insert_eq |].
    intros u' Hne. apply lookup_insert_ne. congruence.
  - intros d1 d2 h2 t1 t2 Hp1 Hp2.
    rewrite (set_parse_success _ _ _ _ _ Hp1). simpl.
    rewrite (set_parse_success _ _ _ _ _ Hp2). simpl.
    apply insert_insert_eq.
Qed.

(** C6. When the Expires header parses to an instant strictly after
    the current time, [set u doc h] followed at once by [get u]
    returns exactly [doc] and keeps the entry. *)
Theorem set_then_get (c : Cache) (u : string) (doc : option Container)
        (h : Header) (expires now : time.Time) :
  getExpiration (Header_Get h "Expires") = Ok expires ->
  time.After expires now = true ->
  fst (set c u doc h) = Ok tt
  /\ get (snd (set c u doc h)) u now = (doc, snd (set c u doc h)).
Proof.
  intros Hp Ha. rewrite (set_parse_success _ _ _ _ _ Hp). simpl.
  split; [reflexivity |].
  apply (get_fresh _ _ _ (mkCacheEntry doc expires)).
  - apply lookup_insert_eq.
  - simpl. apply After_not_Before, Ha.
Qed.

End CacheFacts.

Section CacheRuns.

Import Double.

Lemma warsCache_wars : warsCache !! "wars" = Some (entry (Some "{}") t_expiry).
Proof. apply lookup_singleton_eq. Qed.

Lemma warsCache_other : warsCache !! "sovereignty" = None.
Proof. apply lookup_singleton_ne. discriminate. Qed.

(** A read at the very instant of expiration returns the document and
    evicts nothing, where the specification's wording has it evicted. *)
Lemma get_at_expiry_counterexample :
  time.After t_expiry t_expiry = false
  /\ get (H := scripted) warsCache "wars" t_expiry = (Some "{}", warsCache)
  /\ ~ get_evicting_at_or_before warsCache "wars" t_expiry.
Proof.
  split; [reflexivity |].
  assert (Hget : get (H := scripted) warsCache "wars" t_expiry = (Some "{}", warsCache)).
  { apply (get_fresh _ _ _ _ warsCache_wars). reflexivity. }
  split; [exact Hget |].
  unfold get_evicting_at_or_before. rewrite warsCache_wars.
  change (time.After (Expires (entry (Some "{}") t_expiry)) t_expiry) with false.
  cbv iota. rewrite Hget. discriminate.
Qed.

Lemma get_checks_expiry_witness :
  get (H := scripted) warsCache "wars" t_later = (None, delete "wars" warsCache)
  /\ get (H := scripted) warsCache "wars" t_expiry = (Some "{}", warsCache)
  /\ get (H := scripted) warsCache "wars" t_earlier = (Some "{}", warsCache)
  /\ get (H := scripted) warsCache "sovereignty" t_later = (None, warsCache).
Proof.
  split; [| split; [| split]].
  - exact (proj1 (proj2 (get_checks_expiry warsCache "wars" t_later))
                 _ warsCache_wars eq_refl).
  - exact (proj1 (proj2 (proj2 (get_checks_expiry warsCache "wars" t_expiry)))
                 _ warsCache_wars (or_introl eq_refl)).
  - exact (proj1 (proj2 (proj2 (get_checks_expiry warsCache "wars" t_earlier)))
                 _ warsCache_wars (or_intror eq_refl)).
  - exact (proj1 (get_checks_expiry warsCache "sovereignty" t_later)
                 warsCache_other).
Defined.

Lemma goodExpires_parses :
  getExpiration (H := scripted) (Header_Get (expiresHeader goodExpires) "Expires")
  = Ok (time.mkTime 1510248434 0 (time.FixedZone "GMT" 0)).
Proof. vm_compute. reflexivity. Qed.

Lemma badExpires_fails :
  getExpiration (H := scripted) (Header_Get (expiresHeader "tomorrow") "Expires")
  = Err (ParseError errBad).
Proof. vm_compute. reflexivity. Qed.

Lemma noExpires_fails :
  getExpiration (H := scripted) (Header_Get ∅ "Expires")
  = Err (ParseError errBad).
Proof. vm_compute. reflexivity. Qed.

Lemma set_last_write_wins_witness :
  set (H := scripted) warsCache "wars" (Some "[1]") (expiresHeader "tomorrow")
  = (Err (ParseError errBad), warsCache)
  /\ set (H := scripted) warsCache "wars" (Some "[1]") (expiresHeader goodExpires)
     = (Ok tt, <["wars" := entry (Some "[1]")
                   (time.mkTime 1510248434 0 (time.FixedZone "GMT" 0))]> warsCache)
  /\ snd (set (H := scripted) (snd (set (H := scripted) ∅ "wars" (Some "[1]") (expiresHeader goodExpires)))
              "wars" (Some "[2]") (expiresHeader goodExpires))
     = <["wars" := entry (Some "[2]")
           (time.mkTime 1510248434 0 (time.FixedZone "GMT" 0))]> ∅.
Proof.
  split; [| split].
  - exact (proj1 (proj1 (set_last_write_wins (H := scripted) warsCache "wars"
                                            (expiresHeader "tomorrow"))
                        (Some "[1]") _ badExpires_fails)).
  - exact (proj1 (proj1 (proj2 (set_last_write_wins (H := scripted) warsCache "wars"
                                  (expiresHeader goodExpires)))
                        (Some "[1]") _ goodExpires_parses)).
  - exact (proj2 (proj2 (set_last_write_wins (H := scripted) ∅ "wars" (expiresHeader goodExpires)))
                 (Some "[1]") (Some "[2]") (expiresHeader goodExpires) _ _
                 goodExpires_parses goodExpires_parses).
Defined.

Lemma set_then_get_witness :
  time.After (time.mkTime 1510248434 0 (time.FixedZone "GMT" 0)) t_earlier = true
  /\ fst (set (H := scripted) ∅ "wars" (Some "[1]") (expiresHeader goodExpires)) = Ok tt
  /\ get (H := scripted) (snd (set (H := scripted) ∅ "wars" (Some "[1]") (expiresHeader goodExpires)))
         "wars" t_earlier
     = (Some "[1]", snd (set (H := scripted) ∅ "wars" (Some "[1]") (expiresHeader goodExpires))).
Proof.
  split; [reflexivity |].
  exact (set_then_get (H := scripted) ∅ "wars" (Some "[1]") (expiresHeader goodExpires)
                      _ t_earlier goodExpires_parses eq_refl).
Defined.

End CacheRuns.

(** ** The client: [GetAuthorizeURL] *)

Section AuthorizeFacts.

Context `{Collaborators}.

Lemma eqb_empty_false (s : string) : s <> "" -> String.eqb s "" = false.
Proof. intros Hs. apply String.eqb_neq, Hs. Qed.

(** The format of the authorize URL is in the fragment of
    [sprintfStrings]: each [%s] is replaced by its operand. *)
Lemma sprintfStrings_authorize (a b c d : string) :
  sprintfStrings "%s?response_type=code&redirect_uri=%s&client_id=%s&scope=%s"
                 [a; b; c; d]
  = Some (a +:+ "?response_type=code&redirect_uri=" +:+ b
            +:+ "&client_id=" +:+ c +:+ "&scope=" +:+ d +:+ "").
Proof. reflexivity. Qed.

(** C8. [GetAuthorizeURL] fails with the missing-client-data error as
    soon as one of client id, client secret and callback URL is the
    empty string; when none is, it returns the authorize endpoint
    followed by [response_type=code], [redirect_uri], [client_id] and
    [scope], in that order, each value copied as it is. *)
Theorem GetAuthorizeURL_spec (e : ESI) :
  (ClientID e = "" \/ ClientSecret e = "" \/ ClientCallbackURL e = "" ->
   GetAuthorizeURL e
   = Err (Errorf "Missing client data - cannot generate callback URL"))
  /\ (ClientID e <> "" -> ClientSecret e <> "" -> ClientCallbackURL e <> "" ->
      GetAuthorizeURL e
      = Ok ("https://login.eveonline.com/oauth/authorize"
            +:+ "?response_type=code"
            +:+ "&redirect_uri=" +:+ ClientCallbackURL e
            +:+ "&client_id=" +:+ ClientID e
            +:+ "&scope=" +:+ Scope e)).
Proof.
  unfold GetAuthorizeURL. split.
  - intros [Hi | [Hs | Hc]].
    + rewrite Hi. reflexivity.
    + rewrite Hs, orb_true_r. reflexivity.
    + rewrite Hc, !orb_true_r. reflexivity.
  - intros Hi Hs Hc.
    rewrite !eqb_empty_false by assumption.
    rewrite sprintfStrings_authorize, append_empty_r. reflexivity.
Qed.

End AuthorizeFacts.

Section AuthorizeRuns.

Import Double.

Lemma GetAuthorizeURL_spec_witness :
  GetAuthorizeURL (H := scripted) (New "id" "" "https://app.example/callback")
  = Err (Errorf "Missing client data - cannot generate callback URL")
  /\ GetAuthorizeURL (H := scripted) session
     = Ok "https://login.eveonline.com/oauth/authorize?response_type=code&redirect_uri=https://app.example/callback&client_id=id&scope=".
Proof.
  split.
  - exact (proj1 (GetAuthorizeURL_spec (H := scripted)
                    (New "id" "" "https://app.example/callback"))
                 (or_intror (or_introl eq_refl))).
  - refine (proj2 (GetAuthorizeURL_spec (H := scripted) session) _ _ _);
      discriminate.
Defined.

End AuthorizeRuns.

(** ** The client: [Get], [Post], [WhoAmI], [Authenticate] *)

Section ClientFacts.

Context `{Collaborators}.

Lemma set_cache_id (e : ESI) : set_cache (cache e) e = e.
Proof. destruct e; reflexivity. Qed.

Lemma cache_set_cache (c : Cache) (e : ESI) : cache (set_cache c e) = c.
Proof. reflexivity. Qed.

Lemma machine_eta (m : Machine) : mkMachine (esi m) (server m) (calls m) = m.
Proof. destruct m; reflexivity. Qed.

(** What one run of [Get] does, branch by branch. *)
Lemma Get_run (m : Machine) (now : time.Time) (path : string) (args : list Operand) :
  Get now path args m =
  let url := canonicalURL (esi m) (Sprintf path args) in
  let c1 := snd (get (cache (esi m)) url now) in
  let e1 := set_cache c1 (esi m) in
  match fst (get (cache (esi m)) url now) with
  | Some doc => (Ok doc, mkMachine e1 (server m) (calls m))
  | None =>
    match newRequestError "GET" url with
    | Some err => (Err err, mkMachine e1 (server m) (calls m))
    | None =>
      let req := getRequest (esi m) url in
      match fst (roundTrip req (server m)) with
      | Err err =>
        (Err err, mkMachine e1 (snd (roundTrip req (server m))) (calls m ++ [req]))
      | Ok resp =>
        match ParseJSONBuffer (RespBody resp) with
        | Err err =>
          (Err err, mkMachine e1 (snd (roundTrip req (server m))) (calls m ++ [req]))
        | Ok json =>
          (Ok json,
           mkMachine
             (set_cache (snd (set c1 url (Some json) (RespHeader resp))) (esi m))
             (snd (roundTrip req (server m))) (calls m ++ [req]))
        end
      end
    end
  end.
Proof.
  unfold Get, canonicalURL, getRequest, NewRequest, Do, cacheGet, cacheSet,
    discard, liftR, self, mbind, M_bind, mret, M_ret.
  cbn [esi server calls fst snd].
  destruct (get (cache (esi m)) _ now) as [[doc |] c1]; cbn [esi server calls fst snd];
    [reflexivity |].
  destruct (newRequestError "GET" _) as [err |]; cbn [esi server calls fst snd];
    [reflexivity |].
  destruct (roundTrip _ (server m)) as [[resp | err] s];
    cbn [esi server calls fst snd]; [| reflexivity].
  destruct (ParseJSONBuffer (RespBody resp)) as [json | err];
    cbn [esi server calls fst snd]; [| reflexivity].
  rewrite cache_set_cache.
  destruct (set c1 _ (Some json) (RespHeader resp)) as [r c2]. reflexivity.
Qed.

(** What one run of [Post] does, branch by branch. *)
Lemma Post_run (m : Machine) (path data : string) :
  Post path data m =
  let url := canonicalURL (esi m) path in
  match newRequestError "POST" url with
  | Some err => (Err err, m)
  | None =>
    let req := postRequest (esi m) url data in
    let m' := mkMachine (esi m) (snd (roundTrip req (server m))) (calls m ++ [req]) in
    match fst (roundTrip req (server m)) with
    | Err err => (Err err, m')
    | Ok resp =>
      match ParseJSONBuffer (RespBody resp) with
      | Err err => (Err err, m')
      | Ok json => (Ok json, m')
      end
    end
  end.
Proof.
  unfold Post, canonicalURL, postRequest, NewRequest, Do, liftR, self,
    mbind, M_bind, mret, M_ret.
  cbn [esi server calls fst snd].
  destruct (newRequestError "POST" _) as [err |]; cbn [esi server calls fst snd];
    [reflexivity |].
  destruct (roundTrip _ (server m)) as [[resp | err] s];
    cbn [esi server calls fst snd]; [| reflexivity].
  destruct (ParseJSONBuffer (RespBody resp)) as [json | err]; reflexivity.
Qed.

(** What one run of [WhoAmI] does, branch by branch. *)
Lemma WhoAmI_run (m : Machine) :
  WhoAmI m =
  match newRequestError "GET" VerifyURL with
  | Some err => (Err err, m)
  | None =>
    let req := getRequest (esi m) VerifyURL in
    let m' := mkMachine (esi m) (snd (roundTrip req (server m))) (calls m ++ [req]) in
    match fst (roundTrip req (server m)) with
    | Err err => (Err err, m')
    | Ok resp =>
      match ParseJSONBuffer (RespBody resp) with
      | Err err => (Err err, m')
      | Ok json => (Ok json, m')
      end
    end
  end.
Proof.
  unfold WhoAmI, getRequest, NewRequest, Do, liftR, self,
    mbind, M_bind, mret, M_ret.
  cbn [esi server calls fst snd].
  destruct (newRequestError "GET" _) as [err |]; cbn [esi server calls fst snd];
    [reflexivity |].
  destruct (roundTrip _ (server m)) as [[resp | err] s];
    cbn [esi server calls fst snd]; [| reflexivity].
  destruct (ParseJSONBuffer (RespBody resp)) as [json | err]; reflexivity.
Qed.

(** What one run of [Authenticate] does, branch by branch. *)
Lemma Authenticate_run (m : Machine) (code : string) :
  Authenticate code m =
  match newRequestError "POST" TokenURL with
  | Some err => (Err err, m)
  | None =>
    let req := tokenRequest (esi m) code in
    let m' := mkMachine (esi m) (snd (roundTrip req (server m))) (calls m ++ [req]) in
    match fst (roundTrip req (server m)) with
    | Err err => (Err err, m')
    | Ok resp =>
      match ReadAll (RespBody resp) with
      | Err err => (Err err, m')
      | Ok body =>
        if String.eqb body "" || negb (StatusCode resp =? StatusOK)
        then (Err (Errorf "Response body is empty"), m')
        else
          match Unmarshal body with
          | Err err => (Err err, m')
          | Ok respData =>
            (Ok tt,
             mkMachine
               (set_tokens (ar_AccessToken respData) (ar_RefreshToken respData) (esi m))
               (snd (roundTrip req (server m))) (calls m ++ [req]))
          end
      end
    end
  end.
Proof.
  unfold Authenticate, tokenRequest, NewRequest, Do, liftR, self, storeTokens,
    mbind, M_bind, mret, M_ret.
  cbn [esi server calls fst snd].
  destruct (newRequestError "POST" _) as [err |]; cbn [esi server calls fst snd];
    [reflexivity |].
  destruct (roundTrip _ (server m)) as [[resp | err] s];
    cbn [esi server calls fst snd]; [| reflexivity].
  destruct (ReadAll (RespBody resp)) as [body | err];
    cbn [esi server calls fst snd]; [| reflexivity].
  destruct (String.eqb body "" || negb (StatusCode resp =? StatusOK));
    cbn [esi server calls fst snd]; [reflexivity |].
  destruct (Unmarshal body) as [respData | err]; reflexivity.
Qed.

Lemma Method_setupHeaders (e : ESI) (req : Request) :
  Method (setupHeaders e req) = Method req.
Proof. unfold setupHeaders. destruct (negb _); reflexivity. Qed.

Lemma URL_setupHeaders (e : ESI) (req : Request) :
  URL (setupHeaders e req) = URL req.
Proof. unfold setupHeaders. destruct (negb _); reflexivity. Qed.

Lemma ReqBody_setupHeaders (e : ESI) (req : Request) :
  ReqBody (setupHeaders e req) = ReqBody req.
Proof. unfold setupHeaders. destruct (negb _); reflexivity. Qed.

(** C2 (as amended). [Get] uses the canonical URL built from the
    formatted path.
    When the cache holds for that URL an entry with a document that
    is not expired, [Get] returns that document and nothing else
    happens: no request reaches the transport.  On a miss, once the
    request is built, exactly one request reaches the transport, a GET
    of that URL; when the transport answers and the body parses as
    JSON, [Get] returns the parsed document after handing it to the
    cache's [set] under that URL with the headers of the response, so
    that an Expires header that parses leaves the document stored
    with that expiry.  On a miss whose request cannot be built, [Get]
    returns the error of [http.NewRequest] and no request reaches the
    transport. *)
Theorem Get_cached_or_fetched
        (m : Machine) (now : time.Time) (path : string) (args : list Operand) :
  let url := canonicalURL (esi m) (Sprintf path args) in
  let req := getRequest (esi m) url in
  (forall entry doc,
      cache (esi m) !! url = Some entry ->
      time.Before (Expires entry) now = false ->
      Data entry = Some doc ->
      Get now path args m = (Ok doc, m))
  /\ (fst (get (cache (esi m)) url now) = None ->
      newRequestError "GET" url = None ->
      Method req = "GET" /\ URL req = url
      /\ calls (snd (Get now path args m)) = calls m ++ [req]
      /\ forall resp doc,
          fst (roundTrip req (server m)) = Ok resp ->
          ParseJSONBuffer (RespBody resp) = Ok doc ->
          fst (Get now path args m) = Ok doc
          /\ cache (esi (snd (Get now path args m)))
             = snd (set (snd (get (cache (esi m)) url now)) url (Some doc)
                        (RespHeader resp))
          /\ forall t,
              getExpiration (Header_Get (RespHeader resp) "Expires") = Ok t ->
              cache (esi (snd (Get now path args m))) !! url
              = Some (mkCacheEntry (Some doc) t))
  /\ (forall err,
      fst (get (cache (esi m)) url now) = None ->
      newRequestError "GET" url = Some err ->
      fst (Get now path args m) = Err err
      /\ calls (snd (Get now path args m)) = calls m).
Proof.
  intros url req. subst url req. split; [| split].
  - intros entry doc Hu Hb Hd. rewrite Get_run; cbv zeta.
    rewrite (get_fresh _ _ _ _ Hu Hb). cbn [fst snd]. rewrite Hd.
    rewrite set_cache_id, machine_eta. reflexivity.
  - intros Hmiss Hreq.
    split; [apply Method_setupHeaders |].
    split; [apply URL_setupHeaders |].
    rewrite Get_run; cbv zeta. rewrite Hmiss, Hreq.
    split.
    + destruct (fst (roundTrip _ (server m))) as [resp | err];
        [| reflexivity].
      destruct (ParseJSONBuffer (RespBody resp)); reflexivity.
    + intros resp doc Hresp Hjson. rewrite Hresp, Hjson. cbn [fst snd esi].
      split; [reflexivity |].
      split; [reflexivity |].
      intros t Ht. rewrite (set_parse_success _ _ _ _ _ Ht). cbn [snd].
      apply lookup_insert_eq.
  - intros err Hmiss Hreq. rewrite Get_run; cbv zeta. rewrite Hmiss, Hreq.
    split; reflexivity.
Qed.

(** C3. A [Get] whose round trip and JSON parse succeed returns the
    fetched document even when the Expires header of the response
    does not parse: the error of the cache's [set] is dropped, [set]
    has stored nothing (the cache is as the lookup left it, and no
    entry holding a document sits under the URL).  Every other error
    is handed to the caller as the result: in [Get], [Post] and
    [WhoAmI] the error of building the request, of the round trip and
    of the JSON parser; in [Authenticate] those of building the
    request, of the round trip, of reading the body, of an empty body
    or a status other than 200, and of decoding the body; in the
    cache's [set] the error of the expiry parser. *)
Theorem only_cache_write_failure_is_swallowed
        (m : Machine) (now : time.Time) (path data code : string)
        (args : list Operand) :
  let url := canonicalURL (esi m) (Sprintf path args) in
  let req := getRequest (esi m) url in
  let purl := canonicalURL (esi m) path in
  let preq := postRequest (esi m) purl data in
  let wreq := getRequest (esi m) VerifyURL in
  let treq := tokenRequest (esi m) code in
  (* the one swallowed error *)
  (forall resp doc perr,
      fst (get (cache (esi m)) url now) = None ->
      newRequestError "GET" url = None ->
      fst (roundTrip req (server m)) = Ok resp ->
      ParseJSONBuffer (RespBody resp) = Ok doc ->
      getExpiration (Header_Get (RespHeader resp) "Expires") = Err perr ->
      fst (Get now path args m) = Ok doc
      /\ cache (esi (snd (Get now path args m)))
         = snd (get (cache (esi m)) url now)
      /\ forall entry,
          cache (esi (snd (Get now path args m))) !! url = Some entry ->
          Data entry = None)
  (* Get *)
  /\ (forall err,
      fst (get (cache (esi m)) url now) = None ->
      newRequestError "GET" url = Some err
      \/ (newRequestError "GET" url = None
          /\ (fst (roundTrip req (server m)) = Err err
              \/ exists resp, fst (roundTrip req (server m)) = Ok resp
                              /\ ParseJSONBuffer (RespBody resp) = Err err)) ->
      fst (Get now path args m) = Err err)
  (* Post *)
  /\ (forall err,
      newRequestError "POST" purl = Some err
      \/ (newRequestError "POST" purl = None
          /\ (fst (roundTrip preq (server m)) = Err err
              \/ exists resp, fst (roundTrip preq (server m)) = Ok resp
                              /\ ParseJSONBuffer (RespBody resp) = Err err)) ->
      fst (Post path data m) = Err err)
  (* WhoAmI *)
  /\ (forall err,
      newRequestError "GET" VerifyURL = Some err
      \/ (newRequestError "GET" VerifyURL = None
          /\ (fst (roundTrip wreq (server m)) = Err err
              \/ exists resp, fst (roundTrip wreq (server m)) = Ok resp
                              /\ ParseJSONBuffer (RespBody resp) = Err err)) ->
      fst (WhoAmI m) = Err err)
  (* Authenticate *)
  /\ (forall err,
      newRequestError "POST" TokenURL = Some err
      \/ (newRequestError "POST" TokenURL = None
          /\ (fst (roundTrip treq (server m)) = Err err
              \/ exists resp, fst (roundTrip treq (server m)) = Ok resp
                   /\ (ReadAll (RespBody resp) = Err err
                       \/ exists body, ReadAll (RespBody resp) = Ok body
                            /\ ((err = Errorf "Response body is empty"
                                 /\ (body = "" \/ StatusCode resp <> StatusOK))
                                \/ (body <> "" /\ StatusCode resp = StatusOK
                                    /\ Unmarshal body = Err err))))) ->
      fst (Authenticate code m) = Err err)
  (* the cache's set *)
  /\ (forall c u d h err,
      getExpiration (Header_Get h "Expires") = Err err ->
      fst (set c u d h) = Err err).
Proof.
  intros url req purl preq wreq treq.
  subst url req purl preq wreq treq.
  split; [| split; [| split; [| split; [| split]]]].
  - intros resp doc perr Hmiss Hreq Hresp Hjson Hexp.
    rewrite Get_run; cbv zeta.
    rewrite Hmiss, Hreq, Hresp, Hjson. cbn [fst snd esi].
    rewrite (set_parse_failure _ _ _ _ _ Hexp). cbn [snd].
    rewrite cache_set_cache.
    split; [reflexivity |]. split; [reflexivity |].
    intros entry Hentry.
    destruct (get_miss_inv _ _ _ Hmiss)
      as [[Hnone Hc] | [(e0 & Hu & Hb & Hc) | (e0 & Hu & Hb & Hd & Hc)]];
      rewrite Hc in Hentry.
    + congruence.
    + rewrite lookup_delete_eq in Hentry. discriminate.
    + congruence.
  - intros err Hmiss Hcase. rewrite Get_run; cbv zeta.
    rewrite Hmiss.
    destruct Hcase as [Hreq | [Hreq [Hresp | (resp & Hresp & Hjson)]]];
      rewrite Hreq; try rewrite Hresp; try rewrite Hjson; reflexivity.
  - intros err Hcase. rewrite Post_run; cbv zeta.
    destruct Hcase as [Hreq | [Hreq [Hresp | (resp & Hresp & Hjson)]]];
      rewrite Hreq; try rewrite Hresp; try rewrite Hjson; reflexivity.
  - intros err Hcase. rewrite WhoAmI_run; cbv zeta.
    destruct Hcase as [Hreq | [Hreq [Hresp | (resp & Hresp & Hjson)]]];
      rewrite Hreq; try rewrite Hresp; try rewrite Hjson; reflexivity.
  - intros err Hcase. rewrite Authenticate_run; cbv zeta.
    destruct Hcase as [Hreq | [Hreq [Hresp | (resp & Hresp & Hbody)]]];
      rewrite Hreq; [reflexivity | rewrite Hresp; reflexivity |].
    rewrite Hresp.
    destruct Hbody as [Hread | (body & Hread & Hrest)];
      rewrite Hread; [reflexivity |].
    destruct Hrest as [[-> [Hb | Hs]] | (Hb & Hs & Hu)].
    + rewrite Hb. reflexivity.
    + apply Z.eqb_neq in Hs. rewrite Hs, orb_true_r. reflexivity.
    + apply String.eqb_neq in Hb. rewrite Hb, Hs, Z.eqb_refl, Hu. reflexivity.
  - intros c u d h err Hexp. rewrite (set_parse_failure _ _ _ _ _ Hexp).
    reflexivity.
Qed.

Lemma canonicalURL_with_cache (c : Cache) (m : Machine) (p : string) :
  canonicalURL (esi (with_cache c m)) p = canonicalURL (esi m) p.
Proof. reflexivity. Qed.

Lemma postRequest_with_cache (c : Cache) (m : Machine) (url data : string) :
  postRequest (esi (with_cache c m)) url data = postRequest (esi m) url data.
Proof. reflexivity. Qed.

(** C7 (as amended). [Post] builds the canonical URL from the path
    as it is and,
    once the request is built, hands the transport one POST of that
    URL carrying the given body, and returns the parsed JSON of the
    answer; when the request cannot be built it returns the error of
    [http.NewRequest] and nothing else happens.  It never writes the
    cache (the receiver, cache included, is as before, whatever the
    outcome) and never reads it (with any other cache in place of the
    current one the result and the requests made are the same): in
    particular an entry cached under the same URL by an earlier [Get]
    does not keep a request that can be built from reaching the
    transport. *)
Theorem Post_bypasses_cache (m : Machine) (path data : string) :
  let url := canonicalURL (esi m) path in
  let req := postRequest (esi m) url data in
  esi (snd (Post path data m)) = esi m
  /\ (forall c : Cache,
        fst (Post path data (with_cache c m)) = fst (Post path data m)
        /\ calls (snd (Post path data (with_cache c m)))
           = calls (snd (Post path data m))
        /\ cache (esi (snd (Post path data (with_cache c m)))) = c)
  /\ (forall args, Sprintf path args = path ->
        url = canonicalURL (esi m) (Sprintf path args))
  /\ (newRequestError "POST" url = None ->
      Method req = "POST" /\ URL req = url /\ ReqBody req = Some data
      /\ calls (snd (Post path data m)) = calls m ++ [req]
      /\ forall resp doc,
          fst (roundTrip req (server m)) = Ok resp ->
          ParseJSONBuffer (RespBody resp) = Ok doc ->
          fst (Post path data m) = Ok doc)
  /\ (forall err, newRequestError "POST" url = Some err ->
        Post path data m = (Err err, m)).
Proof.
  intros url req. subst url req.
  assert (Hframe : forall m0 : Machine, esi (snd (Post path data m0)) = esi m0).
  { intros m0. rewrite Post_run; cbv zeta.
    destruct (newRequestError "POST" _); [reflexivity |].
    destruct (fst (roundTrip _ (server m0))) as [resp | err]; [| reflexivity].
    destruct (ParseJSONBuffer (RespBody resp)); reflexivity. }
  split; [apply Hframe |].
  split.
  { intros c. rewrite Hframe.
    split; [| split; [| reflexivity]].
    - rewrite !Post_run; cbv zeta.
      rewrite canonicalURL_with_cache, postRequest_with_cache.
      change (server (with_cache c m)) with (server m).
      destruct (newRequestError "POST" _); [reflexivity |].
      destruct (fst (roundTrip _ (server m))) as [resp | err]; [| reflexivity].
      destruct (ParseJSONBuffer (RespBody resp)); reflexivity.
    - rewrite !Post_run; cbv zeta.
      rewrite canonicalURL_with_cache, postRequest_with_cache.
      change (server (with_cache c m)) with (server m).
      change (calls (with_cache c m)) with (calls m).
      destruct (newRequestError "POST" _); [reflexivity |].
      destruct (fst (roundTrip _ (server m))) as [resp | err]; [| reflexivity].
      destruct (ParseJSONBuffer (RespBody resp)); reflexivity. }
  split.
  { intros args Hargs. rewrite Hargs. reflexivity. }
  split.
  - intros Hreq.
    split; [apply Method_setupHeaders |].
    split; [apply URL_setupHeaders |].
    split; [apply ReqBody_setupHeaders |].
    rewrite Post_run; cbv zeta. rewrite Hreq.
    split.
    + destruct (fst (roundTrip _ (server m))) as [resp | err]; [| reflexivity].
      destruct (ParseJSONBuffer (RespBody resp)); reflexivity.
    + intros resp doc Hresp Hjson. rewrite Hresp, Hjson. reflexivity.
  - intros err Hreq. rewrite Post_run; cbv zeta. rewrite Hreq. reflexivity.
Qed.

(** C9. Once the token request is built, [Authenticate] fails exactly
    when the transport errors, the response body is empty, the status
    is not 200, or the body does not decode into the token shape; and
    when it succeeds the receiver is what it was with the access
    token and the refresh token replaced by the decoded ones, nothing
    else changed. *)
Theorem Authenticate_fails_exactly_when (m : Machine) (code : string) :
  newRequestError "POST" TokenURL = None ->
  let r := fst (roundTrip (tokenRequest (esi m) code) (server m)) in
  ((exists err, fst (Authenticate code m) = Err err) <-> exchangeFails r)
  /\ (fst (Authenticate code m) = Ok tt ->
      exists resp body respData,
        r = Ok resp
        /\ ReadAll (RespBody resp) = Ok body
        /\ Unmarshal body = Ok respData
        /\ esi (snd (Authenticate code m))
           = set_tokens (ar_AccessToken respData) (ar_RefreshToken respData) (esi m)
        /\ AccessToken (esi (snd (Authenticate code m))) = ar_AccessToken respData
        /\ RefreshToken (esi (snd (Authenticate code m))) = ar_RefreshToken respData
        /\ cache (esi (snd (Authenticate code m))) = cache (esi m)).
Proof.
  intros Hreq r. subst r.
  rewrite Authenticate_run; cbv zeta. rewrite Hreq.
  unfold exchangeFails, transportErrors, bodyIs, statusIsNot200.
  destruct (fst (roundTrip _ (server m))) as [resp | err0] eqn:Hresp.
  2:{ split; [| discriminate]. split; [auto | intros _; eauto]. }
  destruct (ReadAll (RespBody resp)) as [body | err0] eqn:Hread.
  2:{ split; [| discriminate]. split; [eauto | intros _; eauto]. }
  destruct (String.eqb_spec body "") as [Hb | Hb].
  { cbn [orb]. split; [| discriminate].
    split; [| intros _; eauto]. intros _. right. left. eauto. }
  destruct (Z.eqb_spec (StatusCode resp) StatusOK) as [Hs | Hs].
  2:{ cbn [orb negb]. split; [| discriminate].
      split; [| intros _; eauto]. intros _. right. right. left. exact Hs. }
  cbn [orb negb].
  destruct (Unmarshal body) as [respData | err0] eqn:Hu.
  - split.
    + split.
      * intros [err Herr]. discriminate.
      * intros [[err Herr] | [(b & Hrb & Hbe) | [Hns | (b & Hrb & err & Hue)]]].
        -- discriminate.
        -- congruence.
        -- contradiction.
        -- assert (b = body) by congruence. subst b. congruence.
    + intros _. exists resp, body, respData. cbn [fst snd esi].
      repeat split; try reflexivity; assumption.
  - split; [| discriminate].
    split; [| intros _; eauto].
    intros _. right. right. right. eauto.
Qed.

(** Each failing path of [Authenticate], one by one, ends in a failure. *)
Lemma Authenticate_failing_paths (m : Machine) (code : string) :
  let req := tokenRequest (esi m) code in
  (forall err, newRequestError "POST" TokenURL = Some err ->
               fst (Authenticate code m) = Err err)
  /\ (newRequestError "POST" TokenURL = None ->
      (forall err, fst (roundTrip req (server m)) = Err err ->
                   fst (Authenticate code m) = Err err)
      /\ (forall resp, fst (roundTrip req (server m)) = Ok resp ->
          (forall err, ReadAll (RespBody resp) = Err err ->
                       fst (Authenticate code m) = Err err)
          /\ (forall body, ReadAll (RespBody resp) = Ok body ->
              (body = "" ->
               fst (Authenticate code m) = Err (Errorf "Response body is empty"))
              /\ (StatusCode resp <> StatusOK ->
                  fst (Authenticate code m) = Err (Errorf "Response body is empty"))
              /\ (forall err, body <> "" -> StatusCode resp = StatusOK ->
                              Unmarshal body = Err err ->
                              fst (Authenticate code m) = Err err)))).
Proof.
  intros req. subst req. rewrite Authenticate_run; cbv zeta.
  split; [intros err ->; reflexivity |].
  intros ->. split; [intros err ->; reflexivity |].
  intros resp ->. split; [intros err ->; reflexivity |].
  intros body ->. split; [intros ->; reflexivity |].
  split.
  - intros Hs. apply Z.eqb_neq in Hs. rewrite Hs, orb_true_r. reflexivity.
  - intros err Hb Hs Hu. apply String.eqb_neq in Hb.
    rewrite Hb, Hs, Z.eqb_refl, Hu. reflexivity.
Qed.

Lemma failingPath_fails (m : Machine) (code : string) :
  failingPath m code -> exists err, fst (Authenticate code m) = Err err.
Proof.
  pose proof (Authenticate_failing_paths m code) as Hpaths. cbv zeta in Hpaths.
  destruct Hpaths as [Hbuild Hrest].
  intros [err Hreq | err Hreq Hresp | resp err Hreq Hresp Hread
          | resp Hreq Hresp Hread | resp body Hreq Hresp Hread Hs
          | resp body err Hreq Hresp Hread Hb Hs Hu].
  - exists err. exact (Hbuild _ Hreq).
  - exists err. exact (proj1 (Hrest Hreq) _ Hresp).
  - exists err. exact (proj1 (proj2 (Hrest Hreq) _ Hresp) _ Hread).
  - eexists. exact (proj1 (proj2 (proj2 (Hrest Hreq) _ Hresp) _ Hread) eq_refl).
  - eexists.
    exact (proj1 (proj2 (proj2 (proj2 (Hrest Hreq) _ Hresp) _ Hread)) Hs).
  - exists err.
    exact (proj2 (proj2 (proj2 (proj2 (Hrest Hreq) _ Hresp) _ Hread)) _ Hb Hs Hu).
Qed.

Lemma Authenticate_failure_frame (m : Machine) (code : string) (err : error) :
  fst (Authenticate code m) = Err err ->
  esi (snd (Authenticate code m)) = esi m.
Proof.
  rewrite Authenticate_run; cbv zeta.
  destruct (newRequestError "POST" TokenURL); [auto |].
  destruct (fst (roundTrip _ (server m))) as [resp | err0]; [| auto].
  destruct (ReadAll (RespBody resp)) as [body | err0]; [| auto].
  destruct (String.eqb body "" || negb (StatusCode resp =? StatusOK)); [auto |].
  destruct (Unmarshal body) as [respData | err0]; [discriminate | auto].
Qed.

(** C10. On every failing path of [Authenticate] (the request cannot
    be built, the round trip fails, the body cannot be read, the body
    is empty, the status is not 200, the body does not decode) the call
    returns an error and the receiver is exactly as before: the access
    token and the refresh token keep their prior values.  More
    generally, whenever the call returns an error the tokens are
    untouched: they are stored only after every check has passed. *)
Theorem Authenticate_failure_keeps_tokens (m : Machine) (code : string) :
  (failingPath m code ->
   (exists err, fst (Authenticate code m) = Err err)
   /\ AccessToken (esi (snd (Authenticate code m))) = AccessToken (esi m)
   /\ RefreshToken (esi (snd (Authenticate code m))) = RefreshToken (esi m))
  /\ (forall err,
        fst (Authenticate code m) = Err err ->
        AccessToken (esi (snd (Authenticate code m))) = AccessToken (esi m)
        /\ RefreshToken (esi (snd (Authenticate code m))) = RefreshToken (esi m)
        /\ esi (snd (Authenticate code m)) = esi m).
Proof.
  assert (Hkeep : forall err,
             fst (Authenticate code m) = Err err ->
             AccessToken (esi (snd (Authenticate code m))) = AccessToken (esi m)
             /\ RefreshToken (esi (snd (Authenticate code m))) = RefreshToken (esi m)
             /\ esi (snd (Authenticate code m)) = esi m).
  { intros err Herr. rewrite (Authenticate_failure_frame m code err Herr). auto. }
  split; [| exact Hkeep].
  intros Hpath. destruct (failingPath_fails m code Hpath) as [err Herr].
  destruct (Hkeep err Herr) as (Ha & Hr & _).
  split; [exists err; exact Herr |]. split; assumption.
Qed.

End ClientFacts.

Section ClientRuns.

Import Double.

(** [http.NewRequest] rejects the URL of the path "100%!".  The read
    of the cache misses, [Get] returns the error and no request
    reaches the transport, though the server had an answer ready:
    not every miss performs a transport GET. *)
Lemma Get_unbuilt_request_counterexample :
  fst (get (H := scripted) (cache (esi (facing [reply 200 goodExpires "{}"])))
           (canonicalURL (esi (facing [reply 200 goodExpires "{}"]))
                         (Sprintf (Collaborators := scripted) "100%!" []))
           t_earlier) = None
  /\ Get (H := scripted) t_earlier "100%!" [] (facing [reply 200 goodExpires "{}"])
     = (Err (LibError "invalid URL escape"), facing [reply 200 goodExpires "{}"])
  /\ ~ Get_miss_makes_one_request (facing [reply 200 goodExpires "{}"])
                                  t_earlier "100%!" [].
Proof.
  assert (Hget : Get (H := scripted) t_earlier "100%!" []
                     (facing [reply 200 goodExpires "{}"])
                 = (Err (LibError "invalid URL escape"),
                    facing [reply 200 goodExpires "{}"])).
  { vm_compute. reflexivity. }
  split; [reflexivity |].
  split; [exact Hget |].
  unfold Get_miss_makes_one_request. intros Hone.
  destruct (Hone eq_refl) as (req & _ & _ & Hcalls).
  rewrite Hget in Hcalls. discriminate Hcalls.
Qed.

(** The same for [Post]: on the path "100%!" no POST is issued, with
    or without an entry in the cache. *)
Lemma Post_unbuilt_request_counterexample :
  Post (H := scripted) "100%!" "[1]" (warm [reply 200 goodExpires "{}"])
  = (Err (LibError "invalid URL escape"), warm [reply 200 goodExpires "{}"])
  /\ ~ Post_makes_a_request (warm [reply 200 goodExpires "{}"]) "100%!" "[1]".
Proof.
  assert (Hpost : Post (H := scripted) "100%!" "[1]"
                       (warm [reply 200 goodExpires "{}"])
                  = (Err (LibError "invalid URL escape"),
                     warm [reply 200 goodExpires "{}"])).
  { vm_compute. reflexivity. }
  split; [exact Hpost |].
  intros (req & _ & _ & Hcalls).
  rewrite Hpost in Hcalls. discriminate Hcalls.
Qed.

Lemma Get_cached_or_fetched_witness :
  (* a hit: no request is made *)
  Get (H := scripted) t_earlier "wars/%s" ["10000"] (warm [])
  = (Ok "{}", warm [])
  (* a miss: one GET, the document is returned and stored *)
  /\ fst (get (H := scripted) ∅ warsURL t_earlier) = None
  /\ fst (Get (H := scripted) t_earlier "wars/%s" ["10000"]
              (facing [reply 200 goodExpires "{}"])) = Ok "{}"
  /\ calls (snd (Get (H := scripted) t_earlier "wars/%s" ["10000"]
                     (facing [reply 200 goodExpires "{}"])))
     = [] ++ [getRequest session warsURL]
  /\ cache (esi (snd (Get (H := scripted) t_earlier "wars/%s" ["10000"]
                          (facing [reply 200 goodExpires "{}"])))) !! warsURL
     = Some (entry (Some "{}") (time.mkTime 1510248434 0 (time.FixedZone "GMT" 0)))
  (* a miss whose request cannot be built: the error, and no request *)
  /\ fst (Get (H := scripted) t_earlier "100%!" []
              (facing [reply 200 goodExpires "{}"]))
     = Err (LibError "invalid URL escape")
  /\ calls (snd (Get (H := scripted) t_earlier "100%!" []
                     (facing [reply 200 goodExpires "{}"]))) = [].
Proof.
  pose proof (Get_cached_or_fetched (H := scripted)
                (facing [reply 200 goodExpires "{}"]) t_earlier
                "100%!" []) as Hbad.
  pose proof (Get_cached_or_fetched (H := scripted) (warm []) t_earlier
                "wars/%s" ["10000"]) as Hwarm.
  pose proof (Get_cached_or_fetched (H := scripted)
                (facing [reply 200 goodExpires "{}"]) t_earlier
                "wars/%s" ["10000"]) as Hcold.
  cbv zeta in Hwarm, Hcold, Hbad.
  destruct Hwarm as [Hhit _]. destruct Hcold as (_ & Hmiss & _).
  destruct Hbad as (_ & _ & Hunbuilt).
  split.
  { apply (Hhit (entry (Some "{}") t_expiry) "{}").
    - apply (lookup_singleton_eq (M := gmap string)).
    - reflexivity.
    - reflexivity. }
  split; [reflexivity |].
  destruct (Hmiss eq_refl eq_refl) as (_ & _ & Hcalls & Hfetch).
  destruct (Hfetch (mkResponse 200 (expiresHeader goodExpires) "{}") "{}"
                   eq_refl eq_refl) as (Hres & _ & Hstored).
  split; [exact Hres |].
  split; [exact Hcalls |].
  split; [exact (Hstored _ goodExpires_parses) |].
  exact (Hunbuilt (LibError "invalid URL escape") eq_refl eq_refl).
Defined.

Lemma only_cache_write_failure_is_swallowed_witness :
  (* an Expires header that does not parse: the document still arrives *)
  getExpiration (H := scripted) (Header_Get (expiresHeader "tomorrow") "Expires")
  = Err (ParseError errBad)
  /\ fst (Get (H := scripted) t_earlier "wars/%s" ["10000"]
              (facing [reply 200 "tomorrow" "{}"])) = Ok "{}"
  /\ cache (esi (snd (Get (H := scripted) t_earlier "wars/%s" ["10000"]
                          (facing [reply 200 "tomorrow" "{}"])))) = ∅
  (* a transport failure reaches the caller *)
  /\ fst (Get (H := scripted) t_earlier "wars/%s" ["10000"] (facing []))
     = Err (LibError "connection refused")
  (* so does a body that is not JSON, sent to Post *)
  /\ fst (Post (H := scripted) "characters/affiliation" "[1]"
               (facing [reply 200 goodExpires "oops"]))
     = Err (LibError "invalid character")
  (* and a URL that cannot be made into a request *)
  /\ fst (Post (H := scripted) "100%!" "[1]" (facing []))
     = Err (LibError "invalid URL escape").
Proof.
  pose proof (only_cache_write_failure_is_swallowed (H := scripted)
                (facing [reply 200 "tomorrow" "{}"]) t_earlier
                "wars/%s" "" "" ["10000"]) as Hswallow.
  pose proof (only_cache_write_failure_is_swallowed (H := scripted)
                (facing []) t_earlier "wars/%s" "" "" ["10000"]) as Hdown.
  pose proof (only_cache_write_failure_is_swallowed (H := scripted)
                (facing [reply 200 goodExpires "oops"]) t_earlier
                "characters/affiliation" "[1]" "" []) as Hjunk.
  pose proof (only_cache_write_failure_is_swallowed (H := scripted)
                (facing []) t_earlier "100%!" "[1]" "" []) as Hurl.
  cbv zeta in Hswallow, Hdown, Hjunk, Hurl.
  destruct Hswallow as [Hswallow _].
  destruct Hdown as (_ & Hdown & _).
  destruct Hjunk as (_ & _ & Hjunk & _).
  destruct Hurl as (_ & _ & Hurl & _).
  split; [exact badExpires_fails |].
  destruct (Hswallow (mkResponse 200 (expiresHeader "tomorrow") "{}") "{}" _
                     eq_refl eq_refl eq_refl eq_refl badExpires_fails)
    as (Hres & Hcache & _).
  split; [exact Hres |].
  split; [exact Hcache |].
  split.
  { apply Hdown; [reflexivity |]. right. split; [reflexivity |].
    left. reflexivity. }
  split.
  { apply Hjunk. right. split; [reflexivity |]. right.
    exists (mkResponse 200 (expiresHeader goodExpires) "oops").
    split; reflexivity. }
  apply Hurl. left. reflexivity.
Defined.

Lemma Post_bypasses_cache_witness :
  (* the URL of the POST is the one a Get cached a document under *)
  cache (esi (warm [reply 200 goodExpires "{}"])) !! warsURL
  = Some (entry (Some "{}") t_expiry)
  /\ newRequestError (Collaborators := scripted) "POST" warsURL = None
  (* and still the request goes out, and the cache is as before *)
  /\ calls (snd (Post (H := scripted) "wars/10000" "[1]"
                      (warm [reply 200 goodExpires "{}"])))
     = [] ++ [postRequest (esi (warm [])) warsURL "[1]"]
  /\ fst (Post (H := scripted) "wars/10000" "[1]"
               (warm [reply 200 goodExpires "{}"])) = Ok "{}"
  /\ esi (snd (Post (H := scripted) "wars/10000" "[1]"
                    (warm [reply 200 goodExpires "{}"])))
     = esi (warm [])
  (* a request that cannot be built: the error, and nothing else *)
  /\ Post (H := scripted) "100%!" "[1]" (warm [reply 200 goodExpires "{}"])
     = (Err (LibError "invalid URL escape"), warm [reply 200 goodExpires "{}"]).
Proof.
  pose proof (Post_bypasses_cache (H := scripted)
                (warm [reply 200 goodExpires "{}"]) "100%!" "[1]") as Hbad.
  pose proof (Post_bypasses_cache (H := scripted)
                (warm [reply 200 goodExpires "{}"]) "wars/10000" "[1]") as Hpost.
  cbv zeta in Hpost, Hbad.
  destruct Hbad as (_ & _ & _ & _ & Hunbuilt).
  destruct Hpost as (Hframe & _ & _ & Hsend & _).
  split; [apply (lookup_singleton_eq (M := gmap string)) |].
  split; [reflexivity |].
  destruct (Hsend eq_refl) as (_ & _ & _ & Hcalls & Hres).
  split; [exact Hcalls |].
  split; [exact (Hres (mkResponse 200 (expiresHeader goodExpires) "{}") "{}"
                      eq_refl eq_refl) |].
  split; [exact Hframe |].
  exact (Hunbuilt (LibError "invalid URL escape") eq_refl).
Defined.

Lemma Authenticate_fails_exactly_when_witness :
  newRequestError (Collaborators := scripted) "POST" TokenURL = None
  (* a 200 answer with a body that decodes: the tokens are replaced *)
  /\ (fst (Authenticate (H := scripted) "c0de" (warm [reply 200 "" "{}"])) = Ok tt
      /\ AccessToken (esi (warm [])) = "access-0"
      /\ AccessToken (esi (snd (Authenticate (H := scripted) "c0de"
                                  (warm [reply 200 "" "{}"])))) = "access-1"
      /\ RefreshToken (esi (snd (Authenticate (H := scripted) "c0de"
                                   (warm [reply 200 "" "{}"])))) = "refresh-1")
  (* a 500 answer: failure *)
  /\ exchangeFails (H := scripted) (reply 500 "" "{}")
  /\ exists err, fst (Authenticate (H := scripted) "c0de"
                        (warm [reply 500 "" "{}"])) = Err err.
Proof.
  split; [reflexivity |].
  split.
  - destruct (Authenticate_fails_exactly_when (H := scripted)
                (warm [reply 200 "" "{}"]) "c0de" eq_refl) as [_ Hok].
    destruct (Hok eq_refl)
      as (resp & body & respData & Hresp & Hread & Hu & _ & Ha & Hr & _).
    split; [reflexivity |]. split; [reflexivity |].
    injection Hresp as <-. injection Hread as <-. injection Hu as <-.
    split; [exact Ha | exact Hr].
  - assert (Hfail : exchangeFails (H := scripted) (reply 500 "" "{}")).
    { right. right. left. discriminate. }
    split; [exact Hfail |].
    destruct (Authenticate_fails_exactly_when (H := scripted)
                (warm [reply 500 "" "{}"]) "c0de" eq_refl) as [Hiff _].
    exact (proj2 Hiff Hfail).
Defined.

Lemma Authenticate_failure_keeps_tokens_witness :
  fst (Authenticate (H := scripted) "c0de" (warm [reply 200 "" "<reset>"]))
  = Err (LibError "connection reset by peer")
  /\ AccessToken (esi (snd (Authenticate (H := scripted) "c0de"
                              (warm [reply 200 "" "<reset>"])))) = "access-0"
  /\ RefreshToken (esi (snd (Authenticate (H := scripted) "c0de"
                               (warm [reply 200 "" "<reset>"])))) = "refresh-0".
Proof.
  split; [reflexivity |].
  assert (Hpath : failingPath (H := scripted) (warm [reply 200 "" "<reset>"]) "c0de").
  { apply (bodyReadError (H := scripted) _ _
             (mkResponse 200 (expiresHeader "") "<reset>")
             (LibError "connection reset by peer")); reflexivity. }
  destruct (proj1 (Authenticate_failure_keeps_tokens (H := scripted)
                     (warm [reply 200 "" "<reset>"]) "c0de") Hpath)
    as (_ & Ha & Hr).
  split; [exact Ha | exact Hr].
Defined.

End ClientRuns.


(** * Further properties of the code *)

(** ** Instants, as an order *)

Section OrderFacts.

Import time.

Lemma Before_true_iff (t u : Time) :
  Before t u = true
  <-> unixSec t < unixSec u \/ (unixSec t = unixSec u /\ nsec t < nsec u).
Proof.
  unfold Before. rewrite orb_true_iff, andb_true_iff.
  rewrite !Z.ltb_lt, Z.eqb_eq. reflexivity.
Qed.

Lemma Before_false_iff (t u : Time) :
  Before t u = false
  <-> unixSec u < unixSec t \/ (unixSec t = unixSec u /\ nsec u <= nsec t).
Proof.
  unfold Before. rewrite orb_false_iff, andb_false_iff.
  rewrite !Z.ltb_ge, Z.eqb_neq. lia.
Qed.

End OrderFacts.

(** ** The cache, read and written in sequence *)

Section CacheSequences.

Context `{Collaborators}.

(** X1. A second read of the same url at the same time returns what
    the first returned and changes nothing more: whatever eviction a
    read has to do, it does at once. *)
Theorem get_twice_same_time (c : Cache) (u : string) (now : time.Time) :
  get (snd (get c u now)) u now = (fst (get c u now), snd (get c u now)).
Proof.
  unfold get at 2 3 4. destruct (c !! u) as [entry |] eqn:Hu.
  - destruct (time.Before (Expires entry) now) eqn:Hb; cbn [fst snd].
    + apply get_absent, lookup_delete_eq.
    + apply (get_fresh _ _ _ _ Hu Hb).
  - cbn [fst snd]. apply get_absent, Hu.
Qed.

(** X2. Reads are monotone in time.  An entry that a read serves at
    some time is served, with the cache untouched, at every time that
    is not later; an entry that a read evicts at some time is evicted at
    every time that is not earlier. *)
Theorem get_monotone_in_time (c : Cache) (u : string) (t1 t2 : time.Time) :
  time.Before t2 t1 = false ->
  (forall doc, fst (get c u t2) = Some doc -> get c u t1 = (Some doc, c))
  /\ (forall entry, c !! u = Some entry ->
        get c u t1 = (None, delete u c) -> get c u t2 = (None, delete u c)).
Proof.
  intros Hle. apply Before_false_iff in Hle. split.
  - intros doc. unfold get. destruct (c !! u) as [entry |]; [| discriminate].
    destruct (time.Before (Expires entry) t2) eqn:Hb2; [discriminate |].
    cbn [fst]. intros Hd.
    assert (Hb1 : time.Before (Expires entry) t1 = false).
    { apply Before_false_iff. apply Before_false_iff in Hb2. lia. }
    rewrite Hb1, Hd. reflexivity.
  - intros entry Hu. unfold get. rewrite Hu.
    destruct (time.Before (Expires entry) t1) eqn:Hb1.
    + intros _.
      assert (Hb2 : time.Before (Expires entry) t2 = true).
      { apply Before_true_iff. apply Before_true_iff in Hb1. lia. }
      rewrite Hb2. reflexivity.
    + intros Heq. exfalso.
      assert (Hl : delete u c !! u = c !! u) by (injection Heq as _ <-; reflexivity).
      rewrite lookup_delete_eq, Hu in Hl. discriminate.
Qed.

(** X3. Writing an entry whose Expires header parses to an instant
    strictly before the current time and reading it back returns
    nothing, and the read leaves no entry under the url: neither the
    one just written nor the one it replaced. *)
Theorem set_expired_then_get (c : Cache) (u : string) (doc : option Container)
        (h : Header) (expires now : time.Time) :
  getExpiration (Header_Get h "Expires") = Ok expires ->
  time.Before expires now = true ->
  get (snd (set c u doc h)) u now = (None, delete u c)
  /\ snd (get (snd (set c u doc h)) u now) !! u = None.
Proof.
  intros Hp Hb. rewrite (set_parse_success _ _ _ _ _ Hp). cbn [snd].
  rewrite (get_expired _ _ _ (mkCacheEntry doc expires)
             (lookup_insert_eq _ _ _) Hb).
  rewrite delete_insert_eq. split; [reflexivity |].
  cbn [snd]. apply lookup_delete_eq.
Qed.

(** X4. A write under one url does not change what a read of another
    url returns, whether the write succeeded or not. *)
Theorem set_frames_other_keys (c : Cache) (u u' : string)
        (doc : option Container) (h : Header) (now : time.Time) :
  u' <> u ->
  snd (set c u doc h) !! u' = c !! u'
  /\ fst (get (snd (set c u doc h)) u' now) = fst (get c u' now).
Proof.
  intros Hne.
  assert (Hl : snd (set c u doc h) !! u' = c !! u').
  { unfold set. destruct (getExpiration _); cbn [snd]; [| reflexivity].
    apply lookup_insert_ne. congruence. }
  split; [exact Hl |].
  unfold get. rewrite Hl. destruct (c !! u') as [entry |]; [| reflexivity].
  destruct (time.Before (Expires entry) now); reflexivity.
Qed.

Lemma getExpiration_empty : getExpiration "" = Err (ParseError errBad).
Proof. rewrite getExpiration_Parse. reflexivity. Qed.

(** X5. A response without an Expires header, or with an empty one, is
    never stored: [set] fails with a parse error and the cache is as
    before. *)
Theorem set_without_expires_header (c : Cache) (u : string)
        (doc : option Container) (h : Header) :
  h !! "Expires" = None \/ h !! "Expires" = Some []
  \/ (exists vs, h !! "Expires" = Some ("" :: vs)) ->
  set c u doc h = (Err (ParseError errBad), c).
Proof.
  intros Hh. apply set_parse_failure.
  assert (Hget : Header_Get h "Expires" = "").
  { unfold Header_Get. destruct Hh as [-> | [-> | [vs ->]]]; reflexivity. }
  rewrite Hget. apply getExpiration_empty.
Qed.

End CacheSequences.

(** ** The headers of the requests *)

Section HeaderFacts.

Context `{Collaborators}.

Lemma lookup_Header_Add_other (k k' v : string) (h : Header) :
  k <> k' -> Header_Add k v h !! k' = h !! k'.
Proof. intros Hne. unfold Header_Add. apply lookup_insert_ne, Hne. Qed.

Lemma Header_Get_Add_new (k v : string) (h : Header) :
  h !! k = None -> Header_Get (Header_Add k v h) k = v.
Proof.
  intros Hk. unfold Header_Get, Header_Add.
  rewrite lookup_insert_eq, Hk. reflexivity.
Qed.

Lemma Header_Get_Add_other (k k' v : string) (h : Header) :
  k <> k' -> Header_Get (Header_Add k v h) k' = Header_Get h k'.
Proof.
  intros Hne. unfold Header_Get. rewrite lookup_Header_Add_other by exact Hne.
  reflexivity.
Qed.

(** With an access token, the request gets its bearer header. *)
Lemma setupHeaders_bearer (e : ESI) (method url : string) (body : option string) :
  AccessToken e <> "" ->
  ReqHeader (setupHeaders e (mkRequest method url ∅ body)) !! "Authorization"
  = Some ["Bearer " +:+ AccessToken e].
Proof.
  intros Hfull. unfold setupHeaders, addHeader. cbn [ReqHeader Method URL ReqBody].
  destruct (String.eqb_spec (AccessToken e) "") as [Hempty | _];
    [contradiction |].
  cbn [negb ReqHeader]. unfold Header_Add at 1. rewrite lookup_insert_eq.
  rewrite !lookup_Header_Add_other by discriminate.
  rewrite lookup_empty. reflexivity.
Qed.

(** X6. On a request fresh from [http.NewRequest], [setupHeaders] sets
    User-Agent to the session's user agent and Accept to
    application/json, and adds an Authorization header, "Bearer "
    followed by the access token, exactly when the access token is not
    empty; method, URL and body are left as they are. *)
Theorem setupHeaders_on_fresh_request
        (e : ESI) (method url : string) (body : option string) :
  let req := setupHeaders e (mkRequest method url ∅ body) in
  Method req = method /\ URL req = url /\ ReqBody req = body
  /\ Header_Get (ReqHeader req) "User-Agent" = UserAgent e
  /\ Header_Get (ReqHeader req) "Accept" = "application/json"
  /\ (AccessToken e = "" -> ReqHeader req !! "Authorization" = None)
  /\ (AccessToken e <> "" ->
      ReqHeader req !! "Authorization" = Some ["Bearer " +:+ AccessToken e]).
Proof.
  intros req. subst req.
  split; [apply Method_setupHeaders |].
  split; [apply URL_setupHeaders |].
  split; [apply ReqBody_setupHeaders |].
  unfold setupHeaders, addHeader. cbn [ReqHeader Method URL ReqBody].
  destruct (String.eqb_spec (AccessToken e) "") as [Hempty | Hfull];
    cbn [negb ReqHeader].
  - split.
    { rewrite Header_Get_Add_other by discriminate.
      apply Header_Get_Add_new, lookup_empty. }
    split.
    { apply Header_Get_Add_new.
      rewrite lookup_Header_Add_other by discriminate. apply lookup_empty. }
    split; [| contradiction].
    intros _. rewrite !lookup_Header_Add_other by discriminate.
    apply lookup_empty.
  - split.
    { rewrite !Header_Get_Add_other by discriminate.
      apply Header_Get_Add_new, lookup_empty. }
    split.
    { rewrite Header_Get_Add_other by discriminate.
      apply Header_Get_Add_new.
      rewrite lookup_Header_Add_other by discriminate. apply lookup_empty. }
    split; [contradiction |].
    intros _. unfold Header_Add at 1. rewrite lookup_insert_eq.
    rewrite !lookup_Header_Add_other by discriminate.
    rewrite lookup_empty. reflexivity.
Qed.

Lemma sprintfStrings_pair (a b : string) :
  sprintfStrings "%s:%s" [a; b] = Some (a +:+ ":" +:+ b +:+ "").
Proof. reflexivity. Qed.

(** The fields and headers of the token request. *)
Lemma tokenRequest_shape (e : ESI) (code : string) :
  let req := tokenRequest e code in
  Method req = "POST"
  /\ URL req = "https://login.eveonline.com/oauth/token"
  /\ ReqBody req
     = Some (formEncode [("grant_type", ["authorization_code"]); ("code", [code])])
  /\ Header_Get (ReqHeader req) "Authorization"
     = "Basic " +:+ base64Encode (ClientID e +:+ ":" +:+ ClientSecret e)
  /\ Header_Get (ReqHeader req) "User-Agent" = UserAgent e
  /\ Header_Get (ReqHeader req) "Accept" = "application/json"
  /\ Header_Get (ReqHeader req) "Content-Type"
     = "application/x-www-form-urlencoded".
Proof.
  intros req. subst req. unfold tokenRequest, addHeader.
  cbn [Method URL ReqBody ReqHeader].
  split; [reflexivity |]. split; [reflexivity |]. split; [reflexivity |].
  split.
  { rewrite !Header_Get_Add_other by discriminate.
    rewrite Header_Get_Add_new by apply lookup_empty.
    unfold createAuthorizationHeader.
    rewrite sprintfStrings_pair. cbn [default]. rewrite append_empty_r.
    reflexivity. }
  split.
  { rewrite !Header_Get_Add_other by discriminate.
    apply Header_Get_Add_new.
    rewrite lookup_Header_Add_other by discriminate. apply lookup_empty. }
  split.
  { rewrite Header_Get_Add_other by discriminate.
    apply Header_Get_Add_new.
    rewrite !lookup_Header_Add_other by discriminate. apply lookup_empty. }
  apply Header_Get_Add_new.
  rewrite !lookup_Header_Add_other by discriminate. apply lookup_empty.
Qed.

(** Without an access token, the request gets no Authorization header. *)
Lemma setupHeaders_no_token (e : ESI) (method url : string) (body : option string) :
  AccessToken e = "" ->
  ReqHeader (setupHeaders e (mkRequest method url ∅ body)) !! "Authorization"
  = None.
Proof.
  intros Hempty. unfold setupHeaders, addHeader. cbn [ReqHeader Method URL ReqBody].
  rewrite Hempty. cbn [String.eqb negb ReqHeader].
  rewrite !lookup_Header_Add_other by discriminate. apply lookup_empty.
Qed.

(** X7. Once its request is built, [Authenticate] hands the transport
    exactly one request, whatever the answer: a POST to the token URL
    whose body is the form with grant_type=authorization_code and the
    code, with Basic authorization built from "id:secret" in base64,
    the session's user agent, Accept application/json and the
    form-urlencoded content type. *)
Theorem Authenticate_request_shape (m : Machine) (code : string) :
  newRequestError "POST" TokenURL = None ->
  exists req,
    calls (snd (Authenticate code m)) = calls m ++ [req]
    /\ Method req = "POST"
    /\ URL req = "https://login.eveonline.com/oauth/token"
    /\ ReqBody req
       = Some (formEncode [("grant_type", ["authorization_code"]); ("code", [code])])
    /\ Header_Get (ReqHeader req) "Authorization"
       = "Basic " +:+ base64Encode (ClientID (esi m) +:+ ":" +:+ ClientSecret (esi m))
    /\ Header_Get (ReqHeader req) "User-Agent" = UserAgent (esi m)
    /\ Header_Get (ReqHeader req) "Accept" = "application/json"
    /\ Header_Get (ReqHeader req) "Content-Type"
       = "application/x-www-form-urlencoded".
Proof.
  intros Hreq. exists (tokenRequest (esi m) code). split.
  - rewrite Authenticate_run; cbv zeta. rewrite Hreq.
    destruct (fst (roundTrip _ (server m))) as [resp | err]; [| reflexivity].
    destruct (ReadAll (RespBody resp)) as [body | err]; [| reflexivity].
    destruct (String.eqb body "" || negb (StatusCode resp =? StatusOK));
      [reflexivity |].
    destruct (Unmarshal body); reflexivity.
  - exact (tokenRequest_shape (esi m) code).
Qed.

End HeaderFacts.

(** ** The client, method by method and in sequence *)

Section ClientSequences.

Context `{Collaborators}.

(** A hit, seen from [Get]. *)
Lemma Get_hit (m : Machine) (now : time.Time) (path : string)
      (args : list Operand) (entry : CacheEntry) (doc : Container) :
  cache (esi m) !! canonicalURL (esi m) (Sprintf path args) = Some entry ->
  time.Before (Expires entry) now = false ->
  Data entry = Some doc ->
  Get now path args m = (Ok doc, m).
Proof.
  intros Hu Hb Hd. rewrite Get_run; cbv zeta.
  rewrite (get_fresh _ _ _ _ Hu Hb). cbn [fst snd]. rewrite Hd.
  rewrite set_cache_id, machine_eta. reflexivity.
Qed.

(** A miss that the server answers, seen from [Get]. *)
Lemma Get_fetch (m : Machine) (now : time.Time) (path : string)
      (args : list Operand) (resp : Response Body) (doc : Container) :
  let url := canonicalURL (esi m) (Sprintf path args) in
  let req := getRequest (esi m) url in
  fst (get (cache (esi m)) url now) = None ->
  newRequestError "GET" url = None ->
  fst (roundTrip req (server m)) = Ok resp ->
  ParseJSONBuffer (RespBody resp) = Ok doc ->
  Get now path args m
  = (Ok doc,
     mkMachine
       (set_cache (snd (set (snd (get (cache (esi m)) url now)) url (Some doc)
                            (RespHeader resp)))
                  (esi m))
       (snd (roundTrip req (server m))) (calls m ++ [req])).
Proof.
  intros url req Hmiss Hreq Hresp Hjson. subst url req.
  rewrite Get_run; cbv zeta. rewrite Hmiss, Hreq, Hresp, Hjson. reflexivity.
Qed.

(** X8. [WhoAmI] goes to the network every time: it never reads the
    cache (with any other cache in its place the result and the
    requests are the same) and never writes it (the receiver is as
    before); once the request is built, one GET of the verify URL
    reaches the transport, and the parsed answer is returned. *)
Theorem WhoAmI_bypasses_cache (m : Machine) :
  let req := getRequest (esi m) VerifyURL in
  esi (snd (WhoAmI m)) = esi m
  /\ (forall c : Cache,
        fst (WhoAmI (with_cache c m)) = fst (WhoAmI m)
        /\ calls (snd (WhoAmI (with_cache c m))) = calls (snd (WhoAmI m)))
  /\ (newRequestError "GET" VerifyURL = None ->
      Method req = "GET"
      /\ URL req = "https://login.eveonline.com/oauth/verify"
      /\ calls (snd (WhoAmI m)) = calls m ++ [req]
      /\ forall resp doc,
          fst (roundTrip req (server m)) = Ok resp ->
          ParseJSONBuffer (RespBody resp) = Ok doc ->
          fst (WhoAmI m) = Ok doc).
Proof.
  intros req. subst req.
  split.
  { rewrite WhoAmI_run; cbv zeta.
    destruct (newRequestError "GET" _); [reflexivity |].
    destruct (fst (roundTrip _ (server m))) as [resp | err]; [| reflexivity].
    destruct (ParseJSONBuffer (RespBody resp)); reflexivity. }
  split.
  { intros c. rewrite !WhoAmI_run; cbv zeta.
    change (getRequest (esi (with_cache c m)) VerifyURL)
      with (getRequest (esi m) VerifyURL).
    change (server (with_cache c m)) with (server m).
    change (calls (with_cache c m)) with (calls m).
    destruct (newRequestError "GET" _); [split; reflexivity |].
    destruct (fst (roundTrip _ (server m))) as [resp | err];
      [| split; reflexivity].
    destruct (ParseJSONBuffer (RespBody resp)); split; reflexivity. }
  intros Hreq.
  split; [apply Method_setupHeaders |].
  split; [apply URL_setupHeaders |].
  rewrite WhoAmI_run; cbv zeta. rewrite Hreq.
  split.
  - destruct (fst (roundTrip _ (server m))) as [resp | err]; [| reflexivity].
    destruct (ParseJSONBuffer (RespBody resp)); reflexivity.
  - intros resp doc Hresp Hjson. rewrite Hresp, Hjson. reflexivity.
Qed.

(** X9. No method retries: each call of [Get], [Post], [WhoAmI] or
    [Authenticate] hands the transport at most one request, after the
    ones already made, and [ClearCache] hands it none. *)
Theorem at_most_one_round_trip
        (m : Machine) (now : time.Time) (path data code : string)
        (args : list Operand) :
  (exists l, calls (snd (Get now path args m)) = calls m ++ l
             /\ (length l <= 1)%nat)
  /\ (exists l, calls (snd (Post path data m)) = calls m ++ l
                /\ (length l <= 1)%nat)
  /\ (exists l, calls (snd (WhoAmI m)) = calls m ++ l /\ (length l <= 1)%nat)
  /\ (exists l, calls (snd (Authenticate code m)) = calls m ++ l
                /\ (length l <= 1)%nat)
  /\ calls (snd (ClearCache m)) = calls m.
Proof.
  assert (Hnone : forall l0 : list Request,
             exists l, l0 = l0 ++ l /\ (length l <= 1)%nat).
  { intros l0. exists []. rewrite app_nil_r. split; [reflexivity | simpl; lia]. }
  assert (Hone : forall (l0 : list Request) r,
             exists l, l0 ++ [r] = l0 ++ l /\ (length l <= 1)%nat).
  { intros l0 r. exists [r]. split; [reflexivity | simpl; lia]. }
  split; [| split; [| split; [| split]]].
  - rewrite Get_run; cbv zeta.
    destruct (fst (get _ _ now)); [apply Hnone |].
    destruct (newRequestError "GET" _); [apply Hnone |].
    destruct (fst (roundTrip _ (server m))) as [resp | err]; [| apply Hone].
    destruct (ParseJSONBuffer (RespBody resp)); apply Hone.
  - rewrite Post_run; cbv zeta.
    destruct (newRequestError "POST" _); [apply Hnone |].
    destruct (fst (roundTrip _ (server m))) as [resp | err]; [| apply Hone].
    destruct (ParseJSONBuffer (RespBody resp)); apply Hone.
  - rewrite WhoAmI_run; cbv zeta.
    destruct (newRequestError "GET" _); [apply Hnone |].
    destruct (fst (roundTrip _ (server m))) as [resp | err]; [| apply Hone].
    destruct (ParseJSONBuffer (RespBody resp)); apply Hone.
  - rewrite Authenticate_run; cbv zeta.
    destruct (newRequestError "POST" _); [apply Hnone |].
    destruct (fst (roundTrip _ (server m))) as [resp | err]; [| apply Hone].
    destruct (ReadAll (RespBody resp)) as [body | err]; [| apply Hone].
    destruct (String.eqb body "" || negb (StatusCode resp =? StatusOK));
      [apply Hone |].
    destruct (Unmarshal body); apply Hone.
  - reflexivity.
Qed.

(** What [Get] leaves in the cache, whatever the outcome. *)
Lemma Get_cache_cases (m : Machine) (now : time.Time) (path : string)
      (args : list Operand) :
  let url := canonicalURL (esi m) (Sprintf path args) in
  let m' := snd (Get now path args m) in
  esi m' = set_cache (cache (esi m')) (esi m)
  /\ (cache (esi m') = snd (get (cache (esi m)) url now)
      \/ exists doc h,
          cache (esi m')
          = snd (set (snd (get (cache (esi m)) url now)) url (Some doc) h)).
Proof.
  intros url m'. subst url m'. rewrite Get_run; cbv zeta.
  destruct (fst (get _ _ now)); [split; [reflexivity | left; reflexivity] |].
  destruct (newRequestError "GET" _); [split; [reflexivity | left; reflexivity] |].
  destruct (fst (roundTrip _ (server m))) as [resp | err];
    [| split; [reflexivity | left; reflexivity]].
  destruct (ParseJSONBuffer (RespBody resp)) as [doc | err];
    [| split; [reflexivity | left; reflexivity]].
  split; [reflexivity |]. right. exists doc, (RespHeader resp). reflexivity.
Qed.

(** X10. [Get] changes nothing of the receiver but the cache, and of
    the cache nothing but the entry of its own URL: credentials,
    tokens, version and the entries of all other URLs are as before. *)
Theorem Get_frame (m : Machine) (now : time.Time) (path : string)
        (args : list Operand) :
  let url := canonicalURL (esi m) (Sprintf path args) in
  let m' := snd (Get now path args m) in
  esi m' = set_cache (cache (esi m')) (esi m)
  /\ AccessToken (esi m') = AccessToken (esi m)
  /\ RefreshToken (esi m') = RefreshToken (esi m)
  /\ Version (esi m') = Version (esi m)
  /\ (forall u', u' <> url -> cache (esi m') !! u' = cache (esi m) !! u').
Proof.
  intros url m'.
  destruct (Get_cache_cases m now path args) as [Hesi Hcache].
  cbv zeta in Hesi, Hcache. fold url in Hcache. fold m' in Hesi, Hcache.
  split; [exact Hesi |].
  split; [rewrite Hesi; reflexivity |].
  split; [rewrite Hesi; reflexivity |].
  split; [rewrite Hesi; reflexivity |].
  intros u' Hne. destruct Hcache as [-> | (doc & h & ->)].
  - apply get_frame, Hne.
  - unfold set. destruct (getExpiration _); cbn [snd].
    + rewrite lookup_insert_ne by congruence. apply get_frame, Hne.
    + apply get_frame, Hne.
Qed.

Lemma docsPresent_get (c : Cache) (u : string) (now : time.Time) :
  docsPresent c -> docsPresent (snd (get c u now)).
Proof.
  intros Hc u' entry. unfold get.
  destruct (c !! u) as [e0 |]; [| apply Hc].
  destruct (time.Before (Expires e0) now); cbn [snd]; [| apply Hc].
  intros Hl. apply lookup_delete_Some in Hl. destruct Hl as [_ Hl].
  exact (Hc _ _ Hl).
Qed.

Lemma docsPresent_set (c : Cache) (u : string) (doc : Container) (h : Header) :
  docsPresent c -> docsPresent (snd (set c u (Some doc) h)).
Proof.
  intros Hc u' entry. unfold set.
  destruct (getExpiration _) as [t | err]; cbn [snd]; [| apply Hc].
  intros Hl. apply lookup_insert_Some in Hl.
  destruct Hl as [[_ <-] | [_ Hl]]; [discriminate | exact (Hc _ _ Hl)].
Qed.

(** X11. The cache of a session only ever holds documents: a new
    session has none, and if no entry holds a nil document before a
    call of [Get], [Post], [WhoAmI], [Authenticate] or [ClearCache],
    none does after it.  Under that invariant a read misses only when
    the url has no entry or its entry has expired. *)
Theorem cache_holds_documents
        (m : Machine) (now : time.Time) (path data code : string)
        (args : list Operand) :
  (forall id secret callback, docsPresent (cache (New id secret callback)))
  /\ (docsPresent (cache (esi m)) ->
      docsPresent (cache (esi (snd (Get now path args m))))
      /\ docsPresent (cache (esi (snd (Post path data m))))
      /\ docsPresent (cache (esi (snd (WhoAmI m))))
      /\ docsPresent (cache (esi (snd (Authenticate code m))))
      /\ docsPresent (cache (esi (snd (ClearCache m))))
      /\ forall u, fst (get (cache (esi m)) u now) = None ->
           cache (esi m) !! u = None
           \/ exists entry, cache (esi m) !! u = Some entry
                            /\ time.Before (Expires entry) now = true).
Proof.
  split.
  { intros id secret callback u entry Hl. cbn in Hl.
    rewrite lookup_empty in Hl. discriminate. }
  intros Hc.
  split.
  { destruct (Get_cache_cases m now path args) as [_ Hcache].
    cbv zeta in Hcache. destruct Hcache as [-> | (doc & h & ->)].
    - apply docsPresent_get, Hc.
    - apply docsPresent_set, docsPresent_get, Hc. }
  split.
  { rewrite Post_run; cbv zeta.
    destruct (newRequestError "POST" _); [exact Hc |].
    destruct (fst (roundTrip _ (server m))) as [resp | err]; [| exact Hc].
    destruct (ParseJSONBuffer (RespBody resp)); exact Hc. }
  split.
  { rewrite WhoAmI_run; cbv zeta.
    destruct (newRequestError "GET" _); [exact Hc |].
    destruct (fst (roundTrip _ (server m))) as [resp | err]; [| exact Hc].
    destruct (ParseJSONBuffer (RespBody resp)); exact Hc. }
  split.
  { rewrite Authenticate_run; cbv zeta.
    destruct (newRequestError "POST" _); [exact Hc |].
    destruct (fst (roundTrip _ (server m))) as [resp | err]; [| exact Hc].
    destruct (ReadAll (RespBody resp)) as [body | err]; [| exact Hc].
    destruct (String.eqb body "" || negb (StatusCode resp =? StatusOK));
      [exact Hc |].
    destruct (Unmarshal body); exact Hc. }
  split.
  { intros u entry Hl. cbn in Hl. rewrite lookup_empty in Hl. discriminate. }
  intros u Hmiss.
  destruct (get_miss_inv _ _ _ Hmiss)
    as [[Hnone _] | [(e0 & Hu & Hb & _) | (e0 & Hu & _ & Hd & _)]].
  - left. exact Hnone.
  - right. exists e0. auto.
  - exfalso. exact (Hc _ _ Hu Hd).
Qed.

(** X12. A document fetched by [Get] and stored with an expiry is
    served by the next [Get] of the same path and arguments at any time
    that is not past that expiry: same document, no request to the
    transport, nothing changed. *)
Theorem Get_then_Get_is_served
        (m : Machine) (now1 now2 : time.Time) (path : string)
        (args : list Operand) (resp : Response Body) (doc : Container)
        (expires : time.Time) :
  let url := canonicalURL (esi m) (Sprintf path args) in
  let m1 := snd (Get now1 path args m) in
  fst (get (cache (esi m)) url now1) = None ->
  newRequestError "GET" url = None ->
  fst (roundTrip (getRequest (esi m) url) (server m)) = Ok resp ->
  ParseJSONBuffer (RespBody resp) = Ok doc ->
  getExpiration (Header_Get (RespHeader resp) "Expires") = Ok expires ->
  time.Before expires now2 = false ->
  fst (Get now1 path args m) = Ok doc
  /\ Get now2 path args m1 = (Ok doc, m1)
  /\ calls m1 = calls m ++ [getRequest (esi m) url].
Proof.
  intros url m1 Hmiss Hreq Hresp Hjson Hexp Hfresh. subst m1.
  pose proof (Get_fetch m now1 path args resp doc Hmiss Hreq Hresp Hjson) as Hrun.
  cbv zeta in Hrun. fold url in Hrun. rewrite Hrun. cbn [fst snd calls].
  split; [reflexivity |]. split; [| reflexivity].
  apply (Get_hit _ now2 path args (mkCacheEntry (Some doc) expires) doc).
  - cbn [esi]. rewrite cache_set_cache.
    change (canonicalURL (set_cache _ (esi m)) (Sprintf path args)) with url.
    rewrite (set_parse_success _ _ _ _ _ Hexp). cbn [snd].
    apply lookup_insert_eq.
  - exact Hfresh.
  - reflexivity.
Qed.

(** X13. [Get] does not look at the HTTP status: two answers with the
    same headers and the same body give the same result and leave the
    same receiver, whatever their status codes.  An error page whose
    body is JSON is returned, and cached, like any document. *)
Theorem Get_ignores_status
        (m m' : Machine) (now : time.Time) (path : string) (args : list Operand)
        (resp resp' : Response Body) :
  let url := canonicalURL (esi m) (Sprintf path args) in
  esi m' = esi m ->
  fst (roundTrip (getRequest (esi m) url) (server m)) = Ok resp ->
  fst (roundTrip (getRequest (esi m) url) (server m')) = Ok resp' ->
  RespHeader resp' = RespHeader resp ->
  RespBody resp' = RespBody resp ->
  fst (Get now path args m') = fst (Get now path args m)
  /\ esi (snd (Get now path args m')) = esi (snd (Get now path args m)).
Proof.
  intros url Hesi Hresp Hresp' Hh Hb. subst url.
  rewrite !Get_run; cbv zeta. rewrite Hesi.
  destruct (fst (get _ _ now)); [split; reflexivity |].
  destruct (newRequestError "GET" _); [split; reflexivity |].
  rewrite Hresp, Hresp', Hh, Hb.
  destruct (ParseJSONBuffer (RespBody resp)); split; reflexivity.
Qed.

Lemma append_inj_l (a x y : string) : a +:+ x = a +:+ y -> x = y.
Proof.
  induction a as [| c a IH]; [auto |].
  rewrite !append_cons. intros [= Heq]. exact (IH Heq).
Qed.

Lemma append_char_inj_r (c : ascii) (x y : string) :
  x +:+ String c "" = y +:+ String c "" -> x = y.
Proof.
  revert y. induction x as [| a x IH]; intros [| b y].
  - reflexivity.
  - rewrite append_nil, append_cons. intros [= _ Heq].
    destruct y; discriminate Heq.
  - rewrite append_nil, append_cons. intros [= _ Heq].
    destruct x; discriminate Heq.
  - rewrite !append_cons. intros [= -> Heq]. f_equal. exact (IH _ Heq).
Qed.

(** The canonical URL determines the formatted path. *)
Lemma canonicalURL_injective (e : ESI) (p1 p2 : string) :
  canonicalURL e p1 = canonicalURL e p2 -> p1 = p2.
Proof.
  unfold canonicalURL. intros Heq.
  apply append_inj_l, append_inj_l, append_inj_l in Heq.
  exact (append_char_inj_r _ _ _ Heq).
Qed.

(** What a read returns depends on the entry of its url only. *)
Lemma get_fst_lookup (c c' : Cache) (u : string) (now : time.Time) :
  c !! u = c' !! u -> fst (get c u now) = fst (get c' u now).
Proof.
  intros Hl. unfold get. rewrite Hl. destruct (c' !! u) as [entry |];
    [| reflexivity].
  destruct (time.Before (Expires entry) now); reflexivity.
Qed.

(** A [Get] does not see the entries of the cache under other URLs
    than its own. *)
Lemma Get_sees_own_entry_only
      (e : ESI) (c : Cache) (s : Server) (cs : list Request)
      (now : time.Time) (path : string) (args : list Operand) :
  c !! canonicalURL e (Sprintf path args)
  = cache e !! canonicalURL e (Sprintf path args) ->
  fst (Get now path args (mkMachine (set_cache c e) s cs))
  = fst (Get now path args (mkMachine e s cs))
  /\ calls (snd (Get now path args (mkMachine (set_cache c e) s cs)))
     = calls (snd (Get now path args (mkMachine e s cs))).
Proof.
  intros Hl. rewrite !Get_run; cbv zeta. cbn [esi server calls].
  change (canonicalURL (set_cache c e) (Sprintf path args))
    with (canonicalURL e (Sprintf path args)).
  change (getRequest (set_cache c e)) with (getRequest e).
  rewrite cache_set_cache.
  rewrite (get_fst_lookup c (cache e) _ now Hl).
  destruct (fst (get (cache e) _ now)); [split; reflexivity |].
  destruct (newRequestError "GET" _); [split; reflexivity |].
  destruct (fst (roundTrip _ s)) as [resp | err]; [| split; reflexivity].
  destruct (ParseJSONBuffer (RespBody resp)); split; reflexivity.
Qed.

(** The requests of one [Get]: none, or the GET of its URL. *)
Lemma Get_calls_cases (m : Machine) (now : time.Time) (path : string)
      (args : list Operand) :
  calls (snd (Get now path args m)) = calls m
  \/ calls (snd (Get now path args m))
     = calls m ++ [getRequest (esi m) (canonicalURL (esi m) (Sprintf path args))].
Proof.
  rewrite Get_run; cbv zeta.
  destruct (fst (get _ _ now)); [left; reflexivity |].
  destruct (newRequestError "GET" _); [left; reflexivity |].
  destruct (fst (roundTrip _ (server m))) as [resp | err]; [| right; reflexivity].
  destruct (ParseJSONBuffer (RespBody resp)); right; reflexivity.
Qed.

Lemma Get_sent_URL (m : Machine) (now : time.Time) (path : string)
      (args : list Operand) (r : Request) :
  calls (snd (Get now path args m)) = calls m ++ [r] ->
  URL r = canonicalURL (esi m) (Sprintf path args).
Proof.
  intros Hc. destruct (Get_calls_cases m now path args) as [Hn | Hs];
    rewrite Hc in *.
  - exfalso. apply (f_equal (@length _)) in Hn.
    rewrite length_app in Hn. cbn in Hn. lia.
  - apply app_inv_head in Hs. injection Hs as ->. apply URL_setupHeaders.
Qed.

(** X14. Two [Get]s of different formatted paths never meet in the
    cache nor at the server.  After a [Get] of one path, a [Get] of
    another returns what it would return, and makes the requests it
    would make, had the first left the session as it found it; and if
    both reach the transport, their requests have different URLs. *)
Theorem Get_paths_do_not_interfere
        (m : Machine) (now1 now2 : time.Time) (path1 path2 : string)
        (args1 args2 : list Operand) :
  Sprintf path1 args1 <> Sprintf path2 args2 ->
  let m1 := snd (Get now1 path1 args1 m) in
  let m0 := mkMachine (esi m) (server m1) (calls m1) in
  fst (Get now2 path2 args2 m1) = fst (Get now2 path2 args2 m0)
  /\ calls (snd (Get now2 path2 args2 m1))
     = calls (snd (Get now2 path2 args2 m0))
  /\ (forall r1 r2,
        calls m1 = calls m ++ [r1] ->
        calls (snd (Get now2 path2 args2 m1)) = calls m1 ++ [r2] ->
        URL r1 <> URL r2).
Proof.
  intros Hne m1 m0.
  assert (Hurl : canonicalURL (esi m) (Sprintf path2 args2)
                 <> canonicalURL (esi m) (Sprintf path1 args1)).
  { intros Heq. apply Hne. symmetry. exact (canonicalURL_injective _ _ _ Heq). }
  destruct (Get_cache_cases m now1 path1 args1) as [Hesi Hcache].
  cbv zeta in Hesi, Hcache. fold m1 in Hesi, Hcache.
  assert (Hother : cache (esi m1) !! canonicalURL (esi m) (Sprintf path2 args2)
                   = cache (esi m) !! canonicalURL (esi m) (Sprintf path2 args2)).
  { destruct Hcache as [-> | (doc & h & ->)].
    - apply get_frame, Hurl.
    - unfold set. destruct (getExpiration _); cbn [snd].
      + rewrite lookup_insert_ne by congruence. apply get_frame, Hurl.
      + apply get_frame, Hurl. }
  assert (Hm1 : m1 = mkMachine (set_cache (cache (esi m1)) (esi m))
                               (server m1) (calls m1)).
  { rewrite <- Hesi. symmetry. apply machine_eta. }
  destruct (Get_sees_own_entry_only (esi m) (cache (esi m1)) (server m1)
              (calls m1) now2 path2 args2 Hother) as [Hres Hcalls].
  rewrite <- Hm1 in Hres, Hcalls. fold m0 in Hres, Hcalls.
  split; [exact Hres |]. split; [exact Hcalls |].
  intros r1 r2 H1 H2.
  rewrite (Get_sent_URL m now1 path1 args1 r1 H1).
  rewrite (Get_sent_URL m1 now2 path2 args2 r2 H2).
  rewrite Hesi.
  change (canonicalURL (set_cache (cache (esi m1)) (esi m)) (Sprintf path2 args2))
    with (canonicalURL (esi m) (Sprintf path2 args2)).
  congruence.
Qed.

(** X15. [ClearCache] empties the cache and touches nothing else, and
    makes no request; after it every read misses, so the next [Get],
    once its request is built, goes to the transport even for a url
    that was cached before. *)
Theorem ClearCache_forgets_everything
        (m : Machine) (now : time.Time) (path : string) (args : list Operand) :
  let m0 := snd (ClearCache m) in
  let url := canonicalURL (esi m) (Sprintf path args) in
  fst (ClearCache m) = Ok tt
  /\ m0 = with_cache ∅ m
  /\ AccessToken (esi m0) = AccessToken (esi m)
  /\ RefreshToken (esi m0) = RefreshToken (esi m)
  /\ (forall u t, get (cache (esi m0)) u t = (None, ∅))
  /\ (newRequestError "GET" url = None ->
      calls (snd (Get now path args m0)) = calls m ++ [getRequest (esi m) url]).
Proof.
  intros m0 url. subst m0 url.
  split; [reflexivity |]. split; [reflexivity |].
  split; [reflexivity |]. split; [reflexivity |].
  assert (Hget : forall u t,
             get (cache (esi (snd (ClearCache m)))) u t = (None, ∅)).
  { intros u t. apply get_absent, lookup_empty. }
  split; [exact Hget |].
  intros Hreq. rewrite Get_run; cbv zeta. rewrite Hget. cbn [fst snd].
  change (canonicalURL (esi (snd (ClearCache m))) (Sprintf path args))
    with (canonicalURL (esi m) (Sprintf path args)).
  rewrite Hreq.
  change (getRequest (esi (snd (ClearCache m))))
    with (getRequest (esi m)).
  change (server (snd (ClearCache m))) with (server m).
  change (calls (snd (ClearCache m))) with (calls m).
  destruct (fst (roundTrip _ (server m))) as [resp | err]; [| reflexivity].
  destruct (ParseJSONBuffer (RespBody resp)); reflexivity.
Qed.

(** X16. A session fresh from [New] is cold and unauthenticated.  Its
    first [Get] of any path, once the request is built, goes to the
    transport, to the URL of the formatted path under
    https://esi.tech.ccp.is/latest/; its first [Post] likewise with
    the path as it is; and the requests of [Get], [Post] and [WhoAmI]
    carry no Authorization header.  Its authorize URL, available as
    soon as the three arguments are non-empty, has an empty scope. *)
Theorem New_is_cold_and_unauthenticated
        (id secret callback : string) (srv : Server) (now : time.Time)
        (path data : string) (args : list Operand) :
  let m := mkMachine (New id secret callback) srv [] in
  let url := "https://esi.tech.ccp.is/latest/" +:+ Sprintf path args +:+ "/" in
  let purl := "https://esi.tech.ccp.is/latest/" +:+ path +:+ "/" in
  (newRequestError "GET" url = None ->
   exists req,
     calls (snd (Get now path args m)) = [req]
     /\ Method req = "GET" /\ URL req = url
     /\ ReqHeader req !! "Authorization" = None)
  /\ (newRequestError "POST" purl = None ->
      exists req,
        calls (snd (Post path data m)) = [req]
        /\ Method req = "POST" /\ URL req = purl /\ ReqBody req = Some data
        /\ ReqHeader req !! "Authorization" = None)
  /\ (newRequestError "GET" VerifyURL = None ->
      exists req,
        calls (snd (WhoAmI m)) = [req]
        /\ Method req = "GET" /\ URL req = VerifyURL
        /\ ReqHeader req !! "Authorization" = None)
  /\ (id <> "" -> secret <> "" -> callback <> "" ->
      GetAuthorizeURL (New id secret callback)
      = Ok ("https://login.eveonline.com/oauth/authorize"
            +:+ "?response_type=code&redirect_uri=" +:+ callback
            +:+ "&client_id=" +:+ id +:+ "&scope=")).
Proof.
  intros m url purl.
  assert (Hurl : canonicalURL (esi m) (Sprintf path args) = url) by reflexivity.
  assert (Hpurl : canonicalURL (esi m) path = purl) by reflexivity.
  assert (Hcalls : calls m = []) by reflexivity.
  assert (Hmiss : get (cache (esi m)) url now = (None, ∅)).
  { apply (get_absent ∅), lookup_empty. }
  split; [| split; [| split]].
  - intros Hreq. exists (getRequest (esi m) url).
    split.
    { rewrite Get_run; cbv zeta. rewrite Hurl, Hmiss. cbn [fst snd].
      rewrite Hreq, Hcalls.
      destruct (fst (roundTrip _ (server m))) as [resp | err]; [| reflexivity].
      destruct (ParseJSONBuffer (RespBody resp)); reflexivity. }
    split; [apply Method_setupHeaders |].
    split; [apply URL_setupHeaders |].
    apply setupHeaders_no_token. reflexivity.
  - intros Hreq. exists (postRequest (esi m) purl data).
    split.
    { rewrite Post_run; cbv zeta. rewrite Hpurl, Hreq, Hcalls.
      destruct (fst (roundTrip _ (server m))) as [resp | err]; [| reflexivity].
      destruct (ParseJSONBuffer (RespBody resp)); reflexivity. }
    split; [apply Method_setupHeaders |].
    split; [apply URL_setupHeaders |].
    split; [apply ReqBody_setupHeaders |].
    apply setupHeaders_no_token. reflexivity.
  - intros Hreq. exists (getRequest (esi m) VerifyURL).
    split.
    { rewrite WhoAmI_run; cbv zeta. rewrite Hreq, Hcalls.
      destruct (fst (roundTrip _ (server m))) as [resp | err]; [| reflexivity].
      destruct (ParseJSONBuffer (RespBody resp)); reflexivity. }
    split; [apply Method_setupHeaders |].
    split; [apply URL_setupHeaders |].
    apply setupHeaders_no_token. reflexivity.
  - intros Hi Hs Hc. unfold GetAuthorizeURL.
    cbn [ClientID ClientSecret ClientCallbackURL Scope New].
    rewrite !eqb_empty_false by assumption. cbn [orb].
    rewrite sprintfStrings_authorize. cbn [default]. reflexivity.
Qed.

(** X17. [Authenticate] never touches the cache nor the credentials:
    whatever the outcome, the receiver after the call is the receiver
    before it up to the two tokens. *)
Theorem Authenticate_frame (m : Machine) (code : string) :
  let e' := esi (snd (Authenticate code m)) in
  e' = set_tokens (AccessToken e') (RefreshToken e') (esi m)
  /\ cache e' = cache (esi m)
  /\ ClientID e' = ClientID (esi m)
  /\ ClientSecret e' = ClientSecret (esi m)
  /\ ClientCallbackURL e' = ClientCallbackURL (esi m)
  /\ Version e' = Version (esi m).
Proof.
  intros e'.
  assert (He : e' = set_tokens (AccessToken e') (RefreshToken e') (esi m)).
  { subst e'. rewrite Authenticate_run; cbv zeta.
    assert (Hid : esi m = set_tokens (AccessToken (esi m)) (RefreshToken (esi m)) (esi m))
      by (destruct (esi m); reflexivity).
    destruct (newRequestError "POST" _); [exact Hid |].
    destruct (fst (roundTrip _ (server m))) as [resp | err]; [| exact Hid].
    destruct (ReadAll (RespBody resp)) as [body | err]; [| exact Hid].
    destruct (String.eqb body "" || negb (StatusCode resp =? StatusOK));
      [exact Hid |].
    destruct (Unmarshal body); [reflexivity | exact Hid]. }
  split; [exact He |].
  repeat split; rewrite He; reflexivity.
Qed.

End ClientSequences.

(** ** Parsing the expiry: what is accepted *)

Section ParseForward.

Import time layout.

Lemma from_append_length (a b : string) : from (String.length a) (a +:+ b) = b.
Proof.
  induction a as [| c a IH]; [reflexivity |].
  rewrite append_cons. simpl. exact IH.
Qed.

Lemma to_all (w : string) : to (String.length w) w = w.
Proof. induction w as [| c w IH]; simpl; [| rewrite IH]; reflexivity. Qed.

Lemma from_all (w : string) : from (String.length w) w = "".
Proof. induction w as [| c w IH]; simpl; [reflexivity | exact IH]. Qed.

Lemma len_append (a b : string) : len (a +:+ b) = len a + len b.
Proof. unfold len. rewrite length_append. lia. Qed.

Lemma len_nonneg (s : string) : 0 <= len s.
Proof. unfold len. lia. Qed.

Lemma len_cons (c : ascii) (s : string) : len (String c s) = 1 + len s.
Proof. unfold len. simpl String.length. lia. Qed.

(** Looking a name up at the head of a longer string is looking it up
    alone, when the table's names all have its length. *)
Lemma lookup_from_append (tab : list string) (i : Z) (w rest : string) :
  (forall v, In v tab -> String.length v = String.length w) ->
  lookup_from i tab (w +:+ rest)
  = match lookup_from i tab w with
    | Ok (j, _) => Ok (j, rest)
    | Err err => Err err
    end.
Proof.
  revert i. induction tab as [| v tab IH]; intros i Hlen; [reflexivity |].
  cbn [lookup_from].
  assert (Hv : String.length v = String.length w) by (apply Hlen; left; reflexivity).
  rewrite Hv, to_append_length, to_all, from_append_length.
  assert (Hl1 : (len v <=? len (w +:+ rest)) = true).
  { apply Z.leb_le. rewrite len_append. pose proof (len_nonneg rest).
    unfold len. rewrite Hv. unfold len in *. lia. }
  assert (Hl2 : (len v <=? len w) = true).
  { apply Z.leb_le. unfold len. rewrite Hv. lia. }
  rewrite Hl1, Hl2. cbn [andb].
  destruct (match_ w v); [reflexivity |].
  apply IH. intros v' Hin. apply Hlen. right. exact Hin.
Qed.

Lemma lookup_from_name_alone (tab : list string) (i : Z) (w : string) :
  (forall v, In v tab -> String.length v = String.length w) ->
  nameOf tab w -> exists j, lookup_from i tab w = Ok (j, "").
Proof.
  intros Hlen (v0 & Hin & _ & Hm). revert i.
  induction tab as [| v tab IH]; intros i; [contradiction |].
  cbn [lookup_from].
  assert (Hv : String.length v = String.length w) by (apply Hlen; left; reflexivity).
  rewrite Hv, to_all, from_all.
  assert (Hl : (len v <=? len w) = true).
  { apply Z.leb_le. unfold len. rewrite Hv. lia. }
  rewrite Hl. cbn [andb].
  destruct (match_ w v) eqn:Hhit; [exists i; reflexivity |].
  destruct Hin as [-> | Hin]; [congruence |].
  apply IH; [| exact Hin].
  intros v' Hin'. apply Hlen. right. exact Hin'.
Qed.

Lemma dayNames_length (w : string) (Hw : String.length w = 3%nat) (v : string) :
  In v shortDayNames -> String.length v = String.length w.
Proof.
  rewrite Hw. intros Hin. repeat (destruct Hin as [<- | Hin]; [reflexivity |]).
  contradiction.
Qed.

Lemma dayName_length (w : string) : nameOf shortDayNames w -> String.length w = 3%nat.
Proof.
  intros (v & Hin & -> & _).
  repeat (destruct Hin as [<- | Hin]; [reflexivity |]). contradiction.
Qed.

(** The weekday chunk accepts any weekday name and keeps nothing of it. *)
Lemma fwd_weekday (p : vars) (wd r : string) :
  nameOf shortDayNames wd ->
  parseChunk stdWeekDay p (wd +:+ r) = Ok (p, r).
Proof.
  intros Hwd. cbn [parseChunk]. unfold lookup.
  pose proof (dayName_length wd Hwd) as Hl.
  rewrite (lookup_from_append _ _ _ _ (dayNames_length wd Hl)).
  destruct (lookup_from_name_alone _ 0 wd (dayNames_length wd Hl) Hwd) as [j ->].
  reflexivity.
Qed.

Lemma digit_range (c : ascii) : isDigitByte c = true -> 0 <= byte c - 48 <= 9.
Proof.
  unfold isDigitByte. intros Hc. apply andb_true_iff in Hc.
  destruct Hc as [Hlo Hhi]. apply Z.leb_le in Hlo. apply Z.leb_le in Hhi. lia.
Qed.

Lemma digit_not_space (c : ascii) : isDigitByte c = true -> isSpace c = false.
Proof.
  intros Hc. apply digit_range in Hc. unfold isSpace. apply Z.eqb_neq. lia.
Qed.

Lemma num2_range (a b : ascii) :
  isDigitByte a = true -> isDigitByte b = true -> 0 <= num2 a b <= 99.
Proof.
  intros Ha Hb. apply digit_range in Ha. apply digit_range in Hb.
  unfold num2. lia.
Qed.

Lemma skip_fwd_space (c : ascii) (r : string) :
  isSpace c = false -> skip (String " " (String c r)) " " = Ok (String c r).
Proof.
  intros Hc. unfold skip. simpl String.length. cbn [skip_loop].
  change (isSpace " ") with true. cbv iota. cbn [negb].
  change (cutspace " ") with "". cbn [skip_loop].
  simpl cutspace. change (isSpace " ") with true. cbv iota.
  rewrite Hc. reflexivity.
Qed.

Lemma skip_fwd_comma (c : ascii) (r : string) :
  isSpace c = false ->
  skip (String "," (String " " (String c r))) ", " = Ok (String c r).
Proof. intros Hc. exact (skip_fwd_space c r Hc). Qed.

Lemma skip_fwd_colon (r : string) : skip (String ":" r) ":" = Ok r.
Proof. reflexivity. Qed.

Lemma skip_fwd_month (im : nat) (r : string) :
  (im < 12)%nat ->
  skip (String " " (nth im shortMonthNames "" +:+ r)) " "
  = Ok (nth im shortMonthNames "" +:+ r).
Proof.
  intros Him.
  do 12 (destruct im as [| im]; [reflexivity |]). lia.
Qed.

Lemma fwd_month (p : vars) (im : nat) (r : string) :
  (im < 12)%nat ->
  parseChunk stdMonth p (nth im shortMonthNames "" +:+ r)
  = Ok (set_month (Z.of_nat im + 1) p, r).
Proof.
  intros Him. cbn [parseChunk]. unfold lookup.
  do 12 (destruct im as [| im];
         [ cbn [nth shortMonthNames];
           rewrite lookup_from_append
             by (intros v Hin;
                 repeat (destruct Hin as [<- | Hin]; [reflexivity |]);
                 contradiction);
           reflexivity |]).
  lia.
Qed.

Lemma getnum_two (a b : ascii) (r : string) (fixed : bool) :
  isDigitByte a = true -> isDigitByte b = true ->
  getnum (String a (String b r)) fixed = Ok (num2 a b, r).
Proof.
  intros Ha Hb. unfold getnum.
  change (isDigit (String a (String b r)) 0) with (isDigitByte a).
  change (isDigit (String a (String b r)) 1) with (isDigitByte b).
  rewrite Ha, Hb. reflexivity.
Qed.

Lemma fwd_day (p : vars) (a b : ascii) (r : string) :
  isDigitByte a = true -> isDigitByte b = true ->
  parseChunk stdZeroDay p (String a (String b r)) = Ok (set_day (num2 a b) p, r).
Proof.
  intros Ha Hb. cbn [parseChunk]. rewrite (getnum_two a b r true Ha Hb).
  reflexivity.
Qed.

Lemma atoi_four (a b c d : ascii) :
  isDigitByte a = true -> isDigitByte b = true ->
  isDigitByte c = true -> isDigitByte d = true ->
  atoi (String a (String b (String c (String d "")))) = Ok (num4 a b c d).
Proof.
  intros Ha Hb Hc Hd. unfold atoi. rewrite (digit_not_sign a Ha).
  unfold leadingInt. cbn [leadingInt_loop]. rewrite Ha, Hb, Hc, Hd.
  change (0 <? len "") with false. cbv iota.
  f_equal. unfold num4, num2. lia.
Qed.

Lemma fwd_year (p : vars) (a b c d : ascii) (r : string) :
  isDigitByte a = true -> isDigitByte b = true ->
  isDigitByte c = true -> isDigitByte d = true ->
  parseChunk stdLongYear p (String a (String b (String c (String d r))))
  = Ok (set_year (num4 a b c d) p, r).
Proof.
  intros Ha Hb Hc Hd. cbn [parseChunk].
  assert (Hlen : (len (String a (String b (String c (String d r)))) <? 4) = false).
  { apply Z.ltb_ge. rewrite !len_cons. pose proof (len_nonneg r). lia. }
  rewrite Hlen.
  change (isDigit (String a (String b (String c (String d r)))) 0)
    with (isDigitByte a).
  rewrite Ha. cbn [negb orb].
  cbn [to from]. rewrite (atoi_four a b c d Ha Hb Hc Hd). reflexivity.
Qed.

Lemma fwd_hour (p : vars) (a b : ascii) (r : string) :
  isDigitByte a = true -> isDigitByte b = true ->
  parseChunk stdHour p (String a (String b r))
  = if 24 <=? num2 a b then rangeErr "hour"
    else Ok (set_hour (num2 a b) p, r).
Proof.
  intros Ha Hb. cbn [parseChunk]. rewrite (getnum_two a b r false Ha Hb).
  cbn [mbind result_bind].
  pose proof (num2_range a b Ha Hb) as Hr.
  destruct (Z.ltb_spec (num2 a b) 0); [lia |]. reflexivity.
Qed.

Lemma fwd_minute (p : vars) (a b : ascii) (r : string) :
  isDigitByte a = true -> isDigitByte b = true ->
  parseChunk stdZeroMinute p (String a (String b r))
  = if 60 <=? num2 a b then rangeErr "minute"
    else Ok (set_min (num2 a b) p, r).
Proof.
  intros Ha Hb. cbn [parseChunk]. rewrite (getnum_two a b r true Ha Hb).
  cbn [mbind result_bind].
  pose proof (num2_range a b Ha Hb) as Hr.
  destruct (Z.ltb_spec (num2 a b) 0); [lia |]. reflexivity.
Qed.

(** Seconds followed by a space: there is no fraction to read. *)
Lemma fwd_second (p : vars) (a b : ascii) (r : string) :
  isDigitByte a = true -> isDigitByte b = true ->
  parseChunk stdZeroSecond p (String a (String b (String " " r)))
  = if 60 <=? num2 a b then rangeErr "second"
    else Ok (set_sec (num2 a b) p, String " " r).
Proof.
  intros Ha Hb. cbn [parseChunk]. rewrite (getnum_two a b _ true Ha Hb).
  cbn [mbind result_bind].
  pose proof (num2_range a b Ha Hb) as Hr.
  destruct (Z.ltb_spec (num2 a b) 0); [lia |]. cbn [orb].
  destruct (60 <=? num2 a b); [reflexivity |].
  change (match String.get 0 (String " " r) with
          | Some c => commaOrPeriod c
          | None => false
          end) with false.
  rewrite andb_false_r. reflexivity.
Qed.

(** The loop over the chunks, run on an HTTP date. *)
Lemma parseChunks_httpDate (wd : string) (im : nat)
      (d1 d2 y1 y2 y3 y4 h1 h2 m1 m2 s1 s2 : ascii) :
  nameOf shortDayNames wd -> (im < 12)%nat ->
  forallb isDigitByte [d1; d2; y1; y2; y3; y4; h1; h2; m1; m2; s1; s2] = true ->
  parseChunks chunks vars0
    (httpDate wd d1 d2 (nth im shortMonthNames "") y1 y2 y3 y4 h1 h2 m1 m2 s1 s2)
  = if 24 <=? num2 h1 h2 then rangeErr "hour"
    else if 60 <=? num2 m1 m2 then rangeErr "minute"
    else if 60 <=? num2 s1 s2 then rangeErr "second"
    else Ok (mkVars (num4 y1 y2 y3 y4) (Z.of_nat im + 1) (num2 d1 d2)
                    (num2 h1 h2) (num2 m1 m2) (num2 s1 s2) 0 None "GMT").
Proof.
  intros Hwd Him Hdig. cbn [forallb] in Hdig.
  repeat (apply andb_true_iff in Hdig;
          let Hc := fresh "Hc" in destruct Hdig as [Hc Hdig]).
  unfold httpDate, chunks. cbn [parseChunks].
  rewrite skip_nothing. cbn [mbind result_bind].
  rewrite (fwd_weekday _ _ _ Hwd). cbn [mbind result_bind].
  rewrite skip_fwd_comma by (apply digit_not_space; assumption).
  cbn [mbind result_bind].
  rewrite fwd_day by assumption. cbn [mbind result_bind].
  rewrite (skip_fwd_month _ _ Him). cbn [mbind result_bind].
  rewrite (fwd_month _ _ _ Him). cbn [mbind result_bind].
  rewrite skip_fwd_space by (apply digit_not_space; assumption).
  cbn [mbind result_bind].
  rewrite fwd_year by assumption. cbn [mbind result_bind].
  rewrite skip_fwd_space by (apply digit_not_space; assumption).
  cbn [mbind result_bind].
  rewrite fwd_hour by assumption.
  destruct (24 <=? num2 h1 h2); [reflexivity |]. cbn [mbind result_bind].
  rewrite skip_fwd_colon. cbn [mbind result_bind].
  rewrite fwd_minute by assumption.
  destruct (60 <=? num2 m1 m2); [reflexivity |]. cbn [mbind result_bind].
  rewrite skip_fwd_colon. cbn [mbind result_bind].
  rewrite fwd_second by assumption.
  destruct (60 <=? num2 s1 s2); [reflexivity |]. cbn [mbind result_bind].
  reflexivity.
Qed.

(** After the loop has read a date and the zone name "GMT". *)
Lemma finish_GMT (lookupName : string -> Z -> option Z) (y mo d h mi s : Z) :
  finish lookupName (mkVars y mo d h mi s 0 None "GMT")
  = if (d <? 1) || (daysIn mo y <? d) then rangeErr "day"
    else
      match lookupName "GMT" (unixSec (DateUTC y mo d h mi s 0)) with
      | Some offset =>
        Ok (mkTime (unixSec (DateUTC y mo d h mi s 0) - offset) 0 Local)
      | None =>
        Ok (mkTime (unixSec (DateUTC y mo d h mi s 0)) 0 (FixedZone "GMT" 0))
      end.
Proof. reflexivity. Qed.

End ParseForward.

Section ExpiryForward.

Context `{Collaborators}.

(** X18. The weekday of the input is read and forgotten: two inputs
    that differ only in their weekday names (in any letter case) give
    the same result, so a weekday that contradicts the date goes
    unnoticed. *)
Theorem getExpiration_ignores_weekday (w1 w2 rest : string) :
  layout.nameOf time.shortDayNames w1 ->
  layout.nameOf time.shortDayNames w2 ->
  getExpiration (w1 +:+ rest) = getExpiration (w2 +:+ rest).
Proof.
  intros H1 H2. rewrite !getExpiration_Parse. unfold time.Parse, time.chunks.
  cbn [time.parseChunks]. rewrite !skip_nothing. cbn [mbind result_bind].
  rewrite (fwd_weekday _ _ _ H1), (fwd_weekday _ _ _ H2). reflexivity.
Qed.

(** X19. Every well-formed HTTP date is accepted and read as the
    instant it writes: weekday name, two-digit day, month name,
    four-digit year, hh:mm:ss and GMT, with the hour under 24, minute
    and second under 60 and a day that exists in that month of that
    year (29 February in leap years only), give the UTC instant of
    that date and time (wherever the local zone does not give GMT
    another offset). *)
Theorem getExpiration_accepts_http_dates
        (wd : string) (im : nat)
        (d1 d2 y1 y2 y3 y4 h1 h2 m1 m2 s1 s2 : ascii) :
  layout.nameOf time.shortDayNames wd -> (im < 12)%nat ->
  forallb isDigitByte [d1; d2; y1; y2; y3; y4; h1; h2; m1; m2; s1; s2] = true ->
  layout.num2 h1 h2 < 24 -> layout.num2 m1 m2 < 60 -> layout.num2 s1 s2 < 60 ->
  1 <= layout.num2 d1 d2
    <= time.daysIn (Z.of_nat im + 1) (layout.num4 y1 y2 y3 y4) ->
  (forall u, localLookupName "GMT" u = None \/ localLookupName "GMT" u = Some 0) ->
  exists t,
    getExpiration
      (layout.httpDate wd d1 d2 (nth im time.shortMonthNames "")
                       y1 y2 y3 y4 h1 h2 m1 m2 s1 s2) = Ok t
    /\ time.Equal t (time.DateUTC (layout.num4 y1 y2 y3 y4) (Z.of_nat im + 1)
                                  (layout.num2 d1 d2) (layout.num2 h1 h2)
                                  (layout.num2 m1 m2) (layout.num2 s1 s2) 0)
       = true.
Proof.
  intros Hwd Him Hdig Hh Hm Hs Hd Hgmt.
  rewrite getExpiration_Parse. unfold time.Parse.
  rewrite (parseChunks_httpDate _ _ _ _ _ _ _ _ _ _ _ _ _ _ Hwd Him Hdig).
  destruct (Z.leb_spec 24 (layout.num2 h1 h2)); [lia |].
  destruct (Z.leb_spec 60 (layout.num2 m1 m2)); [lia |].
  destruct (Z.leb_spec 60 (layout.num2 s1 s2)); [lia |].
  cbn [mbind result_bind]. rewrite finish_GMT.
  destruct (Z.ltb_spec (layout.num2 d1 d2) 1); [lia |].
  destruct (Z.ltb_spec (time.daysIn (Z.of_nat im + 1) (layout.num4 y1 y2 y3 y4))
                       (layout.num2 d1 d2)); [lia |].
  cbn [orb].
  destruct (Hgmt (time.unixSec
                    (time.DateUTC (layout.num4 y1 y2 y3 y4) (Z.of_nat im + 1)
                                  (layout.num2 d1 d2) (layout.num2 h1 h2)
                                  (layout.num2 m1 m2) (layout.num2 s1 s2) 0)))
    as [-> | ->];
    eexists; (split; [reflexivity |]);
    unfold time.Equal; cbn [time.unixSec time.nsec time.DateUTC];
    rewrite ?Z.sub_0_r, !Z.eqb_refl; reflexivity.
Qed.

(** X20. An HTTP date of the right shape whose numbers are out of
    range is rejected with an out-of-range parse error: an hour of 24
    or more, a minute or second of 60 or more, a day 00 or a day the
    month does not have in that year. *)
Theorem getExpiration_rejects_impossible_dates
        (wd : string) (im : nat)
        (d1 d2 y1 y2 y3 y4 h1 h2 m1 m2 s1 s2 : ascii) :
  layout.nameOf time.shortDayNames wd -> (im < 12)%nat ->
  forallb isDigitByte [d1; d2; y1; y2; y3; y4; h1; h2; m1; m2; s1; s2] = true ->
  24 <= layout.num2 h1 h2 \/ 60 <= layout.num2 m1 m2 \/ 60 <= layout.num2 s1 s2
  \/ layout.num2 d1 d2 < 1
  \/ time.daysIn (Z.of_nat im + 1) (layout.num4 y1 y2 y3 y4) < layout.num2 d1 d2 ->
  exists what,
    getExpiration
      (layout.httpDate wd d1 d2 (nth im time.shortMonthNames "")
                       y1 y2 y3 y4 h1 h2 m1 m2 s1 s2)
    = Err (ParseError (outOfRange what)).
Proof.
  intros Hwd Him Hdig Hbad.
  rewrite getExpiration_Parse. unfold time.Parse.
  rewrite (parseChunks_httpDate _ _ _ _ _ _ _ _ _ _ _ _ _ _ Hwd Him Hdig).
  destruct (Z.leb_spec 24 (layout.num2 h1 h2)); [eexists; reflexivity |].
  destruct (Z.leb_spec 60 (layout.num2 m1 m2)); [eexists; reflexivity |].
  destruct (Z.leb_spec 60 (layout.num2 s1 s2)); [eexists; reflexivity |].
  cbn [mbind result_bind]. rewrite finish_GMT.
  destruct (Z.ltb_spec (layout.num2 d1 d2) 1); [eexists; reflexivity |].
  destruct (Z.ltb_spec (time.daysIn (Z.of_nat im + 1) (layout.num4 y1 y2 y3 y4))
                       (layout.num2 d1 d2)); [eexists; reflexivity |].
  lia.
Qed.

End ExpiryForward.

(** ** Tokens and stale entries *)

Section SessionSequences.

Context `{Collaborators}.

(** X21. A successful code exchange stores the access and refresh
    tokens of the answer, and the next request of the session carries
    them: after it, [WhoAmI] sends, as the second request after the
    token request, a GET with the Authorization header "Bearer "
    followed by the new access token, when that token is not empty. *)
Theorem Authenticate_then_bearer
        (m : Machine) (code : string) (resp : Response Body) (body : string)
        (respData : authenticateResponse) :
  let m1 := snd (Authenticate code m) in
  newRequestError "POST" TokenURL = None ->
  fst (roundTrip (tokenRequest (esi m) code) (server m)) = Ok resp ->
  ReadAll (RespBody resp) = Ok body ->
  body <> "" ->
  StatusCode resp = StatusOK ->
  Unmarshal body = Ok respData ->
  fst (Authenticate code m) = Ok tt
  /\ AccessToken (esi m1) = ar_AccessToken respData
  /\ RefreshToken (esi m1) = ar_RefreshToken respData
  /\ (ar_AccessToken respData <> "" ->
      newRequestError "GET" VerifyURL = None ->
      exists req,
        calls (snd (WhoAmI m1)) = calls m ++ [tokenRequest (esi m) code; req]
        /\ Method req = "GET" /\ URL req = VerifyURL
        /\ ReqHeader req !! "Authorization"
           = Some ["Bearer " +:+ ar_AccessToken respData]).
Proof.
  intros m1 Hreq Hresp Hread Hbody Hstatus Hjson.
  assert (Hrun : Authenticate code m
                 = (Ok tt,
                    mkMachine
                      (set_tokens (ar_AccessToken respData)
                                  (ar_RefreshToken respData) (esi m))
                      (snd (roundTrip (tokenRequest (esi m) code) (server m)))
                      (calls m ++ [tokenRequest (esi m) code]))).
  { rewrite Authenticate_run; cbv zeta. rewrite Hreq, Hresp, Hread, Hstatus.
    destruct (String.eqb_spec body "") as [Hempty | _]; [contradiction |].
    rewrite Z.eqb_refl. cbn [orb negb]. rewrite Hjson. reflexivity. }
  subst m1. rewrite Hrun. cbn [fst snd esi].
  split; [reflexivity |]. split; [reflexivity |]. split; [reflexivity |].
  intros Htoken Hverify.
  exists (getRequest (set_tokens (ar_AccessToken respData)
                                 (ar_RefreshToken respData) (esi m)) VerifyURL).
  split.
  { rewrite WhoAmI_run; cbv zeta. rewrite Hverify. cbn [esi server calls].
    rewrite <- app_assoc. cbn [app].
    destruct (fst (roundTrip (getRequest _ _) _)) as [resp' | err];
      [| reflexivity].
    destruct (ParseJSONBuffer (RespBody resp')); reflexivity. }
  split; [apply Method_setupHeaders |].
  split; [apply URL_setupHeaders |].
  apply (setupHeaders_bearer
           (set_tokens (ar_AccessToken respData) (ar_RefreshToken respData) (esi m))).
  exact Htoken.
Qed.

(** X22. An entry that has expired is never served and never survives
    a [Get] of its URL.  The transport is asked, once the request is
    built; if the [Get] fails the cache is the old one without the
    entry; and whatever entry the URL has afterwards holds the
    document this [Get] returned. *)
Theorem Get_drops_stale_entry
        (m : Machine) (now : time.Time) (path : string) (args : list Operand)
        (entry : CacheEntry) :
  let url := canonicalURL (esi m) (Sprintf path args) in
  let m' := snd (Get now path args m) in
  cache (esi m) !! url = Some entry ->
  time.Before (Expires entry) now = true ->
  (newRequestError "GET" url = None ->
   calls m' = calls m ++ [getRequest (esi m) url])
  /\ (forall err, fst (Get now path args m) = Err err ->
        cache (esi m') = delete url (cache (esi m)))
  /\ (forall e', cache (esi m') !! url = Some e' ->
        exists doc, fst (Get now path args m) = Ok doc /\ Data e' = Some doc).
Proof.
  intros url m' Hu Hb. subst url m'.
  rewrite Get_run; cbv zeta.
  rewrite (get_expired _ _ _ _ Hu Hb). cbn [fst snd].
  split.
  { intros Hreq. rewrite Hreq.
    destruct (fst (roundTrip _ (server m))) as [resp | err]; [| reflexivity].
    destruct (ParseJSONBuffer (RespBody resp)); reflexivity. }
  split.
  { intros err.
    destruct (newRequestError "GET" _);
      [intros _; cbn [snd esi]; apply cache_set_cache |].
    destruct (fst (roundTrip _ (server m))) as [resp | err'];
      [| intros _; cbn [snd esi]; apply cache_set_cache].
    destruct (ParseJSONBuffer (RespBody resp));
      [discriminate | intros _; cbn [snd esi]; apply cache_set_cache]. }
  intros e'.
  destruct (newRequestError "GET" _).
  { cbn [snd esi]. rewrite cache_set_cache, lookup_delete_eq. discriminate. }
  destruct (fst (roundTrip _ (server m))) as [resp | err'].
  2: { cbn [snd esi]. rewrite cache_set_cache, lookup_delete_eq. discriminate. }
  destruct (ParseJSONBuffer (RespBody resp)) as [doc | err'].
  2: { cbn [snd esi]. rewrite cache_set_cache, lookup_delete_eq. discriminate. }
  cbn [fst snd esi]. rewrite cache_set_cache.
  unfold set. destruct (getExpiration _) as [t | perr]; cbn [snd].
  - rewrite lookup_insert_eq. intros [= <-]. exists doc. split; reflexivity.
  - rewrite lookup_delete_eq. discriminate.
Qed.

End SessionSequences.

(** ** Runs of the further properties *)

Section FurtherRuns.

Import Double.

Lemma get_monotone_in_time_witness :
  time.Before t_expiry t_earlier = false
  /\ get (H := scripted) warsCache "wars" t_earlier = (Some "{}", warsCache).
Proof.
  split; [reflexivity |].
  apply (proj1 (get_monotone_in_time (H := scripted) warsCache "wars"
                  t_earlier t_expiry eq_refl) "{}").
  vm_compute. reflexivity.
Defined.

Lemma set_expired_then_get_witness :
  time.Before parsedGoodExpires t_later = true
  /\ get (H := scripted)
         (snd (set (H := scripted) warsCache "wars" (Some "[1]")
                   (expiresHeader goodExpires)))
         "wars" t_later
     = (None, delete "wars" warsCache).
Proof.
  split; [reflexivity |].
  exact (proj1 (set_expired_then_get (H := scripted) warsCache "wars" (Some "[1]")
                  (expiresHeader goodExpires) parsedGoodExpires t_later
                  goodExpires_parses eq_refl)).
Defined.

Lemma set_frames_other_keys_witness :
  "wars" <> "sovereignty"
  /\ fst (get (H := scripted)
              (snd (set (H := scripted) warsCache "sovereignty" (Some "[1]")
                        (expiresHeader goodExpires)))
              "wars" t_earlier)
     = fst (get (H := scripted) warsCache "wars" t_earlier).
Proof.
  assert (Hne : "wars" <> "sovereignty") by discriminate.
  split; [exact Hne |].
  exact (proj2 (set_frames_other_keys (H := scripted) warsCache "sovereignty" "wars"
                  (Some "[1]") (expiresHeader goodExpires) t_earlier Hne)).
Defined.

Lemma set_without_expires_header_witness :
  (∅ : Header) !! "Expires" = None
  /\ set (H := scripted) warsCache "wars" (Some "[1]") ∅
     = (Err (ParseError errBad), warsCache).
Proof.
  split; [reflexivity |].
  exact (set_without_expires_header (H := scripted) warsCache "wars" (Some "[1]") ∅
           (or_introl eq_refl)).
Defined.

Lemma Get_then_Get_is_served_witness :
  fst (Get (H := scripted) t_earlier "wars/%s" ["10000"]
           (facing [reply 200 goodExpires "{}"])) = Ok "{}"
  /\ Get (H := scripted) t_expiry "wars/%s" ["10000"]
         (snd (Get (H := scripted) t_earlier "wars/%s" ["10000"]
                   (facing [reply 200 goodExpires "{}"])))
     = (Ok "{}",
        snd (Get (H := scripted) t_earlier "wars/%s" ["10000"]
                 (facing [reply 200 goodExpires "{}"])))
  /\ calls (snd (Get (H := scripted) t_earlier "wars/%s" ["10000"]
                     (facing [reply 200 goodExpires "{}"])))
     = [] ++ [getRequest session warsURL].
Proof.
  exact (Get_then_Get_is_served (H := scripted)
           (facing [reply 200 goodExpires "{}"]) t_earlier t_expiry
           "wars/%s" ["10000"]
           (mkResponse 200 (expiresHeader goodExpires) "{}") "{}"
           parsedGoodExpires eq_refl eq_refl eq_refl eq_refl
           goodExpires_parses eq_refl).
Defined.

Lemma Get_ignores_status_witness :
  fst (Get (H := scripted) t_earlier "wars/%s" ["10000"]
           (facing [reply 404 goodExpires "{}"]))
  = fst (Get (H := scripted) t_earlier "wars/%s" ["10000"]
             (facing [reply 200 goodExpires "{}"]))
  /\ esi (snd (Get (H := scripted) t_earlier "wars/%s" ["10000"]
                   (facing [reply 404 goodExpires "{}"])))
     = esi (snd (Get (H := scripted) t_earlier "wars/%s" ["10000"]
                     (facing [reply 200 goodExpires "{}"]))).
Proof.
  exact (Get_ignores_status (H := scripted)
           (facing [reply 200 goodExpires "{}"])
           (facing [reply 404 goodExpires "{}"])
           t_earlier "wars/%s" ["10000"]
           (mkResponse 200 (expiresHeader goodExpires) "{}")
           (mkResponse 404 (expiresHeader goodExpires) "{}")
           eq_refl eq_refl eq_refl eq_refl eq_refl).
Defined.

Lemma Get_paths_do_not_interfere_witness :
  Sprintf (Collaborators := scripted) "wars/%s" ["10000"]
  <> Sprintf (Collaborators := scripted) "wars/%s" ["20000"]
  /\ fst (Get (H := scripted) t_earlier "wars/%s" ["20000"]
              (snd (Get (H := scripted) t_earlier "wars/%s" ["10000"]
                        (facing [reply 200 goodExpires "{1}";
                                 reply 200 goodExpires "{2}"]))))
     = Ok "{2}".
Proof.
  assert (Hne : Sprintf (Collaborators := scripted) "wars/%s" ["10000"]
                <> Sprintf (Collaborators := scripted) "wars/%s" ["20000"]).
  { intros Heq. vm_compute in Heq. discriminate Heq. }
  split; [exact Hne |].
  pose proof (Get_paths_do_not_interfere (H := scripted)
                (facing [reply 200 goodExpires "{1}"; reply 200 goodExpires "{2}"])
                t_earlier t_earlier "wars/%s" "wars/%s" ["10000"] ["20000"] Hne)
    as Hsep.
  cbv zeta in Hsep. destruct Hsep as (Hres & _ & _).
  etransitivity; [exact Hres |]. vm_compute. reflexivity.
Defined.

Lemma New_is_cold_and_unauthenticated_witness :
  exists req,
    calls (snd (Get (H := scripted) t_earlier "wars/%s" ["10000"]
                    (facing [reply 200 goodExpires "{}"]))) = [req]
    /\ Method req = "GET" /\ URL req = warsURL
    /\ ReqHeader req !! "Authorization" = None.
Proof.
  pose proof (New_is_cold_and_unauthenticated (H := scripted)
                "id" "secret" "https://app.example/callback"
                [reply 200 goodExpires "{}"] t_earlier "wars/%s" "[1]" ["10000"])
    as Hnew.
  cbv zeta in Hnew. destruct Hnew as (Hget & _).
  exact (Hget eq_refl).
Defined.

Lemma Authenticate_request_shape_witness :
  exists req,
    calls (snd (Authenticate (H := scripted) "code-1"
                  (facing [reply 200 goodExpires "{}"]))) = [] ++ [req]
    /\ Method req = "POST"
    /\ URL req = "https://login.eveonline.com/oauth/token"
    /\ ReqBody req = Some "grant_type=authorization_code&code=code-1"
    /\ Header_Get (ReqHeader req) "Authorization" = "Basic id:secret".
Proof.
  destruct (Authenticate_request_shape (H := scripted)
              (facing [reply 200 goodExpires "{}"]) "code-1" eq_refl)
    as (req & Hcalls & Hmethod & Hurl & Hbody & Hauth & _).
  exists req.
  split; [exact Hcalls |]. split; [exact Hmethod |]. split; [exact Hurl |].
  split; [exact Hbody | exact Hauth].
Defined.

Lemma Thu_is_a_weekday : layout.nameOf time.shortDayNames "Thu".
Proof. exists "Thu". split; [cbn; tauto | split; reflexivity]. Defined.

Lemma mon_is_a_weekday : layout.nameOf time.shortDayNames "mon".
Proof. exists "Mon". split; [cbn; tauto | split; reflexivity]. Defined.

Lemma getExpiration_ignores_weekday_witness :
  getExpiration (H := scripted) ("Thu" +:+ ", 09 Nov 2017 17:27:14 GMT")
  = getExpiration (H := scripted) ("mon" +:+ ", 09 Nov 2017 17:27:14 GMT").
Proof.
  exact (getExpiration_ignores_weekday (H := scripted) "Thu" "mon"
           ", 09 Nov 2017 17:27:14 GMT" Thu_is_a_weekday mon_is_a_weekday).
Defined.

Lemma getExpiration_accepts_http_dates_witness :
  layout.httpDate "Thu" "0" "9" "Nov" "2" "0" "1" "7" "1" "7" "2" "7" "1" "4"
  = goodExpires
  /\ exists t,
      getExpiration (H := scripted)
        (layout.httpDate "Thu" "0" "9" (nth 10 time.shortMonthNames "")
                         "2" "0" "1" "7" "1" "7" "2" "7" "1" "4") = Ok t
      /\ time.Equal t (time.DateUTC (layout.num4 "2" "0" "1" "7") (Z.of_nat 10 + 1)
                                    (layout.num2 "0" "9") (layout.num2 "1" "7")
                                    (layout.num2 "2" "7") (layout.num2 "1" "4") 0)
         = true.
Proof.
  split; [reflexivity |].
  apply (getExpiration_accepts_http_dates (H := scripted) "Thu" 10
           "0" "9" "2" "0" "1" "7" "1" "7" "2" "7" "1" "4" Thu_is_a_weekday).
  - lia.
  - reflexivity.
  - reflexivity.
  - reflexivity.
  - reflexivity.
  - split; discriminate.
  - intros u. left. reflexivity.
Defined.

Lemma getExpiration_rejects_impossible_dates_witness :
  exists what,
    getExpiration (H := scripted)
      (layout.httpDate "Thu" "2" "9" (nth 1 time.shortMonthNames "")
                       "2" "0" "1" "7" "1" "7" "2" "7" "1" "4")
    = Err (ParseError (outOfRange what)).
Proof.
  apply (getExpiration_rejects_impossible_dates (H := scripted) "Thu" 1
           "2" "9" "2" "0" "1" "7" "1" "7" "2" "7" "1" "4" Thu_is_a_weekday).
  - lia.
  - reflexivity.
  - right. right. right. right. reflexivity.
Defined.

Lemma Authenticate_then_bearer_witness :
  fst (Authenticate (H := scripted) "code-1" (facing [reply 200 goodExpires "{}"]))
  = Ok tt
  /\ AccessToken (esi (snd (Authenticate (H := scripted) "code-1"
                              (facing [reply 200 goodExpires "{}"]))))
     = "access-1"
  /\ RefreshToken (esi (snd (Authenticate (H := scripted) "code-1"
                               (facing [reply 200 goodExpires "{}"]))))
     = "refresh-1".
Proof.
  pose proof (Authenticate_then_bearer (H := scripted)
                (facing [reply 200 goodExpires "{}"]) "code-1"
                (mkResponse 200 (expiresHeader goodExpires) "{}") "{}"
                (mkAuthenticateResponse "access-1" "Bearer" 1200 "refresh-1")
                eq_refl eq_refl eq_refl ltac:(discriminate) eq_refl eq_refl)
    as (Hok & Haccess & Hrefresh & _).
  split; [exact Hok |]. split; [exact Haccess | exact Hrefresh].
Defined.

Lemma Get_drops_stale_entry_witness :
  cache (esi (snd (Get (H := scripted) t_later "wars/%s" ["10000"] (warm []))))
  = delete warsURL (cache (esi (warm []))).
Proof.
  apply (proj1 (proj2 (Get_drops_stale_entry (H := scripted) (warm []) t_later
                         "wars/%s" ["10000"] (entry (Some "{}") t_expiry)
                         (lookup_insert_eq _ _ _) eq_refl))
           (LibError "connection refused")).
  vm_compute. reflexivity.
Defined.

End FurtherRuns.
